(** * HiddenStateExp: the stimulus generator of the NeuroState experiment

    A shallow embedding of [stimulus-generator.js] (classes [SeededRandom],
    [StimulusGenerator] and [StimulusHelpers]) and the properties of its
    specification.

    Numbers.  A JavaScript Number is an IEEE 754 binary64 value.  The code of
    the generator is written once, against the interface [Number], and read at
    two instances:
    - [FloatNumber]: Rocq's primitive binary64 floats, with the rounding,
      infinities and NaN of the source, where the definitions run;
    - [RealNumber]: the real numbers, the exact arithmetic that the
      expressions of the source denote, where order and analysis are proved.
      Rounding is not modelled there, and the instance is read only where
      the source divides by a number that is not zero ([2^32], 2, 3,
      [1 + exp x]) and takes the root of a number that is not negative.
    What only depends on the control flow is proved for every instance.  The
    state of the random stream and the counters are integers below [2^53],
    which binary64 holds exactly: they are modelled in [Z]. *)

From Stdlib Require Import ZArith List Bool Lia Lra QArith Qreals Reals.
From Stdlib Require Import Floats.
Import ListNotations.

Set Implicit Arguments.

(** ** The numbers of the source *)

Class Number (N : Type) : Type := {
  (** an integer-valued number: a counter, an index, the state of the
      random stream *)
  of_Z : Z -> N;
  (** a decimal literal of the source, [0.1] as [lit (1 # 10)] *)
  lit : Q -> N;
  add : N -> N -> N;
  sub : N -> N -> N;
  mul : N -> N -> N;
  div : N -> N -> N;
  (** unary minus *)
  neg : N -> N;
  (** [Math.sqrt], [Math.exp], [Math.abs], [Math.max], [Math.min] *)
  Math_sqrt : N -> N;
  Math_exp : N -> N;
  Math_abs : N -> N;
  Math_max : N -> N -> N;
  Math_min : N -> N -> N;
  (** [a < b] and [a <= b] *)
  ltb : N -> N -> bool;
  leb : N -> N -> bool
}.

Declare Scope num_scope.
Delimit Scope num_scope with num.
Infix "+" := add : num_scope.
Infix "-" := sub : num_scope.
Infix "*" := mul : num_scope.
Infix "/" := div : num_scope.
Notation "- x" := (neg x) : num_scope.
Infix "<?" := ltb : num_scope.
Infix "<=?" := leb : num_scope.
(** [a > b] is [b < a], also on NaN *)
Notation "a >? b" := (ltb b a) : num_scope.

(** *** Binary64 *)

Module F.

(** The float of an integer; exact below [2^53]. *)
Definition of_Z (z : Z) : float :=
  match z with
  | Z0 => PrimFloat.zero
  | Zpos _ => PrimFloat.of_uint63 (Uint63.of_Z z)
  | Zneg p => PrimFloat.opp (PrimFloat.of_uint63 (Uint63.of_Z (Zpos p)))
  end.

(** A decimal literal denotes the float nearest to it, which is what the
    correctly rounded quotient of its numerator and denominator is. *)
Definition lit (q : Q) : float :=
  PrimFloat.div (of_Z (Qnum q)) (of_Z (Zpos (Qden q))).

(** [Math.max] of two numbers: NaN if either is, and [+0] above [-0]. *)
Definition max (a b : float) : float :=
  if PrimFloat.is_nan a || PrimFloat.is_nan b then PrimFloat.nan
  else if PrimFloat.ltb a b then b
  else if PrimFloat.ltb b a then a
  else if PrimFloat.is_zero a then PrimFloat.add a b
  else a.

(** [Math.min] of two numbers: NaN if either is, and [-0] below [+0]. *)
Definition min (a b : float) : float :=
  if PrimFloat.is_nan a || PrimFloat.is_nan b then PrimFloat.nan
  else if PrimFloat.ltb a b then a
  else if PrimFloat.ltb b a then b
  else if PrimFloat.is_zero a
       then PrimFloat.opp (PrimFloat.add (PrimFloat.opp a) (PrimFloat.opp b))
  else a.

(** The integer part of a number, as the cast [(int)] of C takes it. *)
Definition to_Z (x : float) : Z :=
  match Prim2SF x with
  | S754_finite s m e =>
      let v := Z.quot (Zpos m * 2 ^ Z.max e 0) (2 ^ Z.max (- e) 0) in
      if s then (- v)%Z else v
  | _ => 0%Z
  end.

(** [Math.exp].  ECMAScript leaves it implementation-approximated; this is
    the algorithm of fdlibm ([e_exp.c]), which V8 and SpiderMonkey follow:
    reduce [x] to [k * ln2 + r], approximate [exp r] by a rational
    function, scale by [2^k]. *)
Definition exp (x : float) : float :=
  let ax := PrimFloat.abs x in
  let neg := PrimFloat.ltb x 0 in
  let ln2HI := 0x1.62e42fee00000p-1%float in
  let ln2LO := 0x1.a39ef35793c76p-33%float in
  let invln2 := 0x1.71547652b82fep+0%float in
  let P1 := 0x1.555555555553ep-3%float in
  let P2 := (-0x1.6c16c16bebd93p-9)%float in
  let P3 := 0x1.1566aaf25de2cp-14%float in
  let P4 := (-0x1.bbd41c5d26bf1p-20)%float in
  let P5 := 0x1.6376972bea4d0p-25%float in
  let primary (k : Z) (hi lo r : float) : float :=
    let t := (r * r)%float in
    let c := (r - t * (P1 + t * (P2 + t * (P3 + t * (P4 + t * P5)))))%float in
    if (k =? 0)%Z then (1 - ((r * c) / (c - 2) - r))%float
    else Z.ldexp (1 - ((lo - (r * c) / (2 - c)) - hi))%float k in
  if PrimFloat.is_nan x then PrimFloat.nan
  else if PrimFloat.is_infinity x then (if neg then 0%float else x)
  else if PrimFloat.ltb 0x1.62e42fefa39efp+9%float x then PrimFloat.infinity
  else if PrimFloat.ltb x (-0x1.74910d52d3051p+9)%float then 0%float
  else if PrimFloat.leb 0x1.62e43p-2%float ax then
    if PrimFloat.ltb ax 0x1.0a2b2p+0%float then
      let hi := (if neg then x + ln2HI else x - ln2HI)%float in
      let lo := (if neg then - ln2LO else ln2LO)%float in
      primary (if neg then (-1)%Z else 1%Z) hi lo (hi - lo)%float
    else
      let k := to_Z (invln2 * x + (if neg then -0.5 else 0.5))%float in
      let t := of_Z k in
      let hi := (x - t * ln2HI)%float in
      let lo := (t * ln2LO)%float in
      primary k hi lo (hi - lo)%float
  else if PrimFloat.ltb ax 0x1p-28%float then (1 + x)%float
  else primary 0%Z x 0%float x.

End F.

#[export] Instance FloatNumber : Number float := {|
  of_Z := F.of_Z;
  lit := F.lit;
  add := PrimFloat.add;
  sub := PrimFloat.sub;
  mul := PrimFloat.mul;
  div := PrimFloat.div;
  neg := PrimFloat.opp;
  Math_sqrt := PrimFloat.sqrt;
  Math_exp := F.exp;
  Math_abs := PrimFloat.abs;
  Math_max := F.max;
  Math_min := F.min;
  ltb := PrimFloat.ltb;
  leb := PrimFloat.leb
|}.

(** *** Exact arithmetic *)

Definition Rltb (a b : R) : bool := if Rlt_dec a b then true else false.
Definition Rleb (a b : R) : bool := if Rle_dec a b then true else false.

#[export] Instance RealNumber : Number R := {|
  of_Z := IZR;
  lit := Q2R;
  add := Rplus;
  sub := Rminus;
  mul := Rmult;
  div := Rdiv;
  neg := Ropp;
  Math_sqrt := R_sqrt.sqrt;
  Math_exp := Rtrigo_def.exp;
  Math_abs := Rabs;
  Math_max := Rmax;
  Math_min := Rmin;
  ltb := Rltb;
  leb := Rleb
|}.

(** ** SeededRandom *)

Record SeededRandom : Type := mkSeededRandom { seed : Z; current : Z }.

(** [new SeededRandom(seed)] *)
Definition SeededRandom_new (s : Z) : SeededRandom :=
  {| seed := s; current := s |}.

Definition setSeed (s : Z) (rng : SeededRandom) : SeededRandom :=
  {| seed := s; current := s |}.

(** Code that draws from the stream: the state of the stream goes in and
    comes out. *)
Definition Rand (A : Type) : Type := SeededRandom -> A * SeededRandom.

Definition ret {A} (a : A) : Rand A := fun rng => (a, rng).
Definition bind {A B} (m : Rand A) (k : A -> Rand B) : Rand B :=
  fun rng => let (a, rng') := m rng in k a rng'.

Notation "x <- m ;; k" := (bind m (fun x => k))
  (at level 61, m at next level, right associativity).

Definition LCG_A : Z := 1664525.
Definition LCG_C : Z := 1013904223.
(** [Math.pow(2, 32)] *)
Definition LCG_M : Z := 4294967296.

(** The next state of the stream.  [%] is the remainder of the truncated
    division, [Z.rem], which has the sign of the sum.  The source computes
    in binary64: this is the integer it computes while
    [|c * 1664525 + 1013904223| < 2^53], which every state from [-2^32] to
    [2^32] satisfies; beyond, the product is rounded, and a remainder that is
    zero has the sign of the sum. *)
Definition next_state (c : Z) : Z := Z.rem (c * LCG_A + LCG_C) LCG_M.

(** [this.current = (this.current * 1664525 + 1013904223) % Math.pow(2, 32)] *)
Definition advance (rng : SeededRandom) : SeededRandom :=
  {| seed := seed rng; current := next_state (current rng) |}.

Section Generator.

Context {N : Type} {num : Number N}.
Local Open Scope num_scope.

(** [random()]: advance the state, return [current / 2^32]. *)
Definition random : Rand N :=
  fun rng =>
    let rng' := advance rng in
    (of_Z (current rng') / of_Z LCG_M, rng').

(** *** StimulusGenerator: the constants of the constructor *)

Definition STATE_RANGE : N := of_Z 300.
Definition LIKELIHOOD_HALF_WIDTH : N := of_Z 20.
Definition CHANGE_SIZE_HALF_WIDTH : N := of_Z 40.
Definition CHANGE_SEPARATION : N := of_Z 15.

(** [Math.max(0, Math.min(this.STATE_RANGE, sample))] *)
Definition clamp (sample : N) : N :=
  Math_max (of_Z 0) (Math_min STATE_RANGE sample).

(** The sample of [sampleTriangular] before it is clamped, for the
    uniform draw [u]. *)
Definition triangular (center halfWidth u : N) : N :=
  if u <? lit (5 # 10)
  then center - halfWidth + halfWidth * Math_sqrt (of_Z 2 * u)
  else center + halfWidth - halfWidth * Math_sqrt (of_Z 2 * (of_Z 1 - u)).

Definition sampleTriangular (center halfWidth : N) : Rand N :=
  u <- random ;;
  ret (clamp (triangular center halfWidth u)).

Definition sampleBimodalTransition (currentState : N) : Rand N :=
  let largeJumpProbability := lit (2 # 10) in
  j <- random ;;
  if j <? largeJumpProbability
  then
    let targetCenter := STATE_RANGE / of_Z 2 in
    let largeJumpWidth := STATE_RANGE / of_Z 3 in
    sampleTriangular targetCenter largeJumpWidth
  else
    let leftCenter := currentState - CHANGE_SEPARATION in
    let rightCenter := currentState + CHANGE_SEPARATION in
    l <- random ;;
    let useLeftLobe := l <? lit (5 # 10) in
    let center := if useLeftLobe then leftCenter else rightCenter in
    sampleTriangular center CHANGE_SIZE_HALF_WIDTH.

Definition calculateHDHazard (tau : N) : N :=
  of_Z 1 / (of_Z 1 + Math_exp (- (tau - of_Z 10))).

End Generator.

(** ** Trials and sequences *)

Inductive Condition : Type := HI | HD.

Record Trial (N : Type) : Type := mkTrial {
  trial_idx : Z;
  condition : Condition;
  tau_true : Z;
  change_flag : bool;
  s_t : N;
  x_t : N;
  hazard_rate : N;
  tutorial_phase : option Z;
  is_tutorial : bool;
  likelihood_width : N
}.

(** [sequences[condition]]: the tutorials and the main block of a
    condition; and the object [generateAllSequences] returns. *)
Record ConditionSequences (N : Type) : Type := mkConditionSequences {
  tutorials : list (list (Trial N));
  main : list (Trial N)
}.

Record Sequences (N : Type) : Type := mkSequences {
  sequences_HI : ConditionSequences N;
  sequences_HD : ConditionSequences N
}.

Definition sequences_of {N} (s : Sequences N) (c : Condition)
  : ConditionSequences N :=
  match c with HI => sequences_HI s | HD => sequences_HD s end.

Record StimulusGenerator : Type := mkStimulusGenerator {
  MAIN_TRIALS : Z;
  rngSeed : Z;
  rng : SeededRandom
}.

Definition TUTORIAL_TRIALS : list Z := [10; 10; 15; 15; 20]%Z.

(** [new StimulusGenerator(trialCount)]; the source gives [trialCount] the
    default 1000, and seeds the stream with 12345 whatever the count. *)
Definition StimulusGenerator_new (trialCount : Z) : StimulusGenerator :=
  {| MAIN_TRIALS := trialCount;
     rngSeed := 12345;
     rng := SeededRandom_new 12345 |}.

Section Sequence.

Context {N : Type} {num : Number N}.
Local Open Scope num_scope.

(** [isTutorial || (t > 0 && t % 50 === 0)] *)
Definition explorationDue (isTutorial : bool) (t : Z) : bool :=
  isTutorial || ((0 <? t)%Z && (Z.rem t 50 =? 0)%Z).

(** The targeted exploration move of [generateSequence]. *)
Definition explorationMove (currentState : N) : Rand N :=
  if currentState <? STATE_RANGE * lit (3 # 10)
  then sampleTriangular (STATE_RANGE * lit (7 # 10))
                        (STATE_RANGE * lit (2 # 10))
  else if currentState >? STATE_RANGE * lit (7 # 10)
  then sampleTriangular (STATE_RANGE * lit (3 # 10))
                        (STATE_RANGE * lit (2 # 10))
  else
    b <- random ;;
    let exploreBoundary := b <? lit (5 # 10) in
    if exploreBoundary
    then sampleTriangular (STATE_RANGE * lit (15 # 100))
                          (STATE_RANGE * lit (1 # 10))
    else sampleTriangular (STATE_RANGE * lit (85 # 100))
                          (STATE_RANGE * lit (1 # 10)).

(** The new state of a trial on which a change occurs. *)
Definition changeState (isTutorial : bool) (t : Z) (currentState : N)
  : Rand N :=
  if explorationDue isTutorial t
  then
    let explorationProb := lit (3 # 10) in
    e <- random ;;
    if e <? explorationProb
    then explorationMove currentState
    else sampleBimodalTransition currentState
  else sampleBimodalTransition currentState.

(** The hazard of a trial: [0.1] for HI, [calculateHDHazard(tau)] otherwise. *)
Definition hazardOf (cond : Condition) (tau : Z) : N :=
  match cond with
  | HI => lit (1 # 10)
  | HD => calculateHDHazard (of_Z tau)
  end.

(** The half-width of the likelihood: halved in the tutorial phases 3 and 4. *)
Definition likelihoodWidthOf (isTutorial : bool) (tutorialPhase : option Z)
  : N :=
  if isTutorial &&
     match tutorialPhase with
     | Some p => (p =? 3)%Z || (p =? 4)%Z
     | None => false
     end
  then LIKELIHOOD_HALF_WIDTH * lit (5 # 10)
  else LIKELIHOOD_HALF_WIDTH.

(** The first half of a turn of the loop of [generateSequence]: the draw
    against the hazard, and the change flag, state and counter it leaves. *)
Definition stateUpdate (cond : Condition) (isTutorial : bool) (t : Z)
    (currentState : N) (tau : Z) : Rand (bool * N * Z) :=
  h <- random ;;
  if h <? hazardOf cond tau
  then
    s <- changeState isTutorial t currentState ;;
    ret (true, s, 0%Z)
  else ret (false, currentState, (tau + 1)%Z).

(** One turn of the loop: from the state and the counter before trial [t]
    to the trial and the state and counter after. *)
Definition trialStep (cond : Condition) (isTutorial : bool)
    (tutorialPhase : option Z) (t : Z) (currentState : N) (tau : Z)
  : Rand (Trial N * (N * Z)) :=
  st <- stateUpdate cond isTutorial t currentState tau ;;
  let '(changeFlag, currentState', tau') := st in
  let likelihoodWidth := likelihoodWidthOf isTutorial tutorialPhase in
  observation <- sampleTriangular currentState' likelihoodWidth ;;
  ret ({| trial_idx := t;
          condition := cond;
          tau_true := tau';
          change_flag := changeFlag;
          s_t := currentState';
          x_t := observation;
          hazard_rate := hazardOf cond tau;
          tutorial_phase := tutorialPhase;
          is_tutorial := isTutorial;
          likelihood_width := likelihoodWidth |},
       (currentState', tau')).

(** The loop [for (let t = 0; t < nTrials; t++)], [fuel] turns from [t]. *)
Fixpoint trialLoop (cond : Condition) (isTutorial : bool)
    (tutorialPhase : option Z) (fuel : nat) (t : Z) (currentState : N)
    (tau : Z) : Rand (list (Trial N)) :=
  match fuel with
  | O => ret []
  | S fuel' =>
      r <- trialStep cond isTutorial tutorialPhase t currentState tau ;;
      let '(tr, (currentState', tau')) := r in
      rest <- trialLoop cond isTutorial tutorialPhase fuel' (t + 1)
                        currentState' tau' ;;
      ret (tr :: rest)
  end.

(** The loop runs while [t < nTrials]: [nTrials] times, and not at all
    when [nTrials] is zero or negative. *)
Definition generateSequence (cond : Condition) (nTrials : Z)
    (isTutorial : bool) (tutorialPhase : option Z) : Rand (list (Trial N)) :=
  u <- random ;;
  let currentState := u * STATE_RANGE in
  trialLoop cond isTutorial tutorialPhase (Z.to_nat nTrials) 0 currentState 0.

(** The loop [for (let phase = 1; phase <= 5; phase++)]. *)
Fixpoint tutorialLoop (cond : Condition) (fuel : nat) (phase : Z)
  : Rand (list (list (Trial N))) :=
  match fuel with
  | O => ret []
  | S fuel' =>
      let nTrials := nth (Z.to_nat (phase - 1)) TUTORIAL_TRIALS 0%Z in
      trials <- generateSequence cond nTrials true (Some phase) ;;
      rest <- tutorialLoop cond fuel' (phase + 1) ;;
      ret (trials :: rest)
  end.

Definition generateTutorialSequences (cond : Condition)
  : Rand (list (list (Trial N))) :=
  tutorialLoop cond 5 1.

Definition generateMainSequence (mainTrials : Z) (cond : Condition)
  : Rand (list (Trial N)) :=
  generateSequence cond mainTrials false None.

(** The properties of the object literal are evaluated in the order they
    are written. *)
Definition generateAll (mainTrials : Z) : Rand (Sequences N) :=
  hiT <- generateTutorialSequences HI ;;
  hiM <- generateMainSequence mainTrials HI ;;
  hdT <- generateTutorialSequences HD ;;
  hdM <- generateMainSequence mainTrials HD ;;
  ret {| sequences_HI := {| tutorials := hiT; main := hiM |};
         sequences_HD := {| tutorials := hdT; main := hdM |} |}.

(** [generateAllSequences()]: the sequences, and the generator with its
    stream advanced. *)
Definition generateAllSequences (g : StimulusGenerator)
  : Sequences N * StimulusGenerator :=
  let (s, rng') := generateAll (MAIN_TRIALS g) (rng g) in
  (s, {| MAIN_TRIALS := MAIN_TRIALS g; rngSeed := rngSeed g; rng := rng' |}).

(** *** StimulusHelpers *)

Definition calculateDistance (point1 point2 : N) : N :=
  Math_abs (point1 - point2).

(** [baseRadius] has the default 10 in the source. *)
Definition calculatePoints (clickX trueState baseRadius : N) : N :=
  let distance := calculateDistance clickX trueState in
  if distance <=? baseRadius then of_Z 1
  else if distance <=? baseRadius * of_Z 2 then lit (25 # 100)
  else of_Z 0.

End Sequence.

(** ** The coverage analyzer

    [Math.min()] is [+Infinity], [Math.max()] is [-Infinity] and [0 / 0] is
    NaN: the analyzer is read on binary64.  [rangeOf] is the object that the
    source builds twice, for the states and for the observations. *)

Module Coverage.

Record Range : Type := mkRange {
  min : float;
  max : float;
  mean : float;
  coverage : float
}.

Record Quartiles (A : Type) : Type := mkQuartiles {
  q1 : A; q2 : A; q3 : A; q4 : A
}.

(** [percentages] holds the numbers that the source then prints with
    [toFixed(1)]. *)
Record Distribution : Type := mkDistribution {
  counts : Quartiles nat;
  percentages : Quartiles float
}.

Record Report : Type := mkReport {
  stateRange : Range;
  observationRange : Range;
  quartileDistribution : Distribution
}.

Record Analysis : Type := mkAnalysis {
  analysis_HI : Report;
  analysis_HD : Report
}.

Definition analysis_of (a : Analysis) (c : Condition) : Report :=
  match c with HI => analysis_HI a | HD => analysis_HD a end.

Local Open Scope float_scope.

(** [Math.min(...xs)] and [Math.max(...xs)] *)
Definition Math_min_of (xs : list float) : float :=
  fold_left F.min xs infinity.
Definition Math_max_of (xs : list float) : float :=
  fold_left F.max xs neg_infinity.

(** [xs.reduce((a, b) => a + b, 0)] *)
Definition sum (xs : list float) : float :=
  fold_left PrimFloat.add xs 0.

(** [xs.length], a number *)
Definition length_of {A} (xs : list A) : float :=
  F.of_Z (Z.of_nat (length xs)).

Definition rangeOf (xs : list float) : Range :=
  {| min := Math_min_of xs;
     max := Math_max_of xs;
     mean := sum xs / length_of xs;
     coverage := (Math_max_of xs - Math_min_of xs) / STATE_RANGE |}.

Definition calculateQuartileDistribution (states : list float)
  : Distribution :=
  let q1 := STATE_RANGE * F.lit (25 # 100) in
  let q2 := STATE_RANGE * F.lit (5 # 10) in
  let q3 := STATE_RANGE * F.lit (75 # 100) in
  let distribution :=
    {| q1 := length (filter (fun s => s <? q1) states);
       q2 := length (filter (fun s => (q1 <=? s) && (s <? q2)) states);
       q3 := length (filter (fun s => (q2 <=? s) && (s <? q3)) states);
       q4 := length (filter (fun s => q3 <=? s) states) |} in
  let total := length_of states in
  let percent (n : nat) := F.of_Z (Z.of_nat n) / total * 100 in
  {| counts := distribution;
     percentages :=
       {| q1 := percent (Coverage.q1 distribution);
          q2 := percent (Coverage.q2 distribution);
          q3 := percent (Coverage.q3 distribution);
          q4 := percent (Coverage.q4 distribution) |} |}.

Definition analyzeCondition (mainTrials : list (Trial float)) : Report :=
  let states := map (@s_t float) mainTrials in
  let observations := map (@x_t float) mainTrials in
  {| stateRange := rangeOf states;
     observationRange := rangeOf observations;
     quartileDistribution := calculateQuartileDistribution states |}.

(** The loop [for (const condition of ['HI', 'HD'])]. *)
Definition analyzeStateCoverage (sequences : Sequences float) : Analysis :=
  {| analysis_HI := analyzeCondition (main (sequences_of sequences HI));
     analysis_HD := analyzeCondition (main (sequences_of sequences HD)) |}.

End Coverage.

(** ** Notions of the specification *)

(** The states of the stream that the program can reach from the seed [s]:
    the state [new SeededRandom(s)] leaves and the states calls of [random()]
    lead to. *)
Inductive reachable (s : Z) : SeededRandom -> Prop :=
| reachable_new : reachable s (SeededRandom_new s)
| reachable_random : forall rng, reachable s rng -> reachable s (advance rng).

(** The state of the stream after [n] calls from the seed [s]. *)
Fixpoint stream (s : Z) (n : nat) : Z :=
  match n with
  | O => s
  | S n' => next_state (stream s n')
  end.

(** The values of [n] calls of [random()] in a row. *)
Fixpoint draws {N} {num : Number N} (n : nat) : Rand (list N) :=
  match n with
  | O => ret []
  | S n' => v <- random ;; rest <- draws n' ;; ret (v :: rest)
  end.

(** The counter of each trial follows from the counter before it, [prev]
    before the first: 0 on a change, one more otherwise. *)
Fixpoint tau_chain {N} (prev : Z) (trials : list (Trial N)) : Prop :=
  match trials with
  | [] => True
  | tr :: rest =>
      tau_true tr = (if change_flag tr then 0 else prev + 1)%Z
      /\ tau_chain (tau_true tr) rest
  end.

(** A property of the stream that calls of [random()] keep is kept by the
    computation [m]. *)
Definition preserves (P : SeededRandom -> Prop) {A} (m : Rand A) : Prop :=
  forall rng, P rng -> P (snd (m rng)).

(** The stream with another value in its field [seed]. *)
Definition reseed (s : Z) (rng : SeededRandom) : SeededRandom :=
  {| seed := s; current := current rng |}.

(** The computation [m] never reads the field [seed] of the stream. *)
Definition seed_irrelevant {A} (m : Rand A) : Prop :=
  forall s rng, m (reseed s rng) = (fst (m rng), reseed s (snd (m rng))).

(** What the determinism property compares in a trial. *)
Definition tuple {N} (tr : Trial N) : N * N * bool * Z :=
  (s_t tr, x_t tr, change_flag tr, tau_true tr).

(** The number of sequences in the object [generateAllSequences] returns:
    each is the result of one call of [generateSequence]. *)
Definition sequenceCount {N} (s : Sequences N) : nat :=
  (length (tutorials (sequences_HI s)) + 1
   + (length (tutorials (sequences_HD s)) + 1))%nat.

(** The state and the observation of a trial lie in [[0, STATE_RANGE]]: in
    exact arithmetic, and as the comparisons of the source decide it. *)
Definition in_range (tr : Trial R) : Prop :=
  (0 <= s_t tr <= STATE_RANGE)%R /\ (0 <= x_t tr <= STATE_RANGE)%R.

Definition in_rangeb {N} {num : Number N} (tr : Trial N) : bool :=
  ((of_Z 0 <=? s_t tr) && (s_t tr <=? STATE_RANGE)
   && (of_Z 0 <=? x_t tr) && (x_t tr <=? STATE_RANGE))%num.

(** Every trial of the session satisfies [p]. *)
Definition all_trials {N} (p : Trial N -> bool) (s : Sequences N) : bool :=
  forallb (fun c => forallb (forallb p) (tutorials (sequences_of s c))
                    && forallb p (main (sequences_of s c)))
          [HI; HD].

(** The computation [m] returns a number of [[0, STATE_RANGE]]. *)
Definition lands (m : Rand R) : Prop :=
  forall rng, (0 <= fst (m rng) <= STATE_RANGE)%R.

(** The [n] integers from [lo] on. *)
Definition integers (lo : Z) (n : nat) : list Z :=
  map (fun k => (lo + Z.of_nat k)%Z) (seq 0 n).

(** ** Further notions

    Beyond the generator, the development embeds [ExperimentUtils] (the
    conversions between states and positions and the score of a click) and
    the flow of [NeuroStateExperiment]: the handlers of the clicks and of the
    timeouts as functions on the fields of the experiment that they read and
    write.  The canvas and the elements of the page are left out. *)

(** The inverse of the multiplier 1664525 modulo [2^32], and the state that
    a call of [random()] came from. *)
Definition LCG_A_inverse : Z := 4276115653.

Definition previous_state (s : Z) : Z :=
  ((s - LCG_C) * LCG_A_inverse) mod LCG_M.

(** The stream after [k] calls of [random()]. *)
Definition advances (k : nat) (rng : SeededRandom) : SeededRandom :=
  Nat.iter k advance rng.

(** The computation [m] makes at least [lo] and at most [hi] calls of
    [random()]. *)
Definition consumes (lo hi : nat) {A} (m : Rand A) : Prop :=
  forall rng, exists k,
    (lo <= k <= hi)%nat /\ snd (m rng) = advances k rng.

(** Each trial follows from the state and the counter before it: its hazard
    is that of the counter before, its counter is reset or counts on, and
    without a change its state is the state before. *)
Fixpoint follows {N} {num : Number N} (cond : Condition) (prevState : N)
    (prevTau : Z) (trials : list (Trial N)) : Prop :=
  match trials with
  | [] => True
  | tr :: rest =>
      hazard_rate tr = hazardOf cond prevTau
      /\ tau_true tr = (if change_flag tr then 0 else prevTau + 1)%Z
      /\ (change_flag tr = false -> s_t tr = prevState)
      /\ follows cond (s_t tr) (tau_true tr) rest
  end.

(** In exact arithmetic: the value that [m] returns, from a stream whose
    state is not negative, satisfies [P]. *)
Definition yields (P : R -> Prop) (m : Rand R) : Prop :=
  forall rng, (0 <= current rng)%Z -> P (fst (m rng)).

(** A value within [h] of [c]. *)
Definition within (h c x : R) : Prop := (c - h <= x <= c + h)%R.

(** A binary64 number that is not NaN. *)
Definition number (x : float) : Prop := PrimFloat.is_nan x = false.

(** ** ExperimentUtils *)

(** [Math.floor], which the score of a click needs. *)
Class Floor (N : Type) : Type := { Math_floor : N -> N }.

(** [Math.floor] on binary64: NaN, the infinities, the zeros and the numbers
    from [2^52] on are their own floor; below, the integer part is exact,
    and is one too much for a negative number that is not an integer. *)
Definition float_floor (x : float) : float :=
  if (PrimFloat.is_nan x || PrimFloat.is_infinity x || PrimFloat.is_zero x)%bool
  then x
  else if PrimFloat.leb 0x1p52%float (PrimFloat.abs x) then x
  else
    let t := F.of_Z (F.to_Z x) in
    if PrimFloat.ltb x t then PrimFloat.sub t 1%float else t.

#[export] Instance FloatFloor : Floor float := {| Math_floor := float_floor |}.
#[export] Instance RealFloor : Floor R := {| Math_floor := fun x => IZR (Zfloor x) |}.

Module ExperimentUtils.

Section Utils.

Context {N : Type} {num : Number N} {fl : Floor N}.
Local Open Scope num_scope.

(** [(stateValue / 300) * screenWidth] *)
Definition stateToScreen (stateValue screenWidth : N) : N :=
  (stateValue / of_Z 300) * screenWidth.

(** [(screenX / screenWidth) * 300] *)
Definition screenToState (screenX screenWidth : N) : N :=
  (screenX / screenWidth) * of_Z 300.

(** [Math.max(0, 100 - Math.floor(distance * 2))] *)
Definition calculatePoints (clickX trueState : N) : N :=
  let distance := Math_abs (clickX - trueState) in
  let points := Math_max (of_Z 0) (of_Z 100 - Math_floor (distance * of_Z 2)) in
  points.

End Utils.

End ExperimentUtils.

(** ** NeuroStateExperiment *)

From Stdlib Require String.

(** What a handler of the experiment comes to: it returns, or it throws the
    [TypeError] of a property read from [null] or [undefined]; [OutOfFuel]
    is the model's own, for a chain of blocks longer than its fuel. *)
Inductive Result (A : Type) : Type :=
| Done (a : A)
| TypeError
| OutOfFuel.

Arguments TypeError {A}.
Arguments OutOfFuel {A}.

(** The object that [handleClick] logs. *)
Module Logged.

Record Entry (N : Type) : Type := mkEntry {
  pid : String.string;
  condition : Condition;
  block_idx : Z;
  trial_idx : Z;
  tau_true : Z;
  change_flag : bool;
  s_t : N;
  x_t : N;
  click_x : N;
  rt_ms : N;
  repeated_click_flag : bool;
  points_awarded : N;
  score_total_at_checkpoint : N;
  show_past_dots_flag : bool;
  tutorial_phase : option Z
}.

End Logged.

Module NeuroStateExperiment.

(** The fields of the experiment that its flow reads and writes; the canvas
    and the elements of the page are left out.  [timers] counts the
    timeouts that [handleClick] has set and that have not fired yet, and
    [completed] is set when [endExperiment] removes the listeners. *)
Record State (N : Type) : Type := mkState {
  participantID : String.string;
  stimulusGenerator : option StimulusGenerator;
  condition : Condition;
  blockIdx : Z;
  trialIdx : Z;
  totalScore : N;
  currentTrial : option (Trial N);
  sequences : option (Sequences N);
  tutorialPhase : option Z;
  isTutorial : bool;
  showPastDotsFlag : bool;
  showTrueState : bool;
  currentTrials : option (list (Trial N));
  trials : list (Logged.Entry N);
  timers : nat;
  completed : bool
}.

(** The summary of [displayExperimentSummary]. *)
Record Summary (N : Type) : Type := mkSummary {
  totalTrials : N;
  totalPoints : N;
  averagePoints : N;
  avgReactionTime : N;
  accuracy : N;
  changeTrials : nat;
  changePercentage : N
}.

(** A click on the canvas at [clickX], with the two readings of
    [performance.now()] that [handleClick] takes; or a timeout that fires. *)
Inductive Event (N : Type) : Type :=
| Click (clickX clickTime now : N)
| Timer.

Arguments Timer {N}.

Section Flow.

Context {N : Type} {num : Number N} {fl : Floor N}.
Local Open Scope num_scope.

(** [this.canvasWidth = 800] *)
Definition canvasWidth : N := of_Z 800.

(** [a === b] on numbers: false when either is NaN, true for the two
    zeros. *)
Definition strictEquals (a b : N) : bool := (a <=? b) && (b <=? a).

(** [new NeuroStateExperiment()], with the ID and the condition that it
    draws. *)
Definition constructor (id : String.string) (cond : Condition) : State N :=
  {| participantID := id;
     stimulusGenerator := None;
     condition := cond;
     blockIdx := 0;
     trialIdx := 0;
     totalScore := of_Z 0;
     currentTrial := None;
     sequences := None;
     tutorialPhase := Some 0%Z;
     isTutorial := true;
     showPastDotsFlag := false;
     showTrueState := false;
     currentTrials := None;
     trials := [];
     timers := 0;
     completed := false |}.

Definition endExperiment (e : State N) : State N :=
  {| participantID := participantID e;
     stimulusGenerator := stimulusGenerator e;
     condition := condition e;
     blockIdx := blockIdx e;
     trialIdx := trialIdx e;
     totalScore := totalScore e;
     currentTrial := currentTrial e;
     sequences := sequences e;
     tutorialPhase := tutorialPhase e;
     isTutorial := isTutorial e;
     showPastDotsFlag := showPastDotsFlag e;
     showTrueState := showTrueState e;
     currentTrials := currentTrials e;
     trials := trials e;
     timers := timers e;
     completed := true |}.

(** [this.currentTrials[this.trialIdx]] *)
Definition element {A} (l : list A) (i : Z) : option A :=
  if (i <? 0)%Z then None else nth_error l (Z.to_nat i).

(** [startBlock]: the trials of the block, [trialIdx = 0], [startTrial]. *)
Definition startBlock (startTrial : State N -> Result (State N))
    (e : State N) : Result (State N) :=
  match sequences e with
  | None => TypeError
  | Some seqs =>
      let block :=
        if isTutorial e
        then
          let phase := match tutorialPhase e with Some p => p | None => 0%Z end in
          element (tutorials (sequences_of seqs (condition e))) (phase - 1)
        else Some (main (sequences_of seqs (condition e))) in
      startTrial
        {| participantID := participantID e;
           stimulusGenerator := stimulusGenerator e;
           condition := condition e;
           blockIdx := blockIdx e;
           trialIdx := 0;
           totalScore := totalScore e;
           currentTrial := currentTrial e;
           sequences := sequences e;
           tutorialPhase := tutorialPhase e;
           isTutorial := isTutorial e;
           showPastDotsFlag := showPastDotsFlag e;
           showTrueState := showTrueState e;
           currentTrials := block;
           trials := trials e;
           timers := timers e;
           completed := completed e |}
  end.

Definition startTutorial (startTrial : State N -> Result (State N))
    (e : State N) : Result (State N) :=
  startBlock startTrial
    {| participantID := participantID e;
       stimulusGenerator := stimulusGenerator e;
       condition := condition e;
       blockIdx := blockIdx e;
       trialIdx := trialIdx e;
       totalScore := totalScore e;
       currentTrial := currentTrial e;
       sequences := sequences e;
       tutorialPhase := Some 1%Z;
       isTutorial := true;
       showPastDotsFlag := showPastDotsFlag e;
       showTrueState := false;
       currentTrials := currentTrials e;
       trials := trials e;
       timers := timers e;
       completed := completed e |}.

Definition startMainExperiment (startTrial : State N -> Result (State N))
    (e : State N) : Result (State N) :=
  startBlock startTrial
    {| participantID := participantID e;
       stimulusGenerator := stimulusGenerator e;
       condition := condition e;
       blockIdx := 0;
       trialIdx := trialIdx e;
       totalScore := totalScore e;
       currentTrial := currentTrial e;
       sequences := sequences e;
       tutorialPhase := None;
       isTutorial := false;
       showPastDotsFlag := showPastDotsFlag e;
       showTrueState := false;
       currentTrials := currentTrials e;
       trials := trials e;
       timers := timers e;
       completed := completed e |}.

(** [endBlock]: the next phase of the tutorial, the main experiment after
    phase 5, the end after the main experiment.  ([null < 5] holds and
    [null++] leaves 1.) *)
Definition endBlock (startTrial : State N -> Result (State N))
    (e : State N) : Result (State N) :=
  if isTutorial e
  then
    let phase := match tutorialPhase e with Some p => p | None => 0%Z end in
    if (phase <? 5)%Z
    then
      let phase' := (phase + 1)%Z in
      startBlock startTrial
        {| participantID := participantID e;
           stimulusGenerator := stimulusGenerator e;
           condition := condition e;
           blockIdx := blockIdx e;
           trialIdx := trialIdx e;
           totalScore := totalScore e;
           currentTrial := currentTrial e;
           sequences := sequences e;
           tutorialPhase := Some phase';
           isTutorial := isTutorial e;
           showPastDotsFlag := showPastDotsFlag e;
           showTrueState :=
             if (2 <=? phase')%Z then true else showTrueState e;
           currentTrials := currentTrials e;
           trials := trials e;
           timers := timers e;
           completed := completed e |}
    else startMainExperiment startTrial e
  else Done (endExperiment e).

(** [startTrial]: the end of the block when the index has reached the
    length of the block, the trial at the index otherwise; [animateSnowball]
    then reads the observation of the trial and the range of the generator.
    Each turn of [fuel] is for one call of [endBlock]. *)
Fixpoint startTrial (fuel : nat) (e : State N) : Result (State N) :=
  match currentTrials e with
  | None => TypeError
  | Some block =>
      if (Z.of_nat (length block) <=? trialIdx e)%Z
      then
        match fuel with
        | O => OutOfFuel
        | S fuel' => endBlock (startTrial fuel') e
        end
      else
        match element block (trialIdx e), stimulusGenerator e with
        | Some trial, Some _ =>
            Done
              {| participantID := participantID e;
                 stimulusGenerator := stimulusGenerator e;
                 condition := condition e;
                 blockIdx := blockIdx e;
                 trialIdx := trialIdx e;
                 totalScore := totalScore e;
                 currentTrial := Some trial;
                 sequences := sequences e;
                 tutorialPhase := tutorialPhase e;
                 isTutorial := isTutorial e;
                 showPastDotsFlag := showPastDotsFlag e;
                 showTrueState := showTrueState e;
                 currentTrials := currentTrials e;
                 trials := trials e;
                 timers := timers e;
                 completed := completed e |}
        | _, _ => TypeError
        end
  end.

(** There are five phases and the main experiment: seven calls of
    [endBlock] at most follow one another. *)
Definition blocks : nat := 7.

(** [startExperiment], for the trial count that is selected. *)
Definition startExperiment (selectedTrialCount : Z) (e : State N)
  : Result (State N) :=
  let '(seqs, generator) :=
    generateAllSequences (StimulusGenerator_new selectedTrialCount) in
  startTutorial (startTrial blocks)
    {| participantID := participantID e;
       stimulusGenerator := Some generator;
       condition := condition e;
       blockIdx := blockIdx e;
       trialIdx := trialIdx e;
       totalScore := totalScore e;
       currentTrial := currentTrial e;
       sequences := Some seqs;
       tutorialPhase := tutorialPhase e;
       isTutorial := isTutorial e;
       showPastDotsFlag := showPastDotsFlag e;
       showTrueState := showTrueState e;
       currentTrials := currentTrials e;
       trials := trials e;
       timers := timers e;
       completed := completed e |}.

(** [handleClick]: the score of the click, the entry of the log, and the
    timeout for the next trial.  It reads the range of the generator and the
    state of the current trial, and throws when either is [null]. *)
Definition handleClick (clickX clickTime now : N) (e : State N)
  : Result (State N) :=
  let clickState := ExperimentUtils.screenToState clickX canvasWidth in
  match stimulusGenerator e, currentTrial e with
  | Some _, Some trial =>
      let points := ExperimentUtils.calculatePoints clickState (s_t trial) in
      let totalScore' := totalScore e + points in
      let repeatedClickFlag :=
        match last (map Some (trials e)) None with
        | Some previousTrial =>
            strictEquals clickState (Logged.click_x previousTrial)
        | None => false
        end in
      let entry :=
        {| Logged.pid := participantID e;
           Logged.condition := condition e;
           Logged.block_idx := blockIdx e;
           Logged.trial_idx := trialIdx e;
           Logged.tau_true := tau_true trial;
           Logged.change_flag := change_flag trial;
           Logged.s_t := s_t trial;
           Logged.x_t := x_t trial;
           Logged.click_x := clickState;
           Logged.rt_ms := clickTime - now;
           Logged.repeated_click_flag := repeatedClickFlag;
           Logged.points_awarded := points;
           Logged.score_total_at_checkpoint := totalScore';
           Logged.show_past_dots_flag := showPastDotsFlag e;
           Logged.tutorial_phase := tutorialPhase e |} in
      Done
        {| participantID := participantID e;
           stimulusGenerator := stimulusGenerator e;
           condition := condition e;
           blockIdx := blockIdx e;
           trialIdx := trialIdx e;
           totalScore := totalScore';
           currentTrial := currentTrial e;
           sequences := sequences e;
           tutorialPhase := tutorialPhase e;
           isTutorial := isTutorial e;
           showPastDotsFlag := showPastDotsFlag e;
           showTrueState := showTrueState e;
           currentTrials := currentTrials e;
           trials := trials e ++ [entry];
           timers := S (timers e);
           completed := completed e |}
  | _, _ => TypeError
  end.

(** The callback of the timeout: [this.trialIdx++; this.startTrial()]. *)
Definition timeout (e : State N) : Result (State N) :=
  startTrial blocks
    {| participantID := participantID e;
       stimulusGenerator := stimulusGenerator e;
       condition := condition e;
       blockIdx := blockIdx e;
       trialIdx := (trialIdx e + 1)%Z;
       totalScore := totalScore e;
       currentTrial := currentTrial e;
       sequences := sequences e;
       tutorialPhase := tutorialPhase e;
       isTutorial := isTutorial e;
       showPastDotsFlag := showPastDotsFlag e;
       showTrueState := showTrueState e;
       currentTrials := currentTrials e;
       trials := trials e;
       timers := Nat.pred (timers e);
       completed := completed e |}.

(** An event reaches its handler: a click while the listener is on the
    canvas, a timeout when one is pending. *)
Definition handle (ev : Event N) (e : State N) : Result (State N) :=
  match ev with
  | Click clickX clickTime now =>
      if completed e then Done e else handleClick clickX clickTime now e
  | Timer =>
      match timers e with
      | O => Done e
      | S _ => timeout e
      end
  end.

(** The events of a session, one after the other; a handler that throws
    ends the model's run. *)
Fixpoint run (events : list (Event N)) (e : State N) : Result (State N) :=
  match events with
  | [] => Done e
  | ev :: rest =>
      match handle ev e with
      | Done e' => run rest e'
      | TypeError => TypeError
      | OutOfFuel => OutOfFuel
      end
  end.

(** The statistics of [displayExperimentSummary]; nothing when there is no
    trial in the log. *)
Definition displayExperimentSummary (e : State N) : option (Summary N) :=
  let trials := trials e in
  match trials with
  | [] => None
  | _ :: _ =>
      let totalTrials := of_Z (Z.of_nat (length trials)) in
      let totalPoints :=
        fold_left (fun sum trial => sum + Logged.points_awarded trial)
                  trials (of_Z 0) in
      let averagePoints := totalPoints / totalTrials in
      let validRTs := filter (fun trial => Logged.rt_ms trial >? of_Z 0) trials in
      let avgReactionTime :=
        match validRTs with
        | [] => of_Z 0
        | _ :: _ =>
            fold_left (fun sum trial => sum + Logged.rt_ms trial)
                      validRTs (of_Z 0)
            / of_Z (Z.of_nat (length validRTs))
        end in
      let maxPointsPerTrial := of_Z 100 in
      let accuracy :=
        totalPoints / (totalTrials * maxPointsPerTrial) * of_Z 100 in
      let changeTrials := length (filter (@Logged.change_flag N) trials) in
      let changePercentage :=
        of_Z (Z.of_nat changeTrials) / totalTrials * of_Z 100 in
      Some {| totalTrials := totalTrials;
              totalPoints := totalPoints;
              averagePoints := averagePoints;
              avgReactionTime := avgReactionTime;
              accuracy := accuracy;
              changeTrials := changeTrials;
              changePercentage := changePercentage |}
  end.

(** The buffer of [animateSnowball]: the dot is pushed, and the oldest is
    shifted out once there are more than ten. *)
Definition rememberDot {A} (pastDots : list A) (dot : A) : list A :=
  let pastDots' := pastDots ++ [dot] in
  if (10 <? length pastDots')%nat then tl pastDots' else pastDots'.

End Flow.

End NeuroStateExperiment.

(** The trials of a condition in the order of the session: the tutorial
    blocks, then the main block. *)
Definition session {N} (seqs : Sequences N) (cond : Condition)
  : list (Trial N) :=
  concat (tutorials (sequences_of seqs cond)) ++ main (sequences_of seqs cond).

(** The events of a participant who clicks once on each trial and waits for
    the next one: each click, then its timeout. *)
Definition oneClickPerTrial {N} (clicks : list (N * N * N))
  : list (NeuroStateExperiment.Event N) :=
  flat_map (fun c : N * N * N =>
              let '(clickX, clickTime, now) := c in
              [NeuroStateExperiment.Click clickX clickTime now;
               NeuroStateExperiment.Timer])
           clicks.

(** What an entry of the log records of the trial that was shown. *)
Definition shown {N} (entry : Logged.Entry N) : Z * bool * N * N :=
  (Logged.tau_true entry, Logged.change_flag entry, Logged.s_t entry,
   Logged.x_t entry).

Definition shown_of {N} (trial : Trial N) : Z * bool * N * N :=
  (tau_true trial, change_flag trial, s_t trial, x_t trial).

(** The blocks of a session: the tutorial blocks and the main block. *)
Definition blocksOf {N} (seqs : Sequences N) (cond : Condition)
  : list (list (Trial N)) :=
  tutorials (sequences_of seqs cond) ++ [main (sequences_of seqs cond)].

(** The experiment is in block [b] (0 to 4 for the phases of the tutorial,
    5 for the main experiment) with the index [i]. *)
Definition positioned {N} (seqs : Sequences N) (cond : Condition)
    (e : NeuroStateExperiment.State N) (b i : nat) : Prop :=
  NeuroStateExperiment.sequences e = Some seqs
  /\ NeuroStateExperiment.condition e = cond
  /\ NeuroStateExperiment.isTutorial e = (b <? 5)%nat
  /\ NeuroStateExperiment.tutorialPhase e
     = (if (b <? 5)%nat then Some (Z.of_nat b + 1)%Z else None)
  /\ NeuroStateExperiment.currentTrials e = Some (nth b (blocksOf seqs cond) [])
  /\ NeuroStateExperiment.trialIdx e = Z.of_nat i
  /\ NeuroStateExperiment.blockIdx e = 0%Z
  /\ NeuroStateExperiment.completed e = false
  /\ (b <= 5)%nat
  /\ NeuroStateExperiment.stimulusGenerator e <> None.

(** What the flow of the trials leaves alone. *)
Definition same_data {N} (e e' : NeuroStateExperiment.State N) : Prop :=
  NeuroStateExperiment.participantID e' = NeuroStateExperiment.participantID e
  /\ NeuroStateExperiment.totalScore e' = NeuroStateExperiment.totalScore e
  /\ NeuroStateExperiment.trials e' = NeuroStateExperiment.trials e
  /\ NeuroStateExperiment.timers e' = NeuroStateExperiment.timers e
  /\ NeuroStateExperiment.showPastDotsFlag e'
     = NeuroStateExperiment.showPastDotsFlag e
  /\ NeuroStateExperiment.stimulusGenerator e'
     = NeuroStateExperiment.stimulusGenerator e.

(** The trials still to show from the index [i] of the block [b]. *)
Definition remaining {N} (seqs : Sequences N) (cond : Condition)
    (b i : nat) : list (Trial N) :=
  skipn i (nth b (blocksOf seqs cond) [])
  ++ concat (skipn (S b) (blocksOf seqs cond)).

(** An entry of the log that carries the ID, the condition and the block 0. *)
Definition stamped {N} (id : String.string) (cond : Condition)
    (entry : Logged.Entry N) : Prop :=
  Logged.pid entry = id /\ Logged.condition entry = cond
  /\ Logged.block_idx entry = 0%Z.

(** [trials.reduce((sum, trial) => sum + trial.points_awarded, start)] *)
Definition pointsFrom {N} {num : Number N} (log : list (Logged.Entry N))
    (start : N) : N :=
  fold_left (fun sum trial => (sum + Logged.points_awarded trial)%num) log start.

(** In exact arithmetic: the score is the sum of the points of the log,
    each entry has between 0 and 100 points, and the last entry carries the
    score. *)
Definition scored (e : NeuroStateExperiment.State R) : Prop :=
  NeuroStateExperiment.totalScore e
  = pointsFrom (NeuroStateExperiment.trials e) 0%R
  /\ Forall (fun en => (0 <= Logged.points_awarded en <= 100)%R)
       (NeuroStateExperiment.trials e)
  /\ match last (map Some (NeuroStateExperiment.trials e)) None with
     | Some en =>
         Logged.score_total_at_checkpoint en = NeuroStateExperiment.totalScore e
     | None => NeuroStateExperiment.totalScore e = 0%R
     end.

(** * Properties *)

(** ** Computations on the stream *)

Section Stream.

Context {N : Type} {num : Number N}.
Variable P : SeededRandom -> Prop.
Hypothesis P_advance : forall rng, P rng -> P (advance rng).

Lemma preserves_ret {A} (a : A) : preserves P (ret a).
Proof. intros rng H. exact H. Qed.

Lemma preserves_bind {A B} (m : Rand A) (k : A -> Rand B) :
  preserves P m -> (forall a, preserves P (k a)) -> preserves P (bind m k).
Proof.
  intros Hm Hk rng H. unfold bind. specialize (Hm rng H).
  destruct (m rng) as [a rng']. exact (Hk a rng' Hm).
Qed.

Lemma preserves_random : preserves P (random (N:=N)).
Proof. intros rng H. exact (P_advance H). Qed.

Ltac preserves_step :=
  first
    [ apply preserves_ret
    | apply preserves_random
    | apply preserves_bind; [| intro]
    | match goal with
      | |- preserves _ (if ?c then _ else _) => destruct c
      | |- preserves _ (let '(_, _) := ?x in _) => destruct x
      end
    | assumption ].

Lemma preserves_sampleTriangular c h : preserves P (sampleTriangular (N:=N) c h).
Proof. unfold sampleTriangular. repeat preserves_step. Qed.

Lemma preserves_sampleBimodalTransition s :
  preserves P (sampleBimodalTransition (N:=N) s).
Proof.
  unfold sampleBimodalTransition.
  repeat first [apply preserves_sampleTriangular | preserves_step].
Qed.

Lemma preserves_explorationMove s : preserves P (explorationMove (N:=N) s).
Proof.
  unfold explorationMove.
  repeat first [apply preserves_sampleTriangular | preserves_step].
Qed.

Lemma preserves_changeState isTutorial t s :
  preserves P (changeState (N:=N) isTutorial t s).
Proof.
  unfold changeState.
  repeat first [apply preserves_explorationMove
               | apply preserves_sampleBimodalTransition | preserves_step].
Qed.

Lemma preserves_stateUpdate cond isTutorial t s tau :
  preserves P (stateUpdate (N:=N) cond isTutorial t s tau).
Proof.
  unfold stateUpdate. repeat first [apply preserves_changeState | preserves_step].
Qed.

Lemma preserves_trialStep cond isTutorial tutorialPhase t s tau :
  preserves P (trialStep (N:=N) cond isTutorial tutorialPhase t s tau).
Proof.
  unfold trialStep.
  repeat first [apply preserves_stateUpdate | apply preserves_sampleTriangular
               | preserves_step].
Qed.

Lemma preserves_trialLoop cond isTutorial tutorialPhase fuel : forall t s tau,
  preserves P (trialLoop (N:=N) cond isTutorial tutorialPhase fuel t s tau).
Proof.
  induction fuel as [| fuel IH]; intros t s tau; cbn [trialLoop].
  - apply preserves_ret.
  - repeat first [apply preserves_trialStep | apply IH | preserves_step].
Qed.

Lemma preserves_generateSequence cond nTrials isTutorial tutorialPhase :
  preserves P (generateSequence (N:=N) cond nTrials isTutorial tutorialPhase).
Proof.
  unfold generateSequence. repeat first [apply preserves_trialLoop | preserves_step].
Qed.

End Stream.

Section Seed.

Context {N : Type} {num : Number N}.

Lemma seed_irrelevant_ret {A} (a : A) : seed_irrelevant (ret a).
Proof. intros s rng. reflexivity. Qed.

Lemma seed_irrelevant_bind {A B} (m : Rand A) (k : A -> Rand B) :
  seed_irrelevant m -> (forall a, seed_irrelevant (k a)) ->
  seed_irrelevant (bind m k).
Proof.
  intros Hm Hk s rng. unfold bind. rewrite Hm.
  destruct (m rng) as [a rng']. cbn [fst snd]. rewrite Hk.
  destruct (k a rng'). reflexivity.
Qed.

Lemma seed_irrelevant_random : seed_irrelevant (random (N:=N)).
Proof. intros s rng. reflexivity. Qed.

Ltac seed_step :=
  first
    [ apply seed_irrelevant_ret
    | apply seed_irrelevant_random
    | apply seed_irrelevant_bind; [| intro]
    | match goal with
      | |- seed_irrelevant (if ?c then _ else _) => destruct c
      | |- seed_irrelevant (let '(_, _) := ?x in _) => destruct x
      end
    | assumption ].

Lemma seed_irrelevant_sampleTriangular c h :
  seed_irrelevant (sampleTriangular (N:=N) c h).
Proof. unfold sampleTriangular. repeat seed_step. Qed.

Lemma seed_irrelevant_sampleBimodalTransition s :
  seed_irrelevant (sampleBimodalTransition (N:=N) s).
Proof.
  unfold sampleBimodalTransition.
  repeat first [apply seed_irrelevant_sampleTriangular | seed_step].
Qed.

Lemma seed_irrelevant_explorationMove s :
  seed_irrelevant (explorationMove (N:=N) s).
Proof.
  unfold explorationMove.
  repeat first [apply seed_irrelevant_sampleTriangular | seed_step].
Qed.

Lemma seed_irrelevant_changeState isTutorial t s :
  seed_irrelevant (changeState (N:=N) isTutorial t s).
Proof.
  unfold changeState.
  repeat first [apply seed_irrelevant_explorationMove
               | apply seed_irrelevant_sampleBimodalTransition | seed_step].
Qed.

Lemma seed_irrelevant_stateUpdate cond isTutorial t s tau :
  seed_irrelevant (stateUpdate (N:=N) cond isTutorial t s tau).
Proof.
  unfold stateUpdate.
  repeat first [apply seed_irrelevant_changeState | seed_step].
Qed.

Lemma seed_irrelevant_trialStep cond isTutorial tutorialPhase t s tau :
  seed_irrelevant (trialStep (N:=N) cond isTutorial tutorialPhase t s tau).
Proof.
  unfold trialStep.
  repeat first [apply seed_irrelevant_stateUpdate
               | apply seed_irrelevant_sampleTriangular | seed_step].
Qed.

Lemma seed_irrelevant_trialLoop cond isTutorial tutorialPhase fuel :
  forall t s tau,
    seed_irrelevant (trialLoop (N:=N) cond isTutorial tutorialPhase fuel t s tau).
Proof.
  induction fuel as [| fuel IH]; intros t s tau; cbn [trialLoop].
  - apply seed_irrelevant_ret.
  - repeat first [apply seed_irrelevant_trialStep | apply IH | seed_step].
Qed.

Lemma seed_irrelevant_generateSequence cond nTrials isTutorial tutorialPhase :
  seed_irrelevant (generateSequence (N:=N) cond nTrials isTutorial tutorialPhase).
Proof.
  unfold generateSequence.
  repeat first [apply seed_irrelevant_trialLoop | seed_step].
Qed.

Lemma seed_irrelevant_tutorialLoop cond fuel : forall phase,
  seed_irrelevant (tutorialLoop (N:=N) cond fuel phase).
Proof.
  induction fuel as [| fuel IH]; intros phase; cbn [tutorialLoop].
  - apply seed_irrelevant_ret.
  - repeat first [apply seed_irrelevant_generateSequence | apply IH | seed_step].
Qed.

Lemma seed_irrelevant_generateAll mainTrials :
  seed_irrelevant (generateAll (N:=N) mainTrials).
Proof.
  unfold generateAll, generateTutorialSequences, generateMainSequence.
  repeat first [apply seed_irrelevant_generateSequence
               | apply seed_irrelevant_tutorialLoop | seed_step].
Qed.

End Seed.

(** ** The loop of [generateSequence], for every instance of the numbers *)

Section Loop.

Context {N : Type} {num : Number N}.
Local Open Scope Z_scope.

Variables (cond : Condition) (isTutorial : bool) (tutorialPhase : option Z).

Lemma stateUpdate_tau t s tau rng :
  let '(changed, _, tau') := fst (stateUpdate cond isTutorial t s tau rng) in
  tau' = if changed then 0 else tau + 1.
Proof.
  unfold stateUpdate, bind, ret. cbn.
  destruct (_ <? _)%num; cbn; [| reflexivity].
  destruct (changeState _ _ _ _); reflexivity.
Qed.

(** What a turn of the loop writes in the trial. *)
Lemma trialStep_fields t s tau rng :
  let '(tr, (s', tau')) := fst (trialStep cond isTutorial tutorialPhase t s tau rng) in
  trial_idx tr = t /\ condition tr = cond /\ tau_true tr = tau' /\
  s_t tr = s' /\ hazard_rate tr = hazardOf cond tau /\
  is_tutorial tr = isTutorial /\ tutorial_phase tr = tutorialPhase /\
  likelihood_width tr = likelihoodWidthOf isTutorial tutorialPhase /\
  tau' = if change_flag tr then 0 else tau + 1.
Proof.
  unfold trialStep, bind.
  pose proof (stateUpdate_tau t s tau rng) as H.
  destruct (stateUpdate _ _ _ _ _ _) as [[[changed s'] tau'] rng1].
  cbn in H. destruct (sampleTriangular _ _ _) as [obs rng2]. cbn.
  repeat split; assumption.
Qed.

Lemma trialLoop_tau_chain fuel : forall t s tau rng,
  tau_chain tau (fst (trialLoop cond isTutorial tutorialPhase fuel t s tau rng)).
Proof.
  induction fuel as [| fuel IH]; intros t s tau rng; cbn; [exact I |].
  unfold bind.
  pose proof (trialStep_fields t s tau rng) as H.
  destruct (trialStep _ _ _ _ _ _ _) as [[tr [s' tau']] rng1]. cbn in H.
  specialize (IH (t + 1) s' tau' rng1).
  destruct (trialLoop _ _ _ _ _ _ _ _) as [rest rng2]. cbn in *.
  destruct H as (_ & _ & Htau & _ & _ & _ & _ & _ & Hnext).
  rewrite Htau. split; assumption.
Qed.

Lemma trialLoop_length fuel : forall t s tau rng,
  length (fst (trialLoop cond isTutorial tutorialPhase fuel t s tau rng)) = fuel.
Proof.
  induction fuel as [| fuel IH]; intros t s tau rng; cbn; [reflexivity |].
  unfold bind.
  destruct (trialStep _ _ _ _ _ _ _) as [[tr [s' tau']] rng1].
  specialize (IH (t + 1) s' tau' rng1).
  destruct (trialLoop _ _ _ _ _ _ _ _) as [rest rng2]. cbn in *.
  now rewrite IH.
Qed.

Lemma tau_chain_nonneg (trials : list (Trial N)) : forall prev,
  0 <= prev -> tau_chain prev trials ->
  Forall (fun tr => 0 <= tau_true tr) trials.
Proof.
  induction trials as [| tr rest IH]; intros prev Hp Hc; constructor.
  - destruct Hc as [H _]. destruct (change_flag tr); lia.
  - destruct Hc as [H Hc]. apply (IH (tau_true tr)); [| exact Hc].
    destruct (change_flag tr); lia.
Qed.

Lemma tau_chain_reset (trials : list (Trial N)) : forall prev,
  0 <= prev -> tau_chain prev trials ->
  Forall (fun tr => tau_true tr = 0 <-> change_flag tr = true) trials.
Proof.
  induction trials as [| tr rest IH]; intros prev Hp Hc; constructor.
  - destruct Hc as [H _]. destruct (change_flag tr); split; intro; lia || congruence.
  - destruct Hc as [H Hc]. apply (IH (tau_true tr)); [| exact Hc].
    destruct (change_flag tr); lia.
Qed.

Lemma tau_chain_succ (trials : list (Trial N)) : forall prev i before tr,
  tau_chain prev trials ->
  nth_error trials i = Some before -> nth_error trials (S i) = Some tr ->
  tau_true tr = if change_flag tr then 0 else tau_true before + 1.
Proof.
  induction trials as [| x rest IH]; intros prev i before tr Hc Hi Hs.
  - destruct i; discriminate.
  - destruct Hc as [_ Hc]. destruct i as [| i]; cbn in Hi, Hs.
    + injection Hi as ->. destruct rest as [| y rest']; [discriminate |].
      injection Hs as ->. exact (proj1 Hc).
    + exact (IH _ _ _ _ Hc Hi Hs).
Qed.

End Loop.

(** ** C1: the counter of trials since the last change *)

Section Tau.

Context {N : Type} {num : Number N}.
Local Open Scope Z_scope.

(** The loop of a sequence starts from the counter 0. *)
Lemma generateSequence_tau_chain cond nTrials isTutorial tutorialPhase rng :
  tau_chain 0
    (fst (generateSequence (N:=N) cond nTrials isTutorial tutorialPhase rng)).
Proof.
  unfold generateSequence, bind. cbn. apply trialLoop_tau_chain.
Qed.

End Tau.

(** C1, as the code has it.  In every sequence that [generateSequence]
    produces, for every instance of the numbers: the emitted [tau_true] is 0
    exactly on the trials whose [change_flag] is set; on a trial without a
    change it is the [tau_true] of the trial before plus 1; and the first
    trial has [tau_true = 0] when it is a change and [tau_true = 1] when it
    is not, because the counter starts at 0 before the first trial and the
    value after the update is emitted. *)
Theorem tau_resets_on_change_and_counts :
  forall (N : Type) (num : Number N) (cond : Condition) (nTrials : Z)
         (isTutorial : bool) (tutorialPhase : option Z) (rng : SeededRandom),
    let trials :=
      fst (generateSequence (N:=N) cond nTrials isTutorial tutorialPhase rng) in
    (forall i tr, nth_error trials i = Some tr ->
                  (tau_true tr = 0%Z <-> change_flag tr = true))
    /\ (forall i before tr,
          nth_error trials i = Some before ->
          nth_error trials (S i) = Some tr ->
          change_flag tr = false ->
          tau_true tr = (tau_true before + 1)%Z)
    /\ (forall first, nth_error trials 0 = Some first ->
          tau_true first = if change_flag first then 0%Z else 1%Z).
Proof.
  intros N num cond nTrials isTutorial tutorialPhase rng trials.
  pose proof (generateSequence_tau_chain cond nTrials isTutorial tutorialPhase rng)
    as Hchain.
  fold trials in Hchain. clearbody trials.
  split; [| split].
  - intros i tr Hi.
    pose proof (tau_chain_reset trials (prev:=0%Z) ltac:(lia) Hchain) as Hall.
    rewrite Forall_forall in Hall. apply Hall. eapply nth_error_In; eassumption.
  - intros i before tr Hi Hs Hflag.
    pose proof Hchain as H. eapply tau_chain_succ in H; [| exact Hi | exact Hs].
    rewrite H, Hflag. reflexivity.
  - intros first H0. destruct trials as [| x rest]; [discriminate |].
    injection H0 as ->. exact (proj1 Hchain).
Qed.

(** C1 on the first tutorial sequence of the session: its second trial is
    not a change, and counts one more than its first. *)
Lemma tau_resets_on_change_and_counts_phase_1 :
  let trials :=
    fst (generateSequence (N:=float) HI 10 true (Some 1%Z)
           (SeededRandom_new 12345)) in
  match nth_error trials 0, nth_error trials 1 with
  | Some before, Some tr =>
      change_flag tr = false /\ tau_true tr = (tau_true before + 1)%Z
  | _, _ => False
  end.
Proof.
  intros trials.
  destruct (nth_error trials 0) as [before |] eqn:E0;
    [| subst trials; vm_compute in E0; discriminate].
  destruct (nth_error trials 1) as [tr |] eqn:E1;
    [| subst trials; vm_compute in E1; discriminate].
  assert (Hflag : change_flag tr = false).
  { subst trials. vm_compute in E1. injection E1 as <-. reflexivity. }
  split; [exact Hflag |].
  exact (proj1 (proj2 (@tau_resets_on_change_and_counts float _ HI 10 true
                         (Some 1%Z) (SeededRandom_new 12345)))
           0%nat before tr E0 E1 Hflag).
Defined.

(** C1, the counterexample.  In the scenario of the specification (seed
    12345, five main trials) the first trial of the HI main sequence is not a
    change, and its [tau_true] is 1, not 0. *)
Example first_trial_tau_is_one :
  option_map (fun tr => (trial_idx tr, change_flag tr, tau_true tr))
    (hd_error (main (sequences_of
                 (fst (generateAllSequences (N:=float) (StimulusGenerator_new 5)))
                 HI)))
  = Some (0%Z, false, 1%Z).
Proof. vm_compute. reflexivity. Qed.

(** ** C4: the random stream *)

Local Open Scope Z_scope.

Lemma next_state_mod c :
  0 <= c -> next_state c = (c * 1664525 + 1013904223) mod 2 ^ 32.
Proof.
  intros Hc. unfold next_state, LCG_A, LCG_C, LCG_M.
  rewrite Z.rem_mod_nonneg by lia. reflexivity.
Qed.

Lemma next_state_range c : 0 <= c -> 0 <= next_state c < LCG_M.
Proof.
  intros Hc. rewrite next_state_mod by assumption.
  unfold LCG_M. change (2 ^ 32) with 4294967296. apply Z.mod_pos_bound. lia.
Qed.

Lemma reachable_seed s rng : reachable s rng -> seed rng = s.
Proof. induction 1; cbn; auto. Qed.

Lemma reachable_range s rng :
  0 <= s < LCG_M -> reachable s rng -> 0 <= current rng < LCG_M.
Proof.
  intros Hs Hr. induction Hr as [| rng Hr IH]; cbn; [exact Hs |].
  apply next_state_range. lia.
Qed.

Lemma reachable_stream s rng :
  reachable s rng <-> exists n, rng = {| seed := s; current := stream s n |}.
Proof.
  split.
  - induction 1 as [| rng Hr [n ->]].
    + exists 0%nat. reflexivity.
    + exists (S n). reflexivity.
  - intros [n ->]. induction n as [| n IH].
    + apply reachable_new.
    + apply (reachable_random IH).
Qed.

Lemma draws_stream {N} {num : Number N} n : forall s k,
  draws (N:=N) n {| seed := s; current := stream s k |}
  = (map (fun i => (of_Z (stream s (S i)) / of_Z LCG_M)%num) (seq k n),
     {| seed := s; current := stream s (k + n) |}).
Proof.
  induction n as [| n IH]; intros s k; cbn [draws seq map].
  - unfold ret. now rewrite Nat.add_0_r.
  - unfold bind. cbn [random advance current seed].
    change (advance {| seed := s; current := stream s k |})
      with {| seed := s; current := stream s (S k) |}.
    rewrite IH. unfold ret. now rewrite Nat.add_succ_r.
Qed.

Lemma unit_interval (c : Z) :
  0 <= c < LCG_M -> (0 <= IZR c / IZR LCG_M < 1)%R.
Proof.
  intros [H0 H1]. apply IZR_le in H0. apply IZR_lt in H1.
  unfold LCG_M in *. lra.
Qed.

(** C4.  From a seed in [[0, 2^32)] (the generator's is 12345), at every
    reachable state of the stream: the state is an integer of [[0, 2^32)] and
    [state * 1664525 + 1013904223] stays below [2^53], so that the
    arithmetic of the source is exact; a call of [random()] replaces the
    state by [(state * 1664525 + 1013904223) mod 2^32] and returns the new
    state divided by [2^32], a value of [[0, 1)].  The stream is a function
    of the seed and the number of calls: [n] calls from the seed return the
    states [stream seed 1 .. stream seed n], each divided by [2^32]. *)
Theorem random_is_the_lcg_recurrence :
  forall s : Z, 0 <= s < 2 ^ 32 ->
    (forall rng, reachable s rng ->
       0 <= current rng < 2 ^ 32
       /\ 0 <= current rng * 1664525 + 1013904223 < 2 ^ 53
       /\ snd (random (N:=R) rng)
          = {| seed := s;
               current := (current rng * 1664525 + 1013904223) mod 2 ^ 32 |}
       /\ fst (random (N:=R) rng)
          = (IZR (current (snd (random (N:=R) rng))) / IZR (2 ^ 32))%R
       /\ (0 <= fst (random (N:=R) rng) < 1)%R)
    /\ (forall (N : Type) (num : Number N) (n : nat),
          draws (N:=N) n (SeededRandom_new s)
          = (map (fun i => (of_Z (stream s (S i)) / of_Z (2 ^ 32))%num) (seq 0 n),
             {| seed := s; current := stream s n |})).
Proof.
  intros s Hs. split.
  - intros rng Hr.
    pose proof (reachable_range Hs Hr) as Hc. unfold LCG_M in Hc.
    change (2 ^ 32) with 4294967296 in *. change (2 ^ 53) with 9007199254740992.
    split; [exact Hc |]. split; [lia |]. cbn [random fst snd advance current seed].
    unfold advance. rewrite (reachable_seed Hr).
    split; [now rewrite next_state_mod by lia |]. split; [reflexivity |].
    apply unit_interval. apply next_state_range. lia.
  - intros N num n. exact (draws_stream n s 0).
Qed.

(** C4 at the seed of the generator: the first call of [random()] leaves the
    state 87628868 and returns [87628868 / 2^32]. *)
Lemma random_is_the_lcg_recurrence_12345 :
  0 <= 12345 < 2 ^ 32
  /\ current (snd (random (N:=R) (SeededRandom_new 12345))) = 87628868
  /\ fst (random (N:=R) (SeededRandom_new 12345)) = (87628868 / 4294967296)%R
  /\ (0 <= fst (random (N:=R) (SeededRandom_new 12345)) < 1)%R.
Proof.
  assert (Hs : 0 <= 12345 < 2 ^ 32) by (split; [lia | reflexivity]).
  destruct (random_is_the_lcg_recurrence Hs) as [Hcall _].
  destruct (Hcall _ (reachable_new 12345)) as (_ & _ & Hstate & Hvalue & Hrange).
  split; [exact Hs |]. split; [rewrite Hstate; reflexivity |].
  split; [rewrite Hvalue, Hstate; reflexivity | exact Hrange].
Defined.

(** C4, the counterexample.  The seed is not checked, and [%] keeps the
    sign of the sum: from the seed -1000 the first call of [random()] leaves
    the state -650620777, which is not
    [(-1000 * 1664525 + 1013904223) mod 2^32 = 3644346519], and returns
    [-650620777 / 2^32], about -0.1515, a value below 0.  (The sum is below
    [2^53]: the source computes these very numbers.) *)
Example negative_seed_leaves_the_recurrence :
  current (snd (random (N:=float) (SeededRandom_new (-1000)))) = -650620777
  /\ (-1000 * 1664525 + 1013904223) mod 2 ^ 32 = 3644346519
  /\ Z.abs (-1000 * 1664525 + 1013904223) < 2 ^ 53
  /\ fst (random (N:=float) (SeededRandom_new (-1000)))
     = (-650620777 / 4294967296)%float
  /\ (fst (random (N:=float) (SeededRandom_new (-1000))) <? 0)%float = true
  /\ (0 <=? fst (random (N:=float) (SeededRandom_new (-1000))))%float = false.
Proof.
  split; [reflexivity |]. split; [reflexivity |]. split; [reflexivity |].
  split; [vm_compute; reflexivity |].
  split; vm_compute; reflexivity.
Qed.

(** ** C3: determinism *)

(** C3.  Two runs of [generateAllSequences] whose streams are in the same
    state and whose trial counts are equal return the same sequences,
    whatever else the two generators hold: for every condition, the trials of
    the tutorial phases and of the main block carry the same
    [(s_t, x_t, change_flag, tau_true)]. *)
Theorem generation_is_deterministic :
  forall (N : Type) (num : Number N) (g1 g2 : StimulusGenerator),
    current (rng g1) = current (rng g2) ->
    MAIN_TRIALS g1 = MAIN_TRIALS g2 ->
    fst (generateAllSequences (N:=N) g1) = fst (generateAllSequences (N:=N) g2)
    /\ forall c : Condition,
         map (map tuple)
             (tutorials (sequences_of (fst (generateAllSequences (N:=N) g1)) c))
         = map (map tuple)
               (tutorials (sequences_of (fst (generateAllSequences (N:=N) g2)) c))
         /\ map tuple (main (sequences_of (fst (generateAllSequences (N:=N) g1)) c))
            = map tuple
                (main (sequences_of (fst (generateAllSequences (N:=N) g2)) c)).
Proof.
  intros N num g1 g2 Hcur Hmain.
  assert (H : fst (generateAllSequences (N:=N) g1)
              = fst (generateAllSequences (N:=N) g2)).
  { unfold generateAllSequences. rewrite Hmain.
    replace (rng g1) with (reseed (seed (rng g1)) (rng g2)).
    - rewrite seed_irrelevant_generateAll.
      destruct (generateAll (MAIN_TRIALS g2) (rng g2)). reflexivity.
    - unfold reseed. rewrite <- Hcur. now destruct (rng g1). }
  split; [exact H |]. intros c. now rewrite H.
Qed.

(** C3 on a fresh generator and on one that differs from it in the field
    [seed] of its stream, which is never read. *)
Lemma generation_is_deterministic_fresh :
  current (rng (StimulusGenerator_new 5)) = 12345
  /\ fst (generateAllSequences (N:=float) (StimulusGenerator_new 5))
     = fst (generateAllSequences (N:=float)
              {| MAIN_TRIALS := 5; rngSeed := 12345;
                 rng := {| seed := 0; current := 12345 |} |}).
Proof.
  split; [reflexivity |].
  apply (@generation_is_deterministic float _ (StimulusGenerator_new 5)
           {| MAIN_TRIALS := 5; rngSeed := 12345;
              rng := {| seed := 0; current := 12345 |} |});
    reflexivity.
Defined.

(** ** C7 and C8: the calls of [generateSequence] and the trial counts *)

Section Calls.

Context {N : Type} {num : Number N}.

Lemma generateSequence_length cond nTrials isTutorial tutorialPhase rng :
  length (fst (generateSequence (N:=N) cond nTrials isTutorial tutorialPhase rng))
  = Z.to_nat nTrials.
Proof. unfold generateSequence, bind. cbn. apply trialLoop_length. Qed.

(** Without a turn of the loop, a call draws the initial state and returns. *)
Lemma generateSequence_no_turn cond nTrials isTutorial tutorialPhase rng :
  Z.to_nat nTrials = 0%nat ->
  generateSequence (N:=N) cond nTrials isTutorial tutorialPhase rng
  = ([], advance rng).
Proof. intros H. unfold generateSequence, bind. cbn. rewrite H. reflexivity. Qed.

(** The five turns of the loop of [generateTutorialSequences]. *)
Lemma generateTutorialSequences_phases cond rng :
  generateTutorialSequences (N:=N) cond rng
  = (t1 <- generateSequence cond 10 true (Some 1%Z) ;;
     t2 <- generateSequence cond 10 true (Some 2%Z) ;;
     t3 <- generateSequence cond 15 true (Some 3%Z) ;;
     t4 <- generateSequence cond 15 true (Some 4%Z) ;;
     t5 <- generateSequence cond 20 true (Some 5%Z) ;;
     ret [t1; t2; t3; t4; t5]) rng.
Proof.
  unfold generateTutorialSequences. cbn -[generateSequence].
  change (Pos.to_nat 1) with 1%nat. change (Pos.to_nat 2) with 2%nat.
  change (Pos.to_nat 3) with 3%nat. change (Pos.to_nat 4) with 4%nat.
  cbn -[generateSequence]. unfold bind, ret.
  repeat match goal with
         | |- context [generateSequence ?c ?n ?t ?p ?r] =>
             destruct (generateSequence c n t p r) as [? ?]
         end.
  reflexivity.
Qed.

(** Name the result of the next call of [generateSequence], or recall it. *)
Ltac run_call :=
  match goal with
  | E : generateSequence ?c ?n ?t ?p ?r = _
    |- context [generateSequence ?c ?n ?t ?p ?r] => rewrite E
  | |- context [generateSequence ?c ?n ?t ?p ?r] =>
      let E := fresh "E" in
      destruct (generateSequence c n t p r) as [? ?] eqn:E
  end.

(** The twelve calls of [generateAllSequences], each from the stream the
    call before left. *)
Lemma generateAllSequences_calls (g : StimulusGenerator) :
  let '(hi1, r1) := generateSequence (N:=N) HI 10 true (Some 1%Z) (rng g) in
  let '(hi2, r2) := generateSequence (N:=N) HI 10 true (Some 2%Z) r1 in
  let '(hi3, r3) := generateSequence (N:=N) HI 15 true (Some 3%Z) r2 in
  let '(hi4, r4) := generateSequence (N:=N) HI 15 true (Some 4%Z) r3 in
  let '(hi5, r5) := generateSequence (N:=N) HI 20 true (Some 5%Z) r4 in
  let '(hiM, r6) := generateSequence (N:=N) HI (MAIN_TRIALS g) false None r5 in
  let '(hd1, r7) := generateSequence (N:=N) HD 10 true (Some 1%Z) r6 in
  let '(hd2, r8) := generateSequence (N:=N) HD 10 true (Some 2%Z) r7 in
  let '(hd3, r9) := generateSequence (N:=N) HD 15 true (Some 3%Z) r8 in
  let '(hd4, r10) := generateSequence (N:=N) HD 15 true (Some 4%Z) r9 in
  let '(hd5, r11) := generateSequence (N:=N) HD 20 true (Some 5%Z) r10 in
  let '(hdM, r12) := generateSequence (N:=N) HD (MAIN_TRIALS g) false None r11 in
  generateAllSequences g
  = ({| sequences_HI := {| tutorials := [hi1; hi2; hi3; hi4; hi5];
                           main := hiM |};
        sequences_HD := {| tutorials := [hd1; hd2; hd3; hd4; hd5];
                           main := hdM |} |},
     {| MAIN_TRIALS := MAIN_TRIALS g; rngSeed := rngSeed g; rng := r12 |}).
Proof.
  unfold generateAllSequences, generateAll, generateMainSequence.
  unfold bind at 1. rewrite generateTutorialSequences_phases.
  unfold bind, ret. repeat run_call.
  rewrite generateTutorialSequences_phases. unfold bind, ret.
  repeat run_call. reflexivity.
Qed.

End Calls.

(** C7, as the code has it.  [generateAllSequences] makes twelve calls of
    [generateSequence] on the one stream of the generator, each from the
    state the call before left: the HI tutorials of phases 1 to 5 (10, 10,
    15, 15 and 20 trials, [isTutorial = true]), the HI main sequence
    ([MAIN_TRIALS] trials, [isTutorial = false], no phase), then the same for
    HD.  The object returned holds these twelve sequences, and with 5 main
    trials the HI main sequence has length 5. *)
Theorem generateAllSequences_call_order :
  forall (N : Type) (num : Number N) (g : StimulusGenerator),
    (let n := MAIN_TRIALS g in
     let '(hi1, r1) := generateSequence (N:=N) HI 10 true (Some 1) (rng g) in
     let '(hi2, r2) := generateSequence (N:=N) HI 10 true (Some 2) r1 in
     let '(hi3, r3) := generateSequence (N:=N) HI 15 true (Some 3) r2 in
     let '(hi4, r4) := generateSequence (N:=N) HI 15 true (Some 4) r3 in
     let '(hi5, r5) := generateSequence (N:=N) HI 20 true (Some 5) r4 in
     let '(hiM, r6) := generateSequence (N:=N) HI n false None r5 in
     let '(hd1, r7) := generateSequence (N:=N) HD 10 true (Some 1) r6 in
     let '(hd2, r8) := generateSequence (N:=N) HD 10 true (Some 2) r7 in
     let '(hd3, r9) := generateSequence (N:=N) HD 15 true (Some 3) r8 in
     let '(hd4, r10) := generateSequence (N:=N) HD 15 true (Some 4) r9 in
     let '(hd5, r11) := generateSequence (N:=N) HD 20 true (Some 5) r10 in
     let '(hdM, r12) := generateSequence (N:=N) HD n false None r11 in
     generateAllSequences g
     = ({| sequences_HI := {| tutorials := [hi1; hi2; hi3; hi4; hi5];
                              main := hiM |};
           sequences_HD := {| tutorials := [hd1; hd2; hd3; hd4; hd5];
                              main := hdM |} |},
        {| MAIN_TRIALS := n; rngSeed := rngSeed g; rng := r12 |})
     /\ map (@length _) [hi1; hi2; hi3; hi4; hi5] = [10; 10; 15; 15; 20]%nat
     /\ length hiM = Z.to_nat n
     /\ map (@length _) [hd1; hd2; hd3; hd4; hd5] = [10; 10; 15; 15; 20]%nat
     /\ length hdM = Z.to_nat n)
    /\ sequenceCount (fst (generateAllSequences (N:=N) g)) = 12%nat
    /\ length (main (sequences_of
                 (fst (generateAllSequences (N:=N) (StimulusGenerator_new 5)))
                 HI)) = 5%nat.
Proof.
  intros N num g.
  assert (Hlen : forall c n t p r l r',
             generateSequence (N:=N) c n t p r = (l, r') -> length l = Z.to_nat n).
  { intros c n t p r l r' E.
    pose proof (generateSequence_length c n t p r) as H. now rewrite E in H. }
  pose proof (generateAllSequences_calls (N:=N)) as Hall.
  split; [| split].
  - specialize (Hall g). cbv zeta.
    repeat match goal with
           | |- context [generateSequence ?c ?n ?t ?p ?r] =>
               let E := fresh "E" in
               destruct (generateSequence c n t p r) as [? ?] eqn:E;
               apply Hlen in E
           end.
    split; [exact Hall |]. cbn [map].
    repeat match goal with H : length _ = _ |- _ => rewrite H; clear H end.
    repeat split; reflexivity.
  - specialize (Hall g).
    repeat match goal with
           | H : context [generateSequence ?c ?n ?t ?p ?r] |- _ =>
               destruct (generateSequence c n t p r) as [? ?]
           end.
    rewrite Hall. reflexivity.
  - specialize (Hall (StimulusGenerator_new 5)).
    repeat match goal with
           | H : context [generateSequence ?c ?n ?t ?p ?r] |- _ =>
               let E := fresh "E" in
               destruct (generateSequence c n t p r) as [? ?] eqn:E;
               apply Hlen in E
           end.
    rewrite Hall. cbn [fst sequences_of sequences_HI main]. assumption.
Qed.

(** C7, the counterexample: the calls are twelve, not eight. *)
Example generateAllSequences_makes_twelve_calls :
  sequenceCount (fst (generateAllSequences (N:=float) (StimulusGenerator_new 5)))
  = 12%nat
  /\ 12%nat <> 8%nat.
Proof. split; [vm_compute; reflexivity | discriminate]. Qed.

(** C8, as the code has it.  Trial counts are not validated.  A call of
    [generateSequence] with [nTrials = 0] draws the initial state and
    returns the empty sequence; so does a call with a negative [nTrials],
    whose loop has no turn either; every call returns normally, with
    [nTrials] trials when [nTrials] is not negative.  The constructor stores
    the trial count it is given, whatever it is. *)
Theorem trial_counts_are_not_validated :
  forall (N : Type) (num : Number N) (cond : Condition) (isTutorial : bool)
         (tutorialPhase : option Z) (rng : SeededRandom),
    generateSequence (N:=N) cond 0 isTutorial tutorialPhase rng
    = ([], advance rng)
    /\ (forall p : positive,
          generateSequence (N:=N) cond (Z.neg p) isTutorial tutorialPhase rng
          = ([], advance rng))
    /\ (forall nTrials : Z,
          length (fst (generateSequence (N:=N) cond nTrials isTutorial
                         tutorialPhase rng))
          = Z.to_nat nTrials)
    /\ (forall trialCount : Z,
          MAIN_TRIALS (StimulusGenerator_new trialCount) = trialCount).
Proof.
  intros N num cond isTutorial tutorialPhase rng.
  split; [| split; [| split]].
  - now apply generateSequence_no_turn.
  - intros p. now apply generateSequence_no_turn.
  - intros nTrials. apply generateSequence_length.
  - reflexivity.
Qed.

(** C8, the counterexample.  The trial count -3 is stored by the constructor
    and accepted by [generateSequence], which returns the empty sequence;
    the main sequences of the session are empty. *)
Example negative_trial_count_is_accepted :
  MAIN_TRIALS (StimulusGenerator_new (-3)) = (-3)%Z
  /\ generateSequence (N:=float) HI (-3) false None (SeededRandom_new 12345)
     = ([], {| seed := 12345; current := 87628868 |})
  /\ main (sequences_of
             (fst (generateAllSequences (N:=float) (StimulusGenerator_new (-3))))
             HI) = [].
Proof. repeat split; vm_compute; reflexivity. Qed.

(** ** C9: the exploration override *)

Section Override.

Context {N : Type} {num : Number N}.
Variables (cond : Condition) (isTutorial : bool) (tutorialPhase : option Z).

Lemma explorationDue_spec t :
  explorationDue isTutorial t = true
  <-> isTutorial = true \/ (0 < t /\ t mod 50 = 0).
Proof.
  unfold explorationDue. rewrite orb_true_iff, andb_true_iff.
  rewrite Z.ltb_lt, Z.eqb_eq. split; intros [H | [H1 H2]]; auto; right.
  - split; [assumption |]. now rewrite <- Z.rem_mod_nonneg by lia.
  - split; [assumption |]. now rewrite Z.rem_mod_nonneg by lia.
Qed.

(** The trial at index [i] of the loop is emitted by a turn at [t + i]. *)
Lemma trialLoop_nth fuel : forall t s tau rng i tr,
  nth_error (fst (trialLoop (N:=N) cond isTutorial tutorialPhase fuel t s tau rng)) i
  = Some tr ->
  exists s' tau' rng',
    tr = fst (fst (trialStep cond isTutorial tutorialPhase (t + Z.of_nat i)
                     s' tau' rng')).
Proof.
  induction fuel as [| fuel IH]; intros t s tau rng i tr; cbn [trialLoop].
  - destruct i; discriminate.
  - unfold bind.
    destruct (trialStep _ _ _ _ _ _ _) as [[tr0 [s1 tau1]] rng1] eqn:E.
    specialize (IH (t + 1) s1 tau1 rng1).
    destruct (trialLoop _ _ _ _ _ _ _ _) as [rest rng2]. cbn [ret fst] in *.
    destruct i as [| i]; cbn [nth_error].
    + intros [= <-]. exists s, tau, rng. rewrite Z.add_0_r, E. reflexivity.
    + intros H. destruct (IH i tr H) as (s' & tau' & rng' & ->).
      exists s', tau', rng'.
      now replace (t + Z.of_nat (S i)) with (t + 1 + Z.of_nat i) by lia.
Qed.

End Override.

Ltac destruct_sample :=
  match goal with
  | |- context [sampleTriangular ?c ?w ?r] => destruct (sampleTriangular c w r)
  end.

Ltac destruct_call :=
  match goal with
  | |- context [explorationMove ?s ?r] => destruct (explorationMove s r)
  | |- context [sampleBimodalTransition ?s ?r] =>
      destruct (sampleBimodalTransition s r)
  | _ => destruct_sample
  end.

(** C9.  On the turn of the loop for trial [t], with [h] the draw against the
    hazard and [e] the draw after it: the trial is a change exactly when
    [h < hazard]; without a change the state is kept; the exploration move
    gives the new state exactly when the trial is a change, the condition
    [isTutorial || (t > 0 && t % 50 === 0)] holds and [e < 0.3]; on every
    other change the new state is that of [sampleBimodalTransition], from the
    stream after [e] when the condition holds and after [h] when it does
    not.
    Every trial of a sequence is emitted by such a turn, at its index. *)
Theorem exploration_override_only_when_due :
  forall (N : Type) (num : Number N) (cond : Condition) (isTutorial : bool)
         (tutorialPhase : option Z),
    (forall (t : Z) (s : N) (tau : Z) (rng : SeededRandom),
       let h := fst (random (N:=N) rng) in
       let r1 := advance rng in
       let e := fst (random (N:=N) r1) in
       let r2 := advance r1 in
       let changed := (h <? hazardOf cond tau)%num in
       let due := explorationDue isTutorial t in
       let override := changed && due && (e <? lit (3 # 10))%num in
       let tr := fst (fst (trialStep cond isTutorial tutorialPhase t s tau rng)) in
       change_flag tr = changed
       /\ s_t tr
          = (if changed
             then if override
                  then fst (explorationMove s r2)
                  else fst (sampleBimodalTransition s (if due then r2 else r1))
             else s)
       /\ (due = true <-> isTutorial = true \/ (0 < t /\ t mod 50 = 0)))
    /\ (forall (nTrials : Z) (rng : SeededRandom) (i : nat) (tr : Trial N),
          nth_error
            (fst (generateSequence cond nTrials isTutorial tutorialPhase rng)) i
          = Some tr ->
          exists s tau rng',
            tr = fst (fst (trialStep cond isTutorial tutorialPhase (Z.of_nat i)
                             s tau rng'))).
Proof.
  intros N num cond isTutorial tutorialPhase. split.
  - intros t s tau rng h r1 e r2 changed due override tr.
    split; [| split]; [| | apply explorationDue_spec];
      subst tr override changed due e r2 h r1;
      unfold trialStep, stateUpdate, changeState, bind;
      cbn [random fst snd];
      destruct (ltb _ (hazardOf cond tau)); cbn [ret andb];
      try (now destruct_sample);
      destruct (explorationDue isTutorial t); cbn [random fst snd andb];
      try destruct (ltb _ (lit (3 # 10)));
      repeat destruct_call; reflexivity.
  - intros nTrials rng i tr H. unfold generateSequence, bind in H.
    cbn [random fst snd] in H. apply trialLoop_nth in H.
    rewrite Z.add_0_l in H. exact H.
Qed.

(** C9 on the first tutorial sequence of the session: its fifth trial is
    emitted by a turn of the loop at [t = 4]. *)
Lemma exploration_override_only_when_due_phase_1 :
  let trials :=
    fst (generateSequence (N:=float) HI 10 true (Some 1%Z)
           (SeededRandom_new 12345)) in
  match nth_error trials 4 with
  | Some tr =>
      change_flag tr = true
      /\ exists s tau rng',
           tr = fst (fst (trialStep HI true (Some 1%Z) 4 s tau rng'))
  | None => False
  end.
Proof.
  intros trials.
  destruct (nth_error trials 4) as [tr |] eqn:E;
    [| subst trials; vm_compute in E; discriminate].
  split.
  - subst trials. vm_compute in E. injection E as <-. reflexivity.
  - exact (proj2 (@exploration_override_only_when_due float _ HI true (Some 1%Z))
             10%Z (SeededRandom_new 12345) 4%nat tr E).
Defined.

(** ** C2: states and observations stay in the range *)

Section Range.

Local Open Scope R_scope.

Lemma clamp_range (sample : R) : 0 <= clamp sample <= STATE_RANGE.
Proof.
  unfold clamp, STATE_RANGE. cbn [Math_max Math_min of_Z RealNumber].
  unfold Rmax, Rmin.
  destruct (Rle_dec 300 sample); destruct (Rle_dec 0 _); lra.
Qed.

Lemma lands_bind {A} (m : Rand A) (k : A -> Rand R) :
  (forall a, lands (k a)) -> lands (bind m k).
Proof. intros H rng. unfold bind. destruct (m rng) as [a rng']. apply H. Qed.

Lemma lands_sampleTriangular c h : lands (sampleTriangular c h).
Proof. intros rng. apply clamp_range. Qed.

Ltac lands_step :=
  first
    [ apply lands_sampleTriangular
    | apply lands_bind; intro
    | match goal with
      | |- lands (if ?c then _ else _) => destruct c
      end ].

Lemma lands_sampleBimodalTransition s : lands (sampleBimodalTransition s).
Proof. unfold sampleBimodalTransition. repeat lands_step. Qed.

Lemma lands_explorationMove s : lands (explorationMove s).
Proof. unfold explorationMove. repeat lands_step. Qed.

Lemma lands_changeState isTutorial t s : lands (changeState isTutorial t s).
Proof.
  unfold changeState.
  repeat first [apply lands_explorationMove
               | apply lands_sampleBimodalTransition | lands_step].
Qed.

(** A draw from a stream whose state is not negative is in [[0, 1)]. *)
Lemma random_unit rng :
  (0 <= current rng)%Z -> 0 <= fst (random (N:=R) rng) < 1.
Proof.
  intros H. cbn [random fst advance current].
  apply unit_interval, next_state_range, H.
Qed.

Lemma nonneg_advance rng :
  (0 <= current rng)%Z -> (0 <= current (advance rng))%Z.
Proof. intros H. cbn. apply next_state_range, H. Qed.

Variables (cond : Condition) (isTutorial : bool) (tutorialPhase : option Z).

Lemma trialStep_range t s tau rng :
  0 <= s <= STATE_RANGE ->
  let '(tr, (s', _)) :=
    fst (trialStep cond isTutorial tutorialPhase t s tau rng) in
  in_range tr /\ 0 <= s' <= STATE_RANGE.
Proof.
  intros Hs. unfold trialStep, stateUpdate, bind. cbn [random fst snd].
  destruct (ltb _ (hazardOf cond tau)).
  - pose proof (lands_changeState isTutorial t s (advance rng)) as Hc.
    destruct (changeState isTutorial t s (advance rng)) as [s1 rng1].
    cbn [ret fst] in *.
    pose proof (lands_sampleTriangular s1
                  (likelihoodWidthOf isTutorial tutorialPhase) rng1) as Ho.
    destruct (sampleTriangular _ _ rng1) as [obs rng2].
    cbn [fst] in *. unfold in_range. cbn. auto.
  - cbn [ret fst].
    pose proof (lands_sampleTriangular s
                  (likelihoodWidthOf isTutorial tutorialPhase) (advance rng)) as Ho.
    destruct (sampleTriangular _ _ (advance rng)) as [obs rng2].
    cbn [fst] in *. unfold in_range. cbn. auto.
Qed.

Lemma trialLoop_range fuel : forall t s tau rng,
  0 <= s <= STATE_RANGE ->
  Forall in_range
    (fst (trialLoop cond isTutorial tutorialPhase fuel t s tau rng)).
Proof.
  induction fuel as [| fuel IH]; intros t s tau rng Hs; cbn [trialLoop].
  - constructor.
  - unfold bind. pose proof (trialStep_range t tau rng Hs) as H.
    destruct (trialStep _ _ _ _ _ _ _) as [[tr [s' tau']] rng1].
    cbn [fst] in H. destruct H as [Htr Hs'].
    specialize (IH (t + 1)%Z s' tau' rng1 Hs').
    destruct (trialLoop _ _ _ _ _ _ _ _) as [rest rng2].
    cbn [ret fst] in *. constructor; assumption.
Qed.

Lemma generateSequence_range nTrials rng :
  (0 <= current rng)%Z ->
  Forall in_range
    (fst (generateSequence cond nTrials isTutorial tutorialPhase rng)).
Proof.
  intros H. unfold generateSequence, bind.
  pose proof (random_unit rng H) as Hu.
  destruct (random rng) as [u rng1]. cbn [fst] in Hu.
  apply trialLoop_range. unfold STATE_RANGE. cbn [mul of_Z RealNumber]. lra.
Qed.

End Range.

Lemma generateSequence_run_range cond nTrials isTutorial tutorialPhase rng l rng' :
  generateSequence (N:=R) cond nTrials isTutorial tutorialPhase rng = (l, rng') ->
  (0 <= current rng)%Z ->
  Forall in_range l /\ (0 <= current rng')%Z.
Proof.
  intros E H. split.
  - pose proof (generateSequence_range cond isTutorial tutorialPhase nTrials rng H)
      as Hr.
    now rewrite E in Hr.
  - pose proof (@preserves_generateSequence R _ (fun r => (0 <= current r)%Z)
                  nonneg_advance cond nTrials isTutorial tutorialPhase rng H)
      as Hp.
    now rewrite E in Hp.
Qed.

Lemma generateAllSequences_range (g : StimulusGenerator) (c : Condition) :
  (0 <= current (rng g))%Z ->
  Forall (Forall in_range)
    (tutorials (sequences_of (fst (generateAllSequences (N:=R) g)) c))
  /\ Forall in_range
       (main (sequences_of (fst (generateAllSequences (N:=R) g)) c)).
Proof.
  intros H0. pose proof (generateAllSequences_calls (N:=R) g) as Hall.
  repeat match goal with
         | H : (0 <= current ?r)%Z,
           Hc : context [generateSequence ?c ?n ?t ?p ?r] |- _ =>
             let E := fresh "E" in
             destruct (generateSequence c n t p r) as [? ?] eqn:E;
             destruct (generateSequence_run_range _ _ _ _ _ E H); clear H E
         end.
  rewrite Hall. destruct c; cbn [fst sequences_of sequences_HI sequences_HD
                                 tutorials main];
    split; repeat constructor; assumption.
Qed.

Section FloatClamp.

Local Open Scope float_scope.

(** On binary64, [x < y] entails [x <= y]. *)
Lemma float_ltb_leb x y : (x <? y) = true -> (x <=? y) = true.
Proof.
  rewrite FloatAxioms.ltb_spec, FloatAxioms.leb_spec. unfold SFltb, SFleb.
  destruct (SFcompare _ _) as [[| |] |]; congruence.
Qed.

(** A number that is neither NaN, nor above, nor below zero is a zero. *)
Lemma float_zero_cases m :
  is_nan m = false -> (0 <? m) = false -> (m <? 0) = false ->
  m = zero \/ m = neg_zero.
Proof.
  intros Hn H1 H2. unfold is_nan in Hn.
  rewrite negb_false_iff, FloatAxioms.eqb_spec in Hn.
  rewrite FloatAxioms.ltb_spec in H1, H2.
  change (Prim2SF 0) with (S754_zero false) in H1, H2.
  rewrite <- (SF2Prim_Prim2SF m).
  destruct (Prim2SF m) as [s | s | | s mm e]; cbn in Hn, H1, H2.
  - destruct s; cbn; auto.
  - destruct s; discriminate.
  - discriminate.
  - destruct s; discriminate.
Qed.

(** The clamp of a number that is not NaN is in the range. *)
Lemma float_clamp_range x :
  is_nan x = false ->
  (0 <=? clamp (N:=float) x) = true /\ (clamp (N:=float) x <=? 300) = true.
Proof.
  intros Hn. set (m := F.min 300 x).
  assert (Hm : m = 300 \/ (m = x /\ (x <? 300) = true)).
  { unfold m, F.min. rewrite Hn. change (is_nan 300) with false. cbn [orb].
    destruct (300 <? x); [now left |].
    destruct (x <? 300); [now right |].
    change (is_zero 300) with false. now left. }
  assert (Hmn : is_nan m = false).
  { destruct Hm as [-> | [-> _]]; [reflexivity | exact Hn]. }
  assert (Hm300 : (m <=? 300) = true).
  { destruct Hm as [-> | [-> H]]; [reflexivity | apply float_ltb_leb, H]. }
  change (clamp (N:=float) x) with (F.max 0 m). unfold F.max.
  change (is_nan 0) with false. rewrite Hmn. cbn [orb].
  destruct (0 <? m) eqn:E1; [split; [apply float_ltb_leb, E1 | exact Hm300] |].
  destruct (m <? 0) eqn:E2; [split; reflexivity |].
  change (is_zero 0) with true. cbv iota.
  destruct (float_zero_cases Hmn E1 E2) as [-> | ->]; split; reflexivity.
Qed.

End FloatClamp.

(** C2.  In exact arithmetic, every trial of every sequence of a session
    (any trial count, either condition, tutorials and main block) has its
    state [s_t] and its observation [x_t] in [[0, STATE_RANGE] = [0, 300]];
    so has every trial of a sequence generated from a stream whose state is
    not negative; the clamp brings the sample of [sampleTriangular] into the
    range for every centre, half-width and draw [u] whatsoever; and a draw
    [u] is in [[0, 1)], so that both radicands [2u] and [2(1 - u)] are not
    negative.  In binary64, the clamp brings every sample that is not NaN,
    the infinities included, into the range; and from the seed of the
    constructor, the comparisons of the source find every state and
    observation in the range in the sessions of 1000, 200 and 5 main trials,
    the counts that the experiment can ask for. *)
Theorem states_and_observations_in_range :
  (forall (trialCount : Z) (c : Condition),
     let s := fst (generateAllSequences (N:=R) (StimulusGenerator_new trialCount)) in
     Forall (Forall in_range) (tutorials (sequences_of s c))
     /\ Forall in_range (main (sequences_of s c)))
  /\ (forall (c : Condition) (nTrials : Z) (isTutorial : bool)
             (tutorialPhase : option Z) (rng : SeededRandom),
        (0 <= current rng)%Z ->
        Forall in_range
          (fst (generateSequence (N:=R) c nTrials isTutorial tutorialPhase rng)))
  /\ (forall center halfWidth u : R,
        (0 <= clamp (triangular center halfWidth u) <= 300)%R)
  /\ (forall rng : SeededRandom,
        (0 <= current rng)%Z ->
        let u := fst (random (N:=R) rng) in
        (0 <= u < 1)%R /\ (0 <= 2 * u)%R /\ (0 < 2 * (1 - u))%R)
  /\ (forall sample : float,
        PrimFloat.is_nan sample = false ->
        PrimFloat.leb 0 (clamp sample) = true
        /\ PrimFloat.leb (clamp sample) 300 = true)
  /\ all_trials in_rangeb
       (fst (generateAllSequences (N:=float) (StimulusGenerator_new 5))) = true
  /\ all_trials in_rangeb
       (fst (generateAllSequences (N:=float) (StimulusGenerator_new 200))) = true
  /\ all_trials in_rangeb
       (fst (generateAllSequences (N:=float) (StimulusGenerator_new 1000))) = true.
Proof.
  split; [| split; [| split; [| split; [| split; [| split; [| split]]]]]].
  - intros trialCount c s. apply generateAllSequences_range. cbn. lia.
  - intros c nTrials isTutorial tutorialPhase rng H.
    now apply generateSequence_range.
  - intros center halfWidth u. apply clamp_range.
  - intros rng H u. pose proof (random_unit rng H) as Hu. fold u in Hu. lra.
  - exact float_clamp_range.
  - vm_compute. reflexivity.
  - vm_compute. reflexivity.
  - vm_compute. reflexivity.
Qed.

(** C2 on the main sequence of five HI trials from the seed, and on the
    sample [+Infinity]. *)
Lemma states_and_observations_in_range_from_seed :
  (0 <= current (SeededRandom_new 12345))%Z
  /\ Forall in_range
       (fst (generateSequence (N:=R) HI 5 false None (SeededRandom_new 12345)))
  /\ PrimFloat.is_nan infinity = false
  /\ PrimFloat.leb 0 (clamp infinity) = true
  /\ PrimFloat.leb (clamp infinity) 300 = true.
Proof.
  assert (H0 : (0 <= current (SeededRandom_new 12345))%Z) by (cbn; lia).
  assert (Hn : PrimFloat.is_nan infinity = false) by reflexivity.
  destruct states_and_observations_in_range as (_ & Hseq & _ & _ & Hclamp & _).
  split; [exact H0 |]. split; [exact (Hseq HI 5%Z false None _ H0) |].
  split; [exact Hn |]. exact (Hclamp infinity Hn).
Defined.

(** ** C5: the hazard rates *)

Section Hazard.

Context {N : Type} {num : Number N}.

(** A property of the trial of every turn holds of every trial of a
    sequence. *)
Lemma generateSequence_Forall (Q : Trial N -> Prop) cond isTutorial tutorialPhase :
  (forall t s tau rng,
     Q (fst (fst (trialStep cond isTutorial tutorialPhase t s tau rng)))) ->
  forall nTrials rng,
    Forall Q (fst (generateSequence cond nTrials isTutorial tutorialPhase rng)).
Proof.
  intros H nTrials rng. apply Forall_forall. intros tr Hin.
  apply In_nth_error in Hin. destruct Hin as [i Hi].
  unfold generateSequence, bind in Hi. cbn [random fst snd] in Hi.
  apply trialLoop_nth in Hi. destruct Hi as (s & tau & rng' & ->). apply H.
Qed.

Lemma trialStep_hazard cond isTutorial tutorialPhase t s tau rng :
  hazard_rate (fst (fst (trialStep (N:=N) cond isTutorial tutorialPhase t s tau rng)))
  = hazardOf cond tau.
Proof.
  pose proof (trialStep_fields cond isTutorial tutorialPhase t s tau rng) as H.
  destruct (trialStep _ _ _ _ _ _ _) as [[tr [s' tau']] rng1]. cbn [fst] in *.
  tauto.
Qed.

End Hazard.

Section Logistic.

Local Open Scope R_scope.

Lemma calculateHDHazard_real (tau : R) :
  calculateHDHazard tau = / (1 + exp (- (tau - 10))).
Proof.
  unfold calculateHDHazard. cbn [div add neg sub of_Z Math_exp RealNumber].
  unfold Rdiv. now rewrite Rmult_1_l.
Qed.

Lemma calculateHDHazard_increasing (a b : R) :
  a < b -> calculateHDHazard a < calculateHDHazard b.
Proof.
  intros Hab. rewrite !calculateHDHazard_real.
  pose proof (exp_pos (- (a - 10))) as Ha.
  pose proof (exp_pos (- (b - 10))) as Hb.
  assert (Hexp : exp (- (b - 10)) < exp (- (a - 10))) by (apply exp_increasing; lra).
  apply Rinv_lt_contravar; [apply Rmult_lt_0_compat |]; lra.
Qed.

Lemma calculateHDHazard_unit (tau : R) : 0 < calculateHDHazard tau < 1.
Proof.
  rewrite calculateHDHazard_real.
  pose proof (exp_pos (- (tau - 10))) as He.
  split.
  - apply Rinv_0_lt_compat. lra.
  - rewrite <- Rinv_1 at 2. apply Rinv_lt_contravar; lra.
Qed.

Lemma calculateHDHazard_midpoint : calculateHDHazard (IZR 10) = 1 / 2.
Proof.
  rewrite calculateHDHazard_real.
  replace (- (10 - 10)) with 0 by lra. rewrite exp_0. lra.
Qed.

End Logistic.

(** C5.  The [hazard_rate] of every trial of an HI sequence is the literal
    [0.1], whatever the counter: for every instance of the numbers, and this is
    1/10 in exact arithmetic and the nearest binary64 number on floats.  In
    exact arithmetic the HD hazard [1 / (1 + exp(-(tau - 10)))] is strictly
    increasing over the integers, lies in [[0, 1]] (strictly inside) and is
    exactly 1/2 at [tau = 10]; on binary64 too it is exactly 0.5 at
    [tau = 10].  As the source computes it, on binary64, for every integer
    [tau] from -1000 to 1000: the hazard lies in [[0, 1]] and is not above
    the hazard of [tau + 1]; it is strictly below the hazard of [tau + 1]
    for [tau] from 0 to 46; it is exactly 1 from [tau = 47] on and exactly 0
    up to [tau = -700], so that there it does not grow. *)
Theorem hazard_rates :
  (forall (N : Type) (num : Number N) (nTrials : Z) (isTutorial : bool)
          (tutorialPhase : option Z) (rng : SeededRandom),
     Forall (fun tr => hazard_rate tr = lit (1 # 10))
       (fst (generateSequence (N:=N) HI nTrials isTutorial tutorialPhase rng)))
  /\ lit (N:=R) (1 # 10) = (1 / 10)%R
  /\ lit (N:=float) (1 # 10) = 0x1.999999999999ap-4%float
  /\ (forall (tau : Z) (d : positive),
        (calculateHDHazard (IZR tau) < calculateHDHazard (IZR (tau + Z.pos d)))%R)
  /\ (forall tau : Z,
        (0 <= calculateHDHazard (IZR tau) <= 1)%R
        /\ (0 < calculateHDHazard (IZR tau) < 1)%R)
  /\ calculateHDHazard (IZR 10) = (1 / 2)%R
  /\ calculateHDHazard (N:=float) (of_Z 10) = 0.5%float
  /\ forallb (fun tau =>
                let h := calculateHDHazard (N:=float) (of_Z tau) in
                ((0 <=? h) && (h <=? 1))%float)
       (integers (-1000) 2001) = true
  /\ forallb (fun tau =>
                (calculateHDHazard (N:=float) (of_Z tau)
                 <=? calculateHDHazard (N:=float) (of_Z (tau + 1)))%float)
       (integers (-1000) 2000) = true
  /\ forallb (fun tau =>
                (calculateHDHazard (N:=float) (of_Z tau)
                 <? calculateHDHazard (N:=float) (of_Z (tau + 1)))%float)
       (integers 0 47) = true
  /\ forallb (fun tau =>
                (calculateHDHazard (N:=float) (of_Z tau) =? 1)%float)
       (integers 47 954) = true
  /\ forallb (fun tau =>
                (calculateHDHazard (N:=float) (of_Z tau) =? 0)%float)
       (integers (-1000) 301) = true.
Proof.
  split; [| split; [| split; [| split; [| split; [| split; [| split]]]]]].
  - intros N num nTrials isTutorial tutorialPhase rng.
    apply generateSequence_Forall. intros t s tau rng'.
    now rewrite trialStep_hazard.
  - cbn [lit RealNumber]. unfold Q2R. cbn [Qnum Qden]. lra.
  - vm_compute. reflexivity.
  - intros tau d. apply calculateHDHazard_increasing. apply IZR_lt. lia.
  - intros tau. pose proof (calculateHDHazard_unit (IZR tau)). lra.
  - apply calculateHDHazard_midpoint.
  - vm_compute. reflexivity.
  - split; [| split; [| split; [| split]]]; vm_compute; reflexivity.
Qed.

(** C5, the counterexample.  On binary64 the HD hazard of the source is
    exactly 1 at [tau = 47] and at [tau = 48], and exactly 0 at [tau = -701]
    and at [tau = -700]: from 47 to 48 it does not grow. *)
Example hazard_saturates_on_binary64 :
  calculateHDHazard (N:=float) (of_Z 47) = 1%float
  /\ calculateHDHazard (N:=float) (of_Z 48) = 1%float
  /\ (calculateHDHazard (N:=float) (of_Z 47)
      <? calculateHDHazard (N:=float) (of_Z 48))%float = false
  /\ calculateHDHazard (N:=float) (of_Z (-701)) = 0%float
  /\ calculateHDHazard (N:=float) (of_Z (-700)) = 0%float
  /\ (calculateHDHazard (N:=float) (of_Z (-701))
      <? calculateHDHazard (N:=float) (of_Z (-700)))%float = false.
Proof.
  split; [vm_compute; reflexivity |]. split; [vm_compute; reflexivity |].
  split; [vm_compute; reflexivity |]. split; [vm_compute; reflexivity |].
  split; vm_compute; reflexivity.
Qed.

(** ** C6: the tiers of the score *)

Section Score.

Local Open Scope R_scope.

Lemma Rleb_true a b : a <= b -> Rleb a b = true.
Proof. intros H. unfold Rleb. now destruct (Rle_dec a b). Qed.

Lemma Rleb_false a b : b < a -> Rleb a b = false.
Proof. intros H. unfold Rleb. destruct (Rle_dec a b); [lra | reflexivity]. Qed.

Lemma quarter : lit (N:=R) (25 # 100) = 1 / 4.
Proof. cbn [lit RealNumber]. unfold Q2R. cbn [Qnum Qden]. lra. Qed.

End Score.

(** C6.  For every instance of the numbers, [calculatePoints] returns 1 when
    the comparison [distance <= baseRadius] holds, 0.25 when it fails and
    [distance <= baseRadius * 2] holds, and 0 when both fail.  In exact
    arithmetic, for every click, true state and radius [r > 0], with
    [d = |clickX - trueState|]: the score is 1 when [d <= r], and so at
    distance exactly [r] and at distance 0; 0.25 when [r < d <= 2r]; 0 when
    [d > 2r]. *)
Theorem calculatePoints_tiers :
  (forall (N : Type) (num : Number N) (clickX trueState r : N),
     let d := calculateDistance clickX trueState in
     calculatePoints clickX trueState r
     = (if d <=? r then of_Z 1
        else if d <=? r * of_Z 2 then lit (25 # 100) else of_Z 0)%num)
  /\ (forall clickX trueState r : R,
        (0 < r)%R ->
        let d := Rabs (clickX - trueState) in
        calculateDistance clickX trueState = d
        /\ ((d <= r)%R -> calculatePoints clickX trueState r = 1%R)
        /\ ((r < d <= 2 * r)%R ->
            calculatePoints clickX trueState r = (1 / 4)%R)
        /\ ((2 * r < d)%R -> calculatePoints clickX trueState r = 0%R)
        /\ calculatePoints clickX clickX r = 1%R
        /\ calculatePoints (trueState + r)%R trueState r = 1%R
        /\ calculatePoints (trueState - r)%R trueState r = 1%R).
Proof.
  split; [reflexivity |].
  intros clickX trueState r Hr d.
  assert (Htier : forall x y : R,
             (Rabs (x - y) <= r -> calculatePoints x y r = 1)%R).
  { intros x y H. unfold calculatePoints, calculateDistance.
    cbn [leb Math_abs sub mul of_Z lit RealNumber].
    now rewrite Rleb_true. }
  split; [reflexivity |]. split; [apply Htier |]. split; [| split; [| split; [| split]]].
  - intros [H1 H2]. unfold calculatePoints, calculateDistance.
    cbn [leb Math_abs sub mul of_Z RealNumber]. fold d.
    rewrite Rleb_false by lra. rewrite Rleb_true by lra. apply quarter.
  - intros H. unfold calculatePoints, calculateDistance.
    cbn [leb Math_abs sub mul of_Z RealNumber]. fold d.
    rewrite !Rleb_false by lra. reflexivity.
  - apply Htier. replace (clickX - clickX)%R with 0%R by lra.
    rewrite Rabs_R0. lra.
  - apply Htier. replace (trueState + r - trueState)%R with r by lra.
    rewrite Rabs_pos_eq; lra.
  - apply Htier. replace (trueState - r - trueState)%R with (- r)%R by lra.
    rewrite Rabs_Ropp, Rabs_pos_eq; lra.
Qed.

(** C6 with the radius 10: the scores of the clicks 105, 115 and 130 for the
    true state 100. *)
Lemma calculatePoints_tiers_radius_10 :
  (0 < 10)%R
  /\ calculatePoints 105%R 100%R 10%R = 1%R
  /\ calculatePoints 115%R 100%R 10%R = (1 / 4)%R
  /\ calculatePoints 130%R 100%R 10%R = 0%R.
Proof.
  assert (H10 : (0 < 10)%R) by lra.
  split; [exact H10 |]. split; [| split].
  - apply (proj2 calculatePoints_tiers 105%R 100%R 10%R H10).
    replace (105 - 100)%R with 5%R by lra. rewrite Rabs_pos_eq; lra.
  - apply (proj2 calculatePoints_tiers 115%R 100%R 10%R H10).
    replace (115 - 100)%R with 15%R by lra. rewrite Rabs_pos_eq; lra.
  - apply (proj2 calculatePoints_tiers 130%R 100%R 10%R H10).
    replace (130 - 100)%R with 30%R by lra. rewrite Rabs_pos_eq; lra.
Defined.

(** The same scores on binary64. *)
Example calculatePoints_binary64 :
  calculatePoints 105%float 100%float 10%float = 1%float
  /\ calculatePoints 115%float 100%float 10%float = 0.25%float
  /\ calculatePoints 130%float 100%float 10%float = 0%float
  /\ calculatePoints 110%float 100%float 10%float = 1%float
  /\ calculatePoints 100%float 100%float 10%float = 1%float.
Proof. repeat split; vm_compute; reflexivity. Qed.

(** ** C10: the coverage report of an empty main sequence *)

(** C10.  When the main sequence of a condition is empty,
    [analyzeStateCoverage] returns, for that condition, the report in which
    both ranges have [min = +Infinity], [max = -Infinity], [mean = NaN]
    (and [coverage = -Infinity]), the four counts are 0 and the four
    percentages are NaN. *)
Theorem coverage_of_empty_main_is_degenerate :
  forall (s : Sequences float) (c : Condition),
    main (sequences_of s c) = [] ->
    let degenerate :=
      {| Coverage.min := infinity;
         Coverage.max := neg_infinity;
         Coverage.mean := nan;
         Coverage.coverage := neg_infinity |} in
    Coverage.analysis_of (Coverage.analyzeStateCoverage s) c
    = {| Coverage.stateRange := degenerate;
         Coverage.observationRange := degenerate;
         Coverage.quartileDistribution :=
           {| Coverage.counts :=
                {| Coverage.q1 := 0%nat; Coverage.q2 := 0%nat;
                   Coverage.q3 := 0%nat; Coverage.q4 := 0%nat |};
              Coverage.percentages :=
                {| Coverage.q1 := nan; Coverage.q2 := nan;
                   Coverage.q3 := nan; Coverage.q4 := nan |} |} |}.
Proof.
  intros s c H degenerate. subst degenerate.
  destruct c; cbn [Coverage.analysis_of Coverage.analyzeStateCoverage
                   Coverage.analysis_HI Coverage.analysis_HD] in *;
    rewrite H; vm_compute; reflexivity.
Qed.

(** C10 on a session of no main trial, and next to it a session of five:
    there the ranges of the HI main sequence are finite. *)
Lemma coverage_of_empty_main_is_degenerate_session :
  let empty := fst (generateAllSequences (N:=float) (StimulusGenerator_new 0)) in
  let five := fst (generateAllSequences (N:=float) (StimulusGenerator_new 5)) in
  main (sequences_of empty HI) = []
  /\ Coverage.stateRange (Coverage.analysis_of (Coverage.analyzeStateCoverage empty) HI)
     = {| Coverage.min := infinity;
          Coverage.max := neg_infinity;
          Coverage.mean := nan;
          Coverage.coverage := neg_infinity |}
  /\ (let r := Coverage.stateRange
                 (Coverage.analysis_of (Coverage.analyzeStateCoverage five) HI) in
      map PrimFloat.is_finite
        [Coverage.min r; Coverage.max r; Coverage.mean r; Coverage.coverage r]
      = [true; true; true; true]).
Proof.
  assert (H : main (sequences_of
                (fst (generateAllSequences (N:=float) (StimulusGenerator_new 0)))
                HI) = []) by (vm_compute; reflexivity).
  split; [exact H |]. split.
  - rewrite (coverage_of_empty_main_is_degenerate _ HI H). reflexivity.
  - vm_compute. reflexivity.
Defined.

(** * Further properties *)

(** ** The random stream is never merged *)

Section Inverse.

Local Open Scope Z_scope.

Lemma previous_state_next_state c :
  0 <= c < LCG_M -> previous_state (next_state c) = c.
Proof.
  intros Hc. unfold previous_state. rewrite next_state_mod by lia.
  unfold LCG_C, LCG_A_inverse, LCG_M. change (2 ^ 32) with 4294967296.
  rewrite <- Zmult_mod_idemp_l, Zminus_mod_idemp_l, Zmult_mod_idemp_l.
  replace ((c * 1664525 + 1013904223 - 1013904223) * 4276115653)
    with (c + c * 1657219 * 4294967296) by ring.
  rewrite Z_mod_plus_full. apply Z.mod_small. exact Hc.
Qed.

End Inverse.

(** X1.  On the states of [[0, 2^32)], a call of [random()] can be undone:
    the state before is [((state - 1013904223) * 4276115653) mod 2^32].  So
    two different states never lead to the same state, nor to the same
    value, and no state leads to itself. *)
Theorem random_can_be_undone :
  forall a : Z, (0 <= a < 2 ^ 32)%Z ->
    previous_state (current (advance {| seed := 0; current := a |})) = a
    /\ next_state a <> a
    /\ forall b : Z, (0 <= b < 2 ^ 32)%Z ->
         (next_state a = next_state b -> a = b)
         /\ (fst (random (N:=R) {| seed := 0; current := a |})
             = fst (random (N:=R) {| seed := 0; current := b |}) -> a = b).
Proof.
  intros a Ha. change (2 ^ 32)%Z with LCG_M in *.
  assert (Hinj : forall b, (0 <= b < LCG_M)%Z -> next_state a = next_state b -> a = b).
  { intros b Hb H. rewrite <- (previous_state_next_state Ha),
      <- (previous_state_next_state Hb). now rewrite H. }
  split; [exact (previous_state_next_state Ha) |]. split.
  - rewrite next_state_mod by lia. unfold LCG_M in Ha. intros H.
    change (2 ^ 32)%Z with 4294967296%Z in H.
    pose proof (Z.div_mod (a * 1664525 + 1013904223) 4294967296 ltac:(lia)) as Hd.
    rewrite H in Hd. lia.
  - intros b Hb. split; [exact (Hinj b Hb) |].
    cbn [random fst advance current]. intros H. apply Hinj; [exact Hb |].
    pose proof (@next_state_range a ltac:(lia)) as Hna.
    pose proof (@next_state_range b ltac:(lia)) as Hnb.
    apply eq_IZR. cbn [div of_Z RealNumber] in H. unfold Rdiv in H.
    apply Rmult_eq_reg_r in H; [exact H |].
    apply Rinv_neq_0_compat. unfold LCG_M. lra.
Qed.

(** X1 at the seed of the generator. *)
Lemma random_can_be_undone_12345 :
  (0 <= 12345 < 2 ^ 32)%Z
  /\ next_state 12345 = 87628868%Z
  /\ previous_state 87628868 = 12345%Z.
Proof.
  assert (H : (0 <= 12345 < 2 ^ 32)%Z) by (split; [lia | reflexivity]).
  split; [exact H |]. split; [reflexivity |].
  exact (proj1 (random_can_be_undone H)).
Defined.

(** ** What a sequence carries from trial to trial *)

Section Follow.

Context {N : Type} {num : Number N}.
Variables (cond : Condition) (isTutorial : bool) (tutorialPhase : option Z).

Lemma stateUpdate_state t s tau rng :
  let '(changed, s', _) := fst (stateUpdate (N:=N) cond isTutorial t s tau rng) in
  changed = false -> s' = s.
Proof.
  unfold stateUpdate, bind, ret. cbn [random fst snd].
  destruct (ltb _ (hazardOf cond tau)); cbn.
  - destruct (changeState isTutorial t s (advance rng)). cbn. discriminate.
  - reflexivity.
Qed.

Lemma trialStep_state t s tau rng :
  let '(tr, (s', _)) :=
    fst (trialStep (N:=N) cond isTutorial tutorialPhase t s tau rng) in
  s' = s_t tr /\ (change_flag tr = false -> s_t tr = s).
Proof.
  unfold trialStep, bind.
  pose proof (stateUpdate_state t s tau rng) as H.
  destruct (stateUpdate cond isTutorial t s tau rng) as [[[changed s'] tau'] rng1].
  cbn [fst] in H.
  destruct (sampleTriangular s' (likelihoodWidthOf isTutorial tutorialPhase) rng1).
  cbn. auto.
Qed.

Lemma trialLoop_follows fuel : forall t s tau rng,
  follows cond s tau
    (fst (trialLoop (N:=N) cond isTutorial tutorialPhase fuel t s tau rng)).
Proof.
  induction fuel as [| fuel IH]; intros t s tau rng; cbn [trialLoop];
    [exact I |].
  unfold bind.
  pose proof (trialStep_fields cond isTutorial tutorialPhase t s tau rng) as Hf.
  pose proof (trialStep_state t s tau rng) as Hs.
  destruct (trialStep cond isTutorial tutorialPhase t s tau rng)
    as [[tr [s' tau']] rng1].
  cbn [fst] in Hf, Hs.
  specialize (IH (t + 1)%Z s' tau' rng1).
  destruct (trialLoop cond isTutorial tutorialPhase fuel (t + 1) s' tau' rng1)
    as [rest rng2].
  cbn [ret fst follows] in *.
  destruct Hf as (_ & _ & Htau & _ & Hh & _ & _ & _ & Hnext).
  destruct Hs as [Hs' Hkeep]. subst s' tau'. auto.
Qed.

Lemma generateSequence_follows nTrials rng :
  follows cond (fst (random (N:=N) rng) * STATE_RANGE)%num 0
    (fst (generateSequence (N:=N) cond nTrials isTutorial tutorialPhase rng)).
Proof. unfold generateSequence, bind. cbn [random fst snd]. apply trialLoop_follows. Qed.

Lemma follows_next (trials : list (Trial N)) : forall s tau i a b,
  follows cond s tau trials ->
  nth_error trials i = Some a -> nth_error trials (S i) = Some b ->
  follows cond (s_t a) (tau_true a) [b].
Proof.
  induction trials as [| x rest IH]; intros s tau i a b Hf Hi Hs.
  - destruct i; discriminate.
  - destruct Hf as (_ & _ & _ & Hf). destruct i as [| i]; cbn in Hi, Hs.
    + injection Hi as ->. destruct rest as [| y rest']; [discriminate |].
      injection Hs as ->. cbn [follows] in *. tauto.
    + exact (IH _ _ _ _ _ Hf Hi Hs).
Qed.

(** Over a run of trials without a change the state stays and the counter
    counts. *)
Lemma follows_run (trials : list (Trial N)) s tau : forall d i a b,
  follows cond s tau trials ->
  nth_error trials i = Some a -> nth_error trials (i + d) = Some b ->
  (forall k t, (i < k <= i + d)%nat -> nth_error trials k = Some t ->
               change_flag t = false) ->
  s_t b = s_t a /\ tau_true b = (tau_true a + Z.of_nat d)%Z.
Proof.
  induction d as [| d IH]; intros i a b Hf Ha Hb Hrun.
  - rewrite Nat.add_0_r in Hb. rewrite Ha in Hb. injection Hb as ->.
    split; [reflexivity | lia].
  - destruct (nth_error trials (i + d)) as [c |] eqn:Hc.
    + destruct (IH i a c Hf Ha Hc) as [Hs Ht].
      { intros k t Hk. apply Hrun. lia. }
      replace (i + S d)%nat with (S (i + d)) in Hb by lia.
      pose proof Hf as Hn. eapply follows_next in Hn; [| exact Hc | exact Hb].
      destruct Hn as (_ & Htau & Hkeep & _).
      assert (Hflag : change_flag b = false).
      { apply (Hrun (S (i + d))); [lia | exact Hb]. }
      rewrite Hflag in Htau. rewrite (Hkeep Hflag), Hs, Htau, Ht.
      split; [reflexivity | lia].
    + apply nth_error_None in Hc.
      assert (Hsome : nth_error trials (i + S d) <> None) by congruence.
      apply nth_error_Some in Hsome. lia.
Qed.

Lemma follows_first_run (trials : list (Trial N)) s tau : forall d b,
  follows cond s tau trials ->
  nth_error trials d = Some b ->
  (forall k t, (k <= d)%nat -> nth_error trials k = Some t ->
               change_flag t = false) ->
  s_t b = s /\ tau_true b = (tau + 1 + Z.of_nat d)%Z.
Proof.
  intros d b Hf Hb Hrun.
  destruct trials as [| a rest]; [destruct d; discriminate |].
  assert (Ha : nth_error (a :: rest) 0 = Some a) by reflexivity.
  destruct (@follows_run (a :: rest) s tau d 0%nat a b Hf Ha Hb) as [Hs Ht].
  { intros k t Hk. apply Hrun. lia. }
  destruct Hf as (_ & Htau & Hkeep & _).
  assert (Hflag : change_flag a = false) by (apply (Hrun 0%nat); [lia | exact Ha]).
  rewrite Hflag in Htau. rewrite Hs, Ht, (Hkeep Hflag), Htau. split; [reflexivity | lia].
Qed.

End Follow.

Section Tagged.

Context {N : Type} {num : Number N}.
Variables (cond : Condition) (isTutorial : bool) (tutorialPhase : option Z).

Lemma trialLoop_indices fuel : forall t s tau rng,
  map (@trial_idx N)
    (fst (trialLoop (N:=N) cond isTutorial tutorialPhase fuel t s tau rng))
  = map (fun i => (t + Z.of_nat i)%Z) (seq 0 fuel).
Proof.
  induction fuel as [| fuel IH]; intros t s tau rng; cbn [trialLoop];
    [reflexivity |].
  unfold bind.
  pose proof (trialStep_fields cond isTutorial tutorialPhase t s tau rng) as Hf.
  destruct (trialStep cond isTutorial tutorialPhase t s tau rng)
    as [[tr [s' tau']] rng1].
  cbn [fst] in Hf. specialize (IH (t + 1)%Z s' tau' rng1).
  destruct (trialLoop cond isTutorial tutorialPhase fuel (t + 1) s' tau' rng1)
    as [rest rng2].
  cbn [ret fst] in *. cbn [seq map]. rewrite IH, <- seq_shift, map_map.
  destruct Hf as (Hidx & _). rewrite Hidx. f_equal; [lia |].
  apply map_ext. intros i. lia.
Qed.

End Tagged.

(** X2.  The trials of a sequence carry the indices 0, 1, ... in order, one
    per turn, and each carries the condition, the tutorial flag and the
    phase of the call and the half-width of the likelihood, which is 10 in
    the tutorial phases 3 and 4 and 20 otherwise. *)
Theorem trials_are_indexed_and_tagged :
  (forall (N : Type) (num : Number N) (cond : Condition) (nTrials : Z)
          (isTutorial : bool) (tutorialPhase : option Z) (rng : SeededRandom),
     let trials :=
       fst (generateSequence (N:=N) cond nTrials isTutorial tutorialPhase rng) in
     map (@trial_idx N) trials = map Z.of_nat (seq 0 (Z.to_nat nTrials))
     /\ Forall (fun tr => condition tr = cond
                          /\ is_tutorial tr = isTutorial
                          /\ tutorial_phase tr = tutorialPhase
                          /\ likelihood_width tr
                             = likelihoodWidthOf isTutorial tutorialPhase)
          trials)
  /\ (forall (isTutorial : bool) (tutorialPhase : option Z),
        let narrow :=
          isTutorial
          && match tutorialPhase with
             | Some p => (p =? 3)%Z || (p =? 4)%Z
             | None => false
             end in
        likelihoodWidthOf (N:=R) isTutorial tutorialPhase
        = (if narrow then 10 else 20)%R
        /\ likelihoodWidthOf (N:=float) isTutorial tutorialPhase
           = (if narrow then 10 else 20)%float).
Proof.
  split.
  - intros N num cond nTrials isTutorial tutorialPhase rng trials. split.
    + subst trials. unfold generateSequence, bind. cbn [random fst snd].
      rewrite trialLoop_indices. apply map_ext. intros i. lia.
    + apply generateSequence_Forall. intros t s tau rng'.
      pose proof (trialStep_fields cond isTutorial tutorialPhase t s tau rng') as Hf.
      destruct (trialStep cond isTutorial tutorialPhase t s tau rng')
        as [[tr [s' tau']] rng1].
      cbn [fst] in *. tauto.
  - intros isTutorial tutorialPhase narrow. unfold likelihoodWidthOf.
    fold narrow. destruct narrow; split;
      try (vm_compute; reflexivity);
      unfold LIKELIHOOD_HALF_WIDTH; cbn [mul of_Z lit RealNumber];
      unfold Q2R; cbn [Qnum Qden]; lra.
Qed.

(** X3.  Between changes the state stays and the counter counts: if the
    trials after trial [i] up to trial [i + d] are no changes, trial [i + d]
    has the state of trial [i] and its counter plus [d] (so [d] itself when
    trial [i] is a change); and if no trial up to trial [d] is a change,
    trial [d] still has the initial state, the first draw times 300, and
    the counter [d + 1]. *)
Theorem state_and_counter_between_changes :
  forall (N : Type) (num : Number N) (cond : Condition) (nTrials : Z)
         (isTutorial : bool) (tutorialPhase : option Z) (rng : SeededRandom),
    let trials :=
      fst (generateSequence (N:=N) cond nTrials isTutorial tutorialPhase rng) in
    let initial := (fst (random (N:=N) rng) * STATE_RANGE)%num in
    (forall (i d : nat) (a b : Trial N),
       nth_error trials i = Some a ->
       nth_error trials (i + d) = Some b ->
       (forall k t, (i < k <= i + d)%nat -> nth_error trials k = Some t ->
                    change_flag t = false) ->
       s_t b = s_t a
       /\ tau_true b = (tau_true a + Z.of_nat d)%Z
       /\ (change_flag a = true -> tau_true b = Z.of_nat d))
    /\ (forall (d : nat) (b : Trial N),
          nth_error trials d = Some b ->
          (forall k t, (k <= d)%nat -> nth_error trials k = Some t ->
                       change_flag t = false) ->
          s_t b = initial /\ tau_true b = (Z.of_nat d + 1)%Z).
Proof.
  intros N num cond nTrials isTutorial tutorialPhase rng trials initial.
  pose proof (generateSequence_follows cond isTutorial tutorialPhase nTrials rng)
    as Hf.
  fold trials initial in Hf. clearbody trials initial. split.
  - intros i d a b Ha Hb Hrun.
    destruct (@follows_run _ _ _ _ _ _ d _ _ _ Hf Ha Hb Hrun) as [Hs Ht].
    split; [exact Hs |]. split; [exact Ht |]. intros Hflag.
    assert (H0 : tau_true a = 0%Z).
    { destruct i as [| i].
      - destruct trials as [| x rest]; [discriminate |]. injection Ha as ->.
        destruct Hf as (_ & Htau & _). now rewrite Hflag in Htau.
      - destruct (nth_error trials i) as [c |] eqn:Hc.
        + pose proof Hf as Hn. eapply follows_next in Hn; [| exact Hc | exact Ha].
          destruct Hn as (_ & Htau & _). now rewrite Hflag in Htau.
        + apply nth_error_None in Hc.
          assert (Hsome : nth_error trials (S i) <> None) by congruence.
          apply nth_error_Some in Hsome. lia. }
    lia.
  - intros d b Hb Hrun.
    destruct (@follows_first_run _ _ _ _ _ _ _ _ Hf Hb Hrun) as [Hs Ht]. split; [exact Hs | lia].
Qed.

(** X3 on the first tutorial sequence of the session: its trials 1 to 3 are
    no changes, and trial 3 has the state of trial 0 and the counter 3. *)
Lemma state_and_counter_between_changes_phase_1 :
  let trials :=
    fst (generateSequence (N:=float) HI 10 true (Some 1%Z)
           (SeededRandom_new 12345)) in
  match nth_error trials 0, nth_error trials 3 with
  | Some a, Some b =>
      change_flag a = true /\ s_t b = s_t a /\ tau_true b = 3%Z
  | _, _ => False
  end.
Proof.
  intros trials.
  destruct (nth_error trials 0) as [a |] eqn:Ea;
    [| subst trials; vm_compute in Ea; discriminate].
  destruct (nth_error trials 3) as [b |] eqn:Eb;
    [| subst trials; vm_compute in Eb; discriminate].
  assert (Hflag : change_flag a = true).
  { subst trials. vm_compute in Ea. injection Ea as <-. reflexivity. }
  assert (Hrun : forall k t, (0 < k <= 0 + 3)%nat ->
                   nth_error trials k = Some t -> change_flag t = false).
  { intros k t Hk Hn.
    assert (Hcases : k = 1%nat \/ k = 2%nat \/ k = 3%nat) by lia.
    subst trials.
    destruct Hcases as [-> | [-> | ->]];
      vm_compute in Hn; injection Hn as <-; reflexivity. }
  destruct (proj1 (@state_and_counter_between_changes float _ HI 10%Z true
                     (Some 1%Z) (SeededRandom_new 12345))
              0%nat 3%nat a b Ea Eb Hrun) as (Hs & _ & Ht).
  split; [exact Hflag |]. split; [exact Hs | exact (Ht Hflag)].
Defined.

Section HazardChain.

Local Open Scope R_scope.

Lemma follows_hazard_pair (trials : list (Trial R)) :
  forall (s : R) (tau : Z) (i : nat) (a b : Trial R),
    follows HD s tau trials ->
    nth_error trials i = Some a ->
    nth_error trials (S i) = Some b ->
    hazard_rate b = calculateHDHazard (IZR (tau_true a))
    /\ (change_flag a = false -> hazard_rate a < hazard_rate b)
    /\ (change_flag a = true -> hazard_rate b = calculateHDHazard 0).
Proof.
  induction trials as [| x rest IH]; intros s tau i a b Hf Ha Hb;
    [destruct i; discriminate |].
  destruct i as [| i].
  - destruct rest as [| y rest]; [discriminate |].
    injection Ha as ->. injection Hb as ->.
    cbn [follows] in Hf. destruct Hf as (Hha & Hta & _ & Hhb & _).
    cbn [hazardOf of_Z RealNumber] in Hha, Hhb.
    split; [exact Hhb |]. split; intros Hflag; rewrite Hflag in Hta.
    + rewrite Hha, Hhb, Hta. apply calculateHDHazard_increasing.
      apply IZR_lt. lia.
    + now rewrite Hhb, Hta.
  - cbn [follows] in Hf. destruct Hf as (_ & _ & _ & Hrest).
    exact (IH _ _ i a b Hrest Ha Hb).
Qed.

End HazardChain.

(** X4.  The hazard logged with a trial is that of the counter before the
    trial: the first trial of a sequence has the hazard of the counter 0, and
    every later trial the hazard of the counter logged with the trial before
    it.  In exact arithmetic the HD hazard therefore grows strictly from a
    trial that is no change to the next trial, and is
    [calculateHDHazard 0] on the trial after a change. *)
Theorem hazard_follows_the_previous_counter :
  (forall (N : Type) (num : Number N) (cond : Condition) (nTrials : Z)
          (isTutorial : bool) (tutorialPhase : option Z) (rng : SeededRandom),
     let trials :=
       fst (generateSequence (N:=N) cond nTrials isTutorial tutorialPhase rng) in
     match trials with
     | [] => True
     | first :: _ => hazard_rate first = hazardOf cond 0
     end
     /\ forall (i : nat) (a b : Trial N),
          nth_error trials i = Some a -> nth_error trials (S i) = Some b ->
          hazard_rate b = hazardOf cond (tau_true a))
  /\ (forall (nTrials : Z) (isTutorial : bool) (tutorialPhase : option Z)
             (rng : SeededRandom) (i : nat) (a b : Trial R),
        let trials :=
          fst (generateSequence (N:=R) HD nTrials isTutorial tutorialPhase rng) in
        nth_error trials i = Some a -> nth_error trials (S i) = Some b ->
        (change_flag a = false -> (hazard_rate a < hazard_rate b)%R)
        /\ (change_flag a = true -> hazard_rate b = calculateHDHazard 0%R)).
Proof.
  split.
  - intros N num cond nTrials isTutorial tutorialPhase rng trials.
    pose proof (generateSequence_follows cond isTutorial tutorialPhase nTrials rng)
      as Hf.
    fold trials in Hf. clearbody trials. split.
    + destruct trials as [| first rest]; [exact I |]. now destruct Hf.
    + intros i a b Ha Hb. pose proof Hf as Hn.
      eapply follows_next in Hn; [| exact Ha | exact Hb]. now destruct Hn.
  - intros nTrials isTutorial tutorialPhase rng i a b trials Ha Hb.
    pose proof (generateSequence_follows HD isTutorial tutorialPhase nTrials rng)
      as Hf.
    fold trials in Hf.
    destruct (@follows_hazard_pair _ _ _ i a b Hf Ha Hb) as (_ & Hup & Hreset).
    split; assumption.
Qed.

(** X4 on the first HD tutorial sequence of a session: the hazard of its
    second trial is that of the counter of its first. *)
Lemma hazard_follows_the_previous_counter_phase_1 :
  let trials :=
    fst (generateSequence (N:=float) HD 10 true (Some 1%Z)
           (SeededRandom_new 12345)) in
  match nth_error trials 0, nth_error trials 1 with
  | Some a, Some b => hazard_rate b = hazardOf HD (tau_true a)
  | _, _ => False
  end.
Proof.
  intros trials.
  destruct (nth_error trials 0) as [a |] eqn:Ea;
    [| subst trials; vm_compute in Ea; discriminate].
  destruct (nth_error trials 1) as [b |] eqn:Eb;
    [| subst trials; vm_compute in Eb; discriminate].
  exact (proj2 (proj1 hazard_follows_the_previous_counter float _ HD 10%Z true
                  (Some 1%Z) (SeededRandom_new 12345))
           0%nat a b Ea Eb).
Defined.

(** ** The calls of [random()] *)

Section Consumption.

Context {N : Type} {num : Number N}.

Lemma advances_add (a b : nat) rng :
  advances b (advances a rng) = advances (a + b) rng.
Proof.
  unfold advances. now rewrite Nat.add_comm, Nat.iter_add.
Qed.

Lemma consumes_ret {A} (a : A) : consumes 0 0 (ret a).
Proof. intros rng. exists 0%nat. split; [lia | reflexivity]. Qed.

Lemma consumes_random : consumes 1 1 (random (N:=N)).
Proof. intros rng. exists 1%nat. split; [lia | reflexivity]. Qed.

Lemma consumes_bind {A B} lo1 hi1 lo2 hi2 (m : Rand A) (k : A -> Rand B) :
  consumes lo1 hi1 m -> (forall a, consumes lo2 hi2 (k a)) ->
  consumes (lo1 + lo2) (hi1 + hi2) (bind m k).
Proof.
  intros Hm Hk rng. unfold bind.
  destruct (Hm rng) as (k1 & Hk1 & E1).
  destruct (m rng) as [a rng1]. cbn [snd] in E1. subst rng1.
  destruct (Hk a (advances k1 rng)) as (k2 & Hk2 & E2).
  exists (k1 + k2)%nat. split; [lia |]. now rewrite E2, advances_add.
Qed.

Lemma consumes_weaken {A} lo hi lo' hi' (m : Rand A) :
  (lo' <= lo)%nat -> (hi <= hi')%nat -> consumes lo hi m -> consumes lo' hi' m.
Proof.
  intros Hlo Hhi Hm rng. destruct (Hm rng) as (k & Hk & E).
  exists k. split; [lia | exact E].
Qed.

Lemma consumes_sampleTriangular c h : consumes 1 1 (sampleTriangular (N:=N) c h).
Proof.
  unfold sampleTriangular.
  apply (consumes_bind (lo1:=1) (hi1:=1) (lo2:=0) (hi2:=0)).
  - apply consumes_random.
  - intros u. apply consumes_ret.
Qed.

Lemma consumes_sampleBimodalTransition s :
  consumes 2 3 (sampleBimodalTransition (N:=N) s).
Proof.
  unfold sampleBimodalTransition.
  apply (consumes_bind (lo1:=1) (hi1:=1) (lo2:=1) (hi2:=2)).
  - apply consumes_random.
  - intros j. destruct (ltb j _).
    + eapply consumes_weaken; [| | apply consumes_sampleTriangular]; lia.
    + apply (consumes_bind (lo1:=1) (hi1:=1) (lo2:=0) (hi2:=1)).
      * apply consumes_random.
      * intros l.
        eapply consumes_weaken; [| | apply consumes_sampleTriangular]; lia.
Qed.

Lemma consumes_explorationMove s : consumes 1 2 (explorationMove (N:=N) s).
Proof.
  unfold explorationMove.
  destruct (ltb s _);
    [eapply consumes_weaken; [| | apply consumes_sampleTriangular]; lia |].
  destruct (ltb _ s);
    [eapply consumes_weaken; [| | apply consumes_sampleTriangular]; lia |].
  apply (consumes_bind (lo1:=1) (hi1:=1) (lo2:=0) (hi2:=1)).
  - apply consumes_random.
  - intros b.
    destruct (ltb b _);
      (eapply consumes_weaken; [| | apply consumes_sampleTriangular]; lia).
Qed.

Lemma consumes_changeState isTutorial t s :
  consumes 2 4 (changeState (N:=N) isTutorial t s).
Proof.
  unfold changeState. destruct (explorationDue isTutorial t).
  - apply (consumes_bind (lo1:=1) (hi1:=1) (lo2:=1) (hi2:=3)).
    + apply consumes_random.
    + intros e. destruct (ltb e _).
      * eapply consumes_weaken; [| | apply consumes_explorationMove]; lia.
      * eapply consumes_weaken; [| | apply consumes_sampleBimodalTransition]; lia.
  - eapply consumes_weaken; [| | apply consumes_sampleBimodalTransition]; lia.
Qed.

Lemma consumes_changeState_plain t s :
  explorationDue false t = false ->
  consumes 2 3 (changeState (N:=N) false t s).
Proof.
  intros Hdue. unfold changeState. rewrite Hdue.
  apply consumes_sampleBimodalTransition.
Qed.

(** A turn of the loop makes two draws when the trial is no change, and four
    to six when it is one. *)
Lemma trialStep_draws cond isTutorial tutorialPhase t s tau rng :
  exists k,
    snd (trialStep (N:=N) cond isTutorial tutorialPhase t s tau rng)
    = advances k rng
    /\ if change_flag
            (fst (fst (trialStep cond isTutorial tutorialPhase t s tau rng)))
       then (4 <= k <= 6)%nat else k = 2%nat.
Proof.
  unfold trialStep, stateUpdate, sampleTriangular, bind.
  cbn [random fst snd].
  destruct (ltb _ (hazardOf cond tau)).
  - destruct (consumes_changeState isTutorial t s (advance rng))
      as (k & Hk & E).
    destruct (changeState isTutorial t s (advance rng)) as [s' rng1].
    cbn [snd] in E. subst rng1. cbn [ret random fst snd change_flag].
    exists (S (S k)). split; [| lia].
    change (advance (advances k (advance rng)))
      with (advances 1 (advances k (advances 1 rng))).
    rewrite !advances_add. f_equal. lia.
  - cbn [ret random fst snd change_flag]. exists 2%nat. split; reflexivity.
Qed.

Lemma trialLoop_draws cond isTutorial tutorialPhase fuel :
  forall t s tau rng,
  exists k,
    snd (trialLoop (N:=N) cond isTutorial tutorialPhase fuel t s tau rng)
    = advances k rng
    /\ let trials :=
         fst (trialLoop cond isTutorial tutorialPhase fuel t s tau rng) in
       let changes := length (filter (@change_flag N) trials) in
       (2 * length trials + 2 * changes <= k
        <= 2 * length trials + 4 * changes)%nat.
Proof.
  induction fuel as [| fuel IH]; intros t s tau rng; cbn [trialLoop].
  - exists 0%nat. cbn. split; [reflexivity | lia].
  - unfold bind.
    destruct (trialStep_draws cond isTutorial tutorialPhase t s tau rng)
      as (k1 & E1 & Hk1).
    destruct (trialStep cond isTutorial tutorialPhase t s tau rng)
      as [[tr [s' tau']] rng1].
    cbn [fst snd] in E1, Hk1. subst rng1.
    destruct (IH (t + 1)%Z s' tau' (advances k1 rng)) as (k2 & E2 & Hk2).
    destruct (trialLoop cond isTutorial tutorialPhase fuel (t + 1) s' tau'
                (advances k1 rng)) as [rest rng2].
    cbn [fst snd ret] in *. subst rng2.
    exists (k1 + k2)%nat. split; [apply advances_add |].
    cbn [filter length]. destruct (change_flag tr); cbn [length]; lia.
Qed.

End Consumption.

(** X5.  The number of calls of [random()] that the samplers make:
    [sampleTriangular] one, [sampleBimodalTransition] two or three, the
    targeted exploration move one or two, and the choice of the new state of
    a change two to four (two or three outside the tutorial on a trial whose
    index is not a positive multiple of 50).  None of them touches the
    seed. *)
Theorem draws_of_the_samplers :
  forall (N : Type) (num : Number N),
    (forall c h : N, consumes 1 1 (sampleTriangular c h))
    /\ (forall s : N, consumes 2 3 (sampleBimodalTransition s))
    /\ (forall s : N, consumes 1 2 (explorationMove s))
    /\ (forall (isTutorial : bool) (t : Z) (s : N),
          consumes 2 4 (changeState isTutorial t s)
          /\ (isTutorial = false /\ ~ (0 < t /\ Z.rem t 50 = 0)%Z ->
              consumes 2 3 (changeState isTutorial t s)))
    /\ (forall (k : nat) (rng : SeededRandom),
          seed (advances k rng) = seed rng).
Proof.
  intros N num. split; [| split; [| split; [| split]]].
  - apply consumes_sampleTriangular.
  - apply consumes_sampleBimodalTransition.
  - apply consumes_explorationMove.
  - intros isTutorial t s. split; [apply consumes_changeState |].
    intros [-> Hnot]. apply consumes_changeState_plain.
    unfold explorationDue. cbn [orb].
    destruct (Z.ltb_spec 0 t) as [Hpos |]; [| reflexivity].
    destruct (Z.eqb_spec (Z.rem t 50) 0) as [Hrem |]; [| reflexivity].
    exfalso. apply Hnot. split; assumption.
  - intros k rng. induction k as [| k IH]; [reflexivity |].
    unfold advances in *. cbn [Nat.iter advance seed]. exact IH.
Qed.

(** X6.  A sequence of [n] trials of which [c] are changes makes one call of
    [random()] for the initial state, two for every trial and two to four
    more for every change: between [1 + 2n + 2c] and [1 + 2n + 4c] in all,
    and the stream it leaves is the stream it was given after that many
    calls. *)
Theorem draws_of_a_sequence :
  forall (N : Type) (num : Number N) (cond : Condition) (nTrials : Z)
         (isTutorial : bool) (tutorialPhase : option Z) (rng : SeededRandom),
    let run := generateSequence (N:=N) cond nTrials isTutorial tutorialPhase rng in
    let n := length (fst run) in
    let c := length (filter (@change_flag N) (fst run)) in
    exists k : nat,
      snd run = advances k rng
      /\ (1 + 2 * n + 2 * c <= k <= 1 + 2 * n + 4 * c)%nat
      /\ (c <= n)%nat.
Proof.
  intros N num cond nTrials isTutorial tutorialPhase rng run n c.
  subst run n c. unfold generateSequence, bind. cbn [random fst snd].
  destruct (trialLoop_draws cond isTutorial tutorialPhase (Z.to_nat nTrials) 0%Z
              (of_Z (current (advance rng)) / of_Z LCG_M * STATE_RANGE)%num 0%Z
              (advance rng)) as (k & E & Hk).
  cbn zeta in Hk. exists (S k). split; [| split].
  - rewrite E. change (advance rng) with (advances 1 rng).
    now rewrite advances_add.
  - lia.
  - apply filter_length_le.
Qed.

(** ** The samplers in exact arithmetic *)

Section Triangular.

Local Open Scope R_scope.

Lemma half : lit (N:=R) (5 # 10) = 1 / 2.
Proof. cbn [lit RealNumber]. unfold Q2R. cbn [Qnum Qden]. lra. Qed.

Lemma triangular_low (c h u : R) :
  u < 1 / 2 -> triangular (N:=R) c h u = c - h + h * R_sqrt.sqrt (2 * u).
Proof.
  intros H. unfold triangular. cbn [ltb add sub mul of_Z Math_sqrt RealNumber].
  rewrite half. unfold Rltb. destruct (Rlt_dec u (1 / 2)); [reflexivity | lra].
Qed.

Lemma triangular_high (c h u : R) :
  1 / 2 <= u -> triangular (N:=R) c h u = c + h - h * R_sqrt.sqrt (2 * (1 - u)).
Proof.
  intros H. unfold triangular. cbn [ltb add sub mul of_Z Math_sqrt RealNumber].
  rewrite half. unfold Rltb. destruct (Rlt_dec u (1 / 2)); [lra | reflexivity].
Qed.

Lemma sqrt_unit (x : R) : 0 <= x <= 1 -> 0 <= R_sqrt.sqrt x <= 1.
Proof.
  intros [H0 H1]. split; [apply sqrt_pos |].
  rewrite <- sqrt_1. apply sqrt_le_1_alt, H1.
Qed.

Lemma sqrt_below_1 (x : R) : 0 <= x < 1 -> R_sqrt.sqrt x < 1.
Proof.
  intros [H0 H1]. rewrite <- sqrt_1. apply sqrt_lt_1_alt. lra.
Qed.

Lemma triangular_within (c h u : R) :
  0 <= h -> 0 <= u < 1 -> within h c (triangular (N:=R) c h u).
Proof.
  intros Hh [Hu0 Hu1]. unfold within.
  destruct (Rlt_dec u (1 / 2)) as [Hlt | Hge].
  - rewrite triangular_low by exact Hlt.
    assert (Hs : 0 <= R_sqrt.sqrt (2 * u) <= 1) by (apply sqrt_unit; lra).
    nra.
  - rewrite triangular_high by lra.
    assert (Hs : 0 <= R_sqrt.sqrt (2 * (1 - u)) <= 1) by (apply sqrt_unit; lra).
    nra.
Qed.

Lemma triangular_increasing (c h u v : R) :
  0 < h -> 0 <= u -> u < v -> v < 1 -> triangular (N:=R) c h u < triangular (N:=R) c h v.
Proof.
  intros Hh Hu Huv Hv.
  destruct (Rlt_dec v (1 / 2)) as [Hv2 | Hv2].
  - rewrite !triangular_low by lra.
    assert (Hs : R_sqrt.sqrt (2 * u) < R_sqrt.sqrt (2 * v)) by (apply sqrt_lt_1_alt; lra).
    nra.
  - destruct (Rlt_dec u (1 / 2)) as [Hu2 | Hu2].
    + rewrite triangular_low by lra. rewrite triangular_high by lra.
      assert (Hs1 : R_sqrt.sqrt (2 * u) < 1) by (apply sqrt_below_1; lra).
      assert (Hs2 : 0 <= R_sqrt.sqrt (2 * (1 - v)) <= 1) by (apply sqrt_unit; lra).
      nra.
    + rewrite !triangular_high by lra.
      assert (Hs : R_sqrt.sqrt (2 * (1 - v)) < R_sqrt.sqrt (2 * (1 - u)))
        by (apply sqrt_lt_1_alt; lra).
      nra.
Qed.

Lemma triangular_mirror (c h u : R) :
  triangular (N:=R) c h u + triangular (N:=R) c h (1 - u) = 2 * c.
Proof.
  destruct (Rlt_dec u (1 / 2)) as [Hlt | Hge].
  - rewrite triangular_low by lra. rewrite (@triangular_high c h (1 - u)) by lra.
    replace (1 - (1 - u)) with u by lra. lra.
  - destruct (Rlt_dec (1 / 2) u) as [Hgt | Heq].
    + rewrite triangular_high by lra. rewrite (@triangular_low c h (1 - u)) by lra.
      lra.
    + assert (Hu : u = 1 / 2) by lra. subst u.
      replace (1 - 1 / 2) with (1 / 2) by lra.
      rewrite triangular_high by lra.
      replace (2 * (1 - 1 / 2)) with 1 by lra. rewrite sqrt_1. lra.
Qed.

Lemma clamp_monotone (x y : R) : x <= y -> clamp (N:=R) x <= clamp (N:=R) y.
Proof.
  intros H. unfold clamp, STATE_RANGE. cbn [Math_max Math_min of_Z RealNumber].
  unfold Rmax, Rmin.
  destruct (Rle_dec 300 x); destruct (Rle_dec 300 y);
    repeat match goal with
           | |- context [Rle_dec ?a ?b] => destruct (Rle_dec a b)
           end; lra.
Qed.

Lemma clamp_inside (x : R) : 0 <= x <= 300 -> clamp (N:=R) x = x.
Proof.
  intros H. unfold clamp, STATE_RANGE. cbn [Math_max Math_min of_Z RealNumber].
  unfold Rmax, Rmin.
  destruct (Rle_dec 300 x);
    repeat match goal with
           | |- context [Rle_dec ?a ?b] => destruct (Rle_dec a b)
           end; lra.
Qed.

Lemma clamp_bounds (x lo hi : R) :
  lo <= x <= hi -> lo <= 300 -> 0 <= hi ->
  Rmax 0 lo <= clamp (N:=R) x <= Rmin 300 hi.
Proof.
  intros H Hlo Hhi. unfold clamp, STATE_RANGE.
  cbn [Math_max Math_min of_Z RealNumber]. unfold Rmax, Rmin.
  destruct (Rle_dec 300 x);
    repeat match goal with
           | |- context [Rle_dec ?a ?b] => destruct (Rle_dec a b)
           end; lra.
Qed.

Lemma yields_sampleTriangular (c h : R) :
  0 <= h -> c - h <= 300 -> 0 <= c + h ->
  yields (fun x => Rmax 0 (c - h) <= x <= Rmin 300 (c + h))
         (sampleTriangular (N:=R) c h).
Proof.
  intros Hh Hlo Hhi rng Hrng. unfold sampleTriangular, bind.
  pose proof (random_unit rng Hrng) as Hu.
  destruct (random rng) as [u rng1]. cbn [fst ret] in *.
  apply clamp_bounds; [| assumption | assumption].
  apply triangular_within; assumption.
Qed.

Lemma yields_bind {A} (P : R -> Prop) (m : Rand A) (k : A -> Rand R) :
  preserves (fun r => (0 <= current r)%Z) m ->
  (forall a, yields P (k a)) -> yields P (bind m k).
Proof.
  intros Hm Hk rng Hrng. unfold bind. specialize (Hm rng Hrng).
  destruct (m rng) as [a rng1]. exact (Hk a rng1 Hm).
Qed.

Lemma yields_weaken (P Q : R -> Prop) (m : Rand R) :
  (forall x, P x -> Q x) -> yields P m -> yields Q m.
Proof. intros H Hm rng Hrng. apply H, Hm, Hrng. Qed.

End Triangular.

Section Near.

Local Open Scope R_scope.

Lemma likelihoodWidthOf_values (isTutorial : bool) (tutorialPhase : option Z) :
  likelihoodWidthOf (N:=R) isTutorial tutorialPhase = 10
  \/ likelihoodWidthOf (N:=R) isTutorial tutorialPhase = 20.
Proof.
  unfold likelihoodWidthOf, LIKELIHOOD_HALF_WIDTH.
  destruct (isTutorial && _); [left | right; reflexivity].
  cbn [mul of_Z lit RealNumber]. unfold Q2R. cbn [Qnum Qden]. lra.
Qed.

Lemma near_sampleTriangular (s w : R) :
  0 <= s <= 300 -> 0 <= w ->
  yields (fun x => Rabs (x - s) <= w) (sampleTriangular (N:=R) s w).
Proof.
  intros Hs Hw. eapply yields_weaken; [| apply yields_sampleTriangular; lra].
  cbn beta. intros x [Hlo Hhi].
  pose proof (Rmax_r 0 (s - w)). pose proof (Rmin_r 300 (s + w)).
  apply Rabs_le. lra.
Qed.

Variables (cond : Condition) (isTutorial : bool) (tutorialPhase : option Z).

Lemma trialStep_near t s tau rng :
  0 <= s <= 300 -> (0 <= current rng)%Z ->
  let tr := fst (fst (trialStep cond isTutorial tutorialPhase t s tau rng)) in
  Rabs (x_t tr - s_t tr) <= likelihood_width tr.
Proof.
  intros Hs Hrng.
  assert (Hw : 0 <= likelihoodWidthOf (N:=R) isTutorial tutorialPhase)
    by (destruct (likelihoodWidthOf_values isTutorial tutorialPhase) as [-> | ->];
        lra).
  unfold trialStep, stateUpdate, bind. cbn [random fst snd].
  pose proof (nonneg_advance rng Hrng) as H1.
  destruct (ltb _ (hazardOf cond tau)).
  - pose proof (lands_changeState isTutorial t s (advance rng)) as Hc.
    pose proof (@preserves_changeState R _ (fun r => (0 <= current r)%Z)
                  nonneg_advance isTutorial t s (advance rng) H1) as Hp.
    destruct (changeState isTutorial t s (advance rng)) as [s1 rng1].
    cbn [ret fst snd] in *. unfold STATE_RANGE in Hc. cbn [of_Z RealNumber] in Hc.
    pose proof (@near_sampleTriangular s1 _ Hc Hw rng1 Hp) as Ho.
    destruct (sampleTriangular _ _ rng1) as [obs rng2]. exact Ho.
  - cbn [ret fst snd].
    pose proof (@near_sampleTriangular s _ Hs Hw (advance rng) H1) as Ho.
    destruct (sampleTriangular _ _ (advance rng)) as [obs rng2]. exact Ho.
Qed.

Lemma trialLoop_near fuel : forall t s tau rng,
  0 <= s <= 300 -> (0 <= current rng)%Z ->
  Forall (fun tr => Rabs (x_t tr - s_t tr) <= likelihood_width tr)
    (fst (trialLoop cond isTutorial tutorialPhase fuel t s tau rng)).
Proof.
  induction fuel as [| fuel IH]; intros t s tau rng Hs Hrng; cbn [trialLoop].
  - constructor.
  - unfold bind.
    pose proof (@trialStep_near t s tau rng Hs Hrng) as Hn.
    assert (Hs300 : 0 <= s <= STATE_RANGE)
      by (unfold STATE_RANGE; cbn [of_Z RealNumber]; lra).
    pose proof (@trialStep_range cond isTutorial tutorialPhase t s tau rng Hs300)
      as Hr.
    pose proof (@preserves_trialStep R _ (fun r => (0 <= current r)%Z)
                  nonneg_advance cond isTutorial tutorialPhase t s tau rng Hrng)
      as Hp.
    destruct (trialStep _ _ _ _ _ _ _) as [[tr [s' tau']] rng1].
    cbn [fst snd] in *. destruct Hr as [_ Hs'].
    unfold STATE_RANGE in Hs'. cbn [of_Z RealNumber] in Hs'.
    specialize (IH (t + 1)%Z s' tau' rng1 Hs' Hp).
    destruct (trialLoop _ _ _ _ _ _ _ _) as [rest rng2].
    cbn [ret fst] in *. constructor; assumption.
Qed.

End Near.

(** X7.  In exact arithmetic, for a half-width [h > 0], the sample of
    [sampleTriangular] as a function of the uniform draw [u] of [[0, 1)]:
    it is [c - h] at [u = 0] and the centre [c] at [u = 1/2], it lies in
    [[c - h, c + h)], it grows strictly with [u], and the samples of [u] and
    [1 - u] are mirror images about the centre. *)
Theorem triangular_sample_shape :
  forall c h : R,
    (0 < h)%R ->
    triangular c h 0%R = (c - h)%R
    /\ triangular c h (1 / 2)%R = c
    /\ (forall u : R, (0 <= u < 1)%R ->
          (c - h <= triangular c h u < c + h)%R)
    /\ (forall u v : R, (0 <= u)%R -> (u < v)%R -> (v < 1)%R ->
          (triangular c h u < triangular c h v)%R)
    /\ (forall u : R,
          (triangular c h u + triangular c h (1 - u) = 2 * c)%R).
Proof.
  intros c h Hh. split; [| split; [| split; [| split]]].
  - rewrite triangular_low by lra.
    replace (2 * 0)%R with 0%R by lra. rewrite sqrt_0. lra.
  - rewrite triangular_high by lra.
    replace (2 * (1 - 1 / 2))%R with 1%R by lra. rewrite sqrt_1. lra.
  - intros u Hu.
    destruct (@triangular_within c h u ltac:(lra) Hu) as [Hlo Hhi].
    split; [exact Hlo |].
    destruct (Rlt_dec u (1 / 2)) as [Hlt | Hge].
    + rewrite triangular_low by exact Hlt.
      assert (Hs : (R_sqrt.sqrt (2 * u) < 1)%R) by (apply sqrt_below_1; lra).
      nra.
    + rewrite triangular_high by lra.
      assert (Hs : (0 < R_sqrt.sqrt (2 * (1 - u)))%R) by (apply sqrt_lt_R0; lra).
      nra.
  - intros u v Hu Huv Hv. now apply triangular_increasing.
  - apply triangular_mirror.
Qed.

(** X7 for the likelihood of the main trials, the half-width 20 about the
    state 150. *)
Lemma triangular_sample_shape_likelihood :
  (0 < 20)%R
  /\ triangular 150%R 20%R 0%R = (150 - 20)%R
  /\ triangular 150%R 20%R (1 / 2)%R = 150%R.
Proof.
  assert (H20 : (0 < 20)%R) by lra.
  split; [exact H20 |].
  destruct (triangular_sample_shape 150%R H20) as (H0 & Hhalf & _).
  split; [exact H0 | exact Hhalf].
Defined.

(** X8.  In exact arithmetic, from a stream whose state is not negative,
    the observation of every trial of a sequence is within the trial's
    [likelihood_width] of its state, and that width is 10 or 20. *)
Theorem observations_stay_near_the_state :
  forall (cond : Condition) (nTrials : Z) (isTutorial : bool)
         (tutorialPhase : option Z) (rng : SeededRandom),
    (0 <= current rng)%Z ->
    Forall (fun tr =>
              (Rabs (x_t tr - s_t tr) <= likelihood_width tr)%R
              /\ (likelihood_width tr = 10%R \/ likelihood_width tr = 20%R))
      (fst (generateSequence (N:=R) cond nTrials isTutorial tutorialPhase rng)).
Proof.
  intros cond nTrials isTutorial tutorialPhase rng Hrng.
  apply Forall_and.
  - unfold generateSequence, bind.
    pose proof (random_unit rng Hrng) as Hu.
    pose proof (nonneg_advance rng Hrng) as H1.
    cbn [random fst snd] in *.
    apply trialLoop_near; [| exact H1].
    unfold STATE_RANGE. cbn [mul div of_Z RealNumber] in *. lra.
  - apply generateSequence_Forall. intros t s tau rng'.
    pose proof (trialStep_fields cond isTutorial tutorialPhase t s tau rng') as Hf.
    destruct (trialStep cond isTutorial tutorialPhase t s tau rng')
      as [[tr [s' tau']] rng1].
    cbn [fst] in *. destruct Hf as (_ & _ & _ & _ & _ & _ & _ & Hw & _).
    rewrite Hw. apply likelihoodWidthOf_values.
Qed.

(** X8 for the first tutorial sequence of a session. *)
Lemma observations_stay_near_the_state_from_seed :
  (0 <= current (SeededRandom_new 12345))%Z
  /\ Forall (fun tr =>
               (Rabs (x_t tr - s_t tr) <= likelihood_width tr)%R
               /\ (likelihood_width tr = 10%R \/ likelihood_width tr = 20%R))
       (fst (generateSequence (N:=R) HI 10 true (Some 1%Z)
               (SeededRandom_new 12345))).
Proof.
  assert (H : (0 <= current (SeededRandom_new 12345))%Z) by (cbn; lia).
  split; [exact H |].
  exact (observations_stay_near_the_state HI 10 true (Some 1%Z) _ H).
Defined.

Section Moves.

Local Open Scope R_scope.

Lemma yields_random_then (P : R -> Prop) (k : R -> Rand R) :
  (forall u, yields P (k u)) -> yields P (bind (random (N:=R)) k).
Proof.
  intros H. apply yields_bind; [| exact H].
  intros rng Hrng. apply nonneg_advance, Hrng.
Qed.

Lemma tenths (n : Z) : lit (N:=R) (n # 10) = IZR n / 10.
Proof. cbn [lit RealNumber]. unfold Q2R. cbn [Qnum Qden]. lra. Qed.

Lemma hundredths (n : Z) : lit (N:=R) (n # 100) = IZR n / 100.
Proof. cbn [lit RealNumber]. unfold Q2R. cbn [Qnum Qden]. lra. Qed.

Lemma yields_triangular_between (c h lo hi : R) :
  0 <= h -> c - h <= 300 -> 0 <= c + h ->
  lo <= Rmax 0 (c - h) -> Rmin 300 (c + h) <= hi ->
  yields (fun x => lo <= x <= hi) (sampleTriangular (N:=R) c h).
Proof.
  intros Hh H1 H2 Hlo Hhi.
  eapply yields_weaken; [| apply yields_sampleTriangular; assumption].
  cbn beta. intros x Hx. lra.
Qed.

Lemma jump_sampleBimodalTransition (s : R) :
  0 <= s <= 300 ->
  yields (fun x => Rabs (x - s) <= 55 \/ 50 <= x <= 250)
         (sampleBimodalTransition (N:=R) s).
Proof.
  intros Hs. unfold sampleBimodalTransition.
  unfold STATE_RANGE, CHANGE_SEPARATION, CHANGE_SIZE_HALF_WIDTH.
  cbn [add sub mul div of_Z RealNumber].
  apply yields_random_then. intros j. destruct (ltb j _).
  - eapply yields_weaken;
      [| apply (@yields_triangular_between (300 / 2) (300 / 3) 50 250);
         try lra].
    + cbn beta. intros x Hx. right. exact Hx.
    + unfold Rmax. destruct (Rle_dec _ _); lra.
    + unfold Rmin. destruct (Rle_dec _ _); lra.
  - apply yields_random_then. intros l. destruct (ltb l _).
    + eapply yields_weaken;
        [| apply (@yields_triangular_between (s - 15) 40 (s - 55) (s + 55));
           try lra].
      * cbn beta. intros x Hx. left. apply Rabs_le. lra.
      * unfold Rmax. destruct (Rle_dec _ _); lra.
      * unfold Rmin. destruct (Rle_dec _ _); lra.
    + eapply yields_weaken;
        [| apply (@yields_triangular_between (s + 15) 40 (s - 55) (s + 55));
           try lra].
      * cbn beta. intros x Hx. left. apply Rabs_le. lra.
      * unfold Rmax. destruct (Rle_dec _ _); lra.
      * unfold Rmin. destruct (Rle_dec _ _); lra.
Qed.

Lemma jump_explorationMove (s : R) :
  yields (fun x =>
            (s < 90 -> 150 <= x <= 270)
            /\ (210 < s -> 30 <= x <= 150)
            /\ (90 <= s <= 210 -> 15 <= x <= 75 \/ 225 <= x <= 285))
         (explorationMove (N:=R) s).
Proof.
  unfold explorationMove, STATE_RANGE. rewrite !tenths, !hundredths.
  cbn [ltb mul of_Z RealNumber]. unfold Rltb.
  destruct (Rlt_dec s _) as [Hlow | Hlow].
  - eapply yields_weaken;
      [| apply (@yields_triangular_between _ _ 150 270); try lra].
    + cbn beta. intros x Hx. repeat split; intros; lra.
    + unfold Rmax. destruct (Rle_dec _ _); lra.
    + unfold Rmin. destruct (Rle_dec _ _); lra.
  - destruct (Rlt_dec _ s) as [Hhigh | Hhigh].
    + eapply yields_weaken;
        [| apply (@yields_triangular_between _ _ 30 150); try lra].
      * cbn beta. intros x Hx. repeat split; intros; lra.
      * unfold Rmax. destruct (Rle_dec _ _); lra.
      * unfold Rmin. destruct (Rle_dec _ _); lra.
    + apply yields_random_then. intros b. destruct (if Rlt_dec b _ then _ else _).
      * eapply yields_weaken;
          [| apply (@yields_triangular_between _ _ 15 75); try lra].
        -- cbn beta. intros x Hx. repeat split; intros; lra.
        -- unfold Rmax. destruct (Rle_dec _ _); lra.
        -- unfold Rmin. destruct (Rle_dec _ _); lra.
      * eapply yields_weaken;
          [| apply (@yields_triangular_between _ _ 225 285); try lra].
        -- cbn beta. intros x Hx. repeat split; intros; lra.
        -- unfold Rmax. destruct (Rle_dec _ _); lra.
        -- unfold Rmin. destruct (Rle_dec _ _); lra.
Qed.

End Moves.

(** X9.  In exact arithmetic, from a stream whose state is not negative and
    a state [s] of [[0, 300]]: the new state that [sampleBimodalTransition]
    draws is within 55 of [s] (a local jump) or in [[50, 250]] (a large
    jump); the targeted exploration move lands in [[150, 270]] when
    [s < 90], in [[30, 150]] when [s > 210], and in [[15, 75]] or
    [[225, 285]] otherwise, so it always moves the state by 15 or more. *)
Theorem changes_move_the_state :
  forall s : R,
    (0 <= s <= 300)%R ->
    yields (fun x => (Rabs (x - s) <= 55 \/ 50 <= x <= 250)%R)
           (sampleBimodalTransition s)
    /\ yields (fun x =>
                 ((s < 90 -> 150 <= x <= 270)
                  /\ (210 < s -> 30 <= x <= 150)
                  /\ (90 <= s <= 210 -> 15 <= x <= 75 \/ 225 <= x <= 285))%R)
              (explorationMove s)
    /\ yields (fun x => (15 <= Rabs (x - s) /\ 15 <= x <= 285)%R)
              (explorationMove s).
Proof.
  intros s Hs. split; [apply jump_sampleBimodalTransition, Hs |].
  split; [apply jump_explorationMove |].
  eapply yields_weaken; [| apply jump_explorationMove].
  cbn beta. intros x (Hlow & Hhigh & Hmid).
  destruct (Rlt_dec s 90) as [H1 | H1].
  - specialize (Hlow H1). split; [| lra].
    rewrite Rabs_pos_eq; lra.
  - destruct (Rlt_dec 210 s) as [H2 | H2].
    + specialize (Hhigh H2). split; [| lra].
      rewrite Rabs_left; lra.
    + destruct (Hmid ltac:(lra)) as [H | H]; (split; [| lra]).
      * rewrite Rabs_left; lra.
      * rewrite Rabs_pos_eq; lra.
Qed.

(** X9 from the middle of the range. *)
Lemma changes_move_the_state_from_150 :
  (0 <= 150 <= 300)%R
  /\ yields (fun x => (Rabs (x - 150) <= 55 \/ 50 <= x <= 250)%R)
            (sampleBimodalTransition 150%R)
  /\ yields (fun x => (15 <= Rabs (x - 150) /\ 15 <= x <= 285)%R)
            (explorationMove 150%R).
Proof.
  assert (H : (0 <= 150 <= 300)%R) by lra.
  split; [exact H |].
  destruct (changes_move_the_state H) as (Hjump & _ & Hmove).
  split; [exact Hjump | exact Hmove].
Defined.

(** ** The coverage analyzer on binary64 *)

Section FloatOrder.

Local Open Scope float_scope.

(** The comparison of binary64 numbers, seen from the other side. *)
Lemma SFcompare_antisym (x y : spec_float) :
  SFcompare y x = option_map CompOpp (SFcompare x y).
Proof.
  destruct x as [sx | sx | | sx mx ex]; destruct y as [sy | sy | | sy my ey];
    cbn; try reflexivity;
    try (destruct sx; reflexivity); try (destruct sy; reflexivity);
    try (destruct sx; destruct sy; reflexivity).
  destruct sx; destruct sy; cbn; try reflexivity;
    rewrite (Z.compare_antisym ex ey); destruct (ex ?= ey)%Z; cbn;
    try reflexivity;
    change (PosDef.Pos.compare_cont Eq my mx) with (Pos.compare my mx);
    change (PosDef.Pos.compare_cont Eq mx my) with (Pos.compare mx my);
    rewrite (Pos.compare_antisym mx my); destruct (Pos.compare mx my);
    reflexivity.
Qed.

Lemma is_nan_false (x : float) :
  is_nan x = false -> exists c, SFcompare (Prim2SF x) (Prim2SF x) = Some c.
Proof.
  intros Hn. unfold is_nan in Hn.
  rewrite negb_false_iff, FloatAxioms.eqb_spec in Hn. unfold SFeqb in Hn.
  destruct (SFcompare _ _) as [c |]; [now exists c | discriminate].
Qed.

Lemma SFcompare_defined (x y : spec_float) c d :
  SFcompare x x = Some c -> SFcompare y y = Some d ->
  exists r, SFcompare x y = Some r.
Proof.
  destruct x; destruct y; cbn; intros; try discriminate; eauto.
Qed.

Lemma SFcompare_refl_right (x y : spec_float) c :
  SFcompare x y = Some c -> SFcompare y y = Some Eq.
Proof.
  destruct x; destruct y as [sy | sy | | sy my ey]; cbn;
    try discriminate; intros _; try reflexivity;
    destruct sy; try reflexivity;
    now rewrite Z.compare_refl, Pos.compare_cont_refl.
Qed.

(** Between two numbers neither of which is NaN, [y <= x] is the negation
    of [x < y]. *)
Lemma float_leb_negb_ltb (x y : float) :
  is_nan x = false -> is_nan y = false -> (y <=? x) = negb (x <? y).
Proof.
  intros Hx Hy. apply is_nan_false in Hx, Hy.
  destruct Hx as [c Hc]. destruct Hy as [d Hd].
  destruct (SFcompare_defined _ _ Hc Hd) as [r Hr].
  rewrite FloatAxioms.ltb_spec, FloatAxioms.leb_spec. unfold SFltb, SFleb.
  rewrite SFcompare_antisym, Hr. destruct r; reflexivity.
Qed.

Lemma SFleb_trans (x y z : spec_float) :
  SFleb x y = true -> SFleb y z = true -> SFleb x z = true.
Proof.
  unfold SFleb.
  destruct x as [sx | sx | | sx mx ex]; destruct y as [sy | sy | | sy my ey];
    destruct z as [sz | sz | | sz mz ez]; cbn;
    try discriminate; try reflexivity;
    try destruct sx; try destruct sy; try destruct sz; cbn;
    try discriminate; try reflexivity; try (intros; assumption);
    change (PosDef.Pos.compare_cont Eq) with Pos.compare;
    repeat match goal with
           | |- context [(?a ?= ?b)%Z] => destruct (Z.compare_spec a b)
           end; cbn;
    try discriminate; try reflexivity; try lia;
    repeat match goal with
           | |- context [Pos.compare ?a ?b] => destruct (Pos.compare_spec a b)
           end; cbn;
    try discriminate; try reflexivity; try lia.
Qed.

Lemma float_leb_trans (x y z : float) :
  (x <=? y) = true -> (y <=? z) = true -> (x <=? z) = true.
Proof. rewrite !FloatAxioms.leb_spec. apply SFleb_trans. Qed.

Lemma float_leb_refl (x : float) : is_nan x = false -> (x <=? x) = true.
Proof.
  intros Hn. unfold is_nan in Hn.
  rewrite negb_false_iff, FloatAxioms.eqb_spec in Hn.
  rewrite FloatAxioms.leb_spec. unfold SFeqb in Hn. unfold SFleb.
  destruct (SFcompare _ _) as [[| |] |]; congruence.
Qed.

Lemma float_ltb_leb_trans (x y z : float) :
  is_nan x = false -> is_nan z = false ->
  (x <? y) = true -> (y <=? z) = true -> (x <? z) = true.
Proof.
  intros Hx Hz Hxy Hyz.
  destruct (x <? z) eqn:E; [reflexivity |].
  assert (Hzx : (z <=? x) = true) by (rewrite float_leb_negb_ltb, E; auto).
  pose proof (float_leb_trans Hyz Hzx) as Hyx.
  assert (Hy : is_nan y = false).
  { unfold is_nan. rewrite negb_false_iff, FloatAxioms.eqb_spec.
    rewrite FloatAxioms.ltb_spec in Hxy. unfold SFltb in Hxy. unfold SFeqb.
    destruct (SFcompare (Prim2SF x) (Prim2SF y)) as [c |] eqn:Ec;
      [| discriminate].
    now rewrite (SFcompare_refl_right _ _ Ec). }
  rewrite float_leb_negb_ltb, Hxy in Hyx by assumption. discriminate.
Qed.

End FloatOrder.

Section Quartile.

Local Open Scope float_scope.

(** There is one NaN. *)
Lemma is_nan_true (x : float) : is_nan x = true -> x = nan.
Proof.
  intros Hn. unfold is_nan in Hn.
  rewrite negb_true_iff, FloatAxioms.eqb_spec in Hn. unfold SFeqb in Hn.
  rewrite <- (SF2Prim_Prim2SF x).
  destruct (Prim2SF x) as [s | s | | s m e]; cbn in Hn.
  - discriminate.
  - destruct s; discriminate.
  - reflexivity.
  - rewrite Z.compare_refl, Pos.compare_cont_refl in Hn.
    destruct s; discriminate.
Qed.

Lemma nan_ltb_l (y : float) : (nan <? y) = false.
Proof. rewrite FloatAxioms.ltb_spec. reflexivity. Qed.

Lemma nan_leb_r (x : float) : (x <=? nan) = false.
Proof.
  rewrite FloatAxioms.leb_spec. change (Prim2SF nan) with S754_nan.
  unfold SFleb. now destruct (Prim2SF x).
Qed.

(** A state that is not NaN is in exactly one quartile, NaN is in none. *)
Lemma quartile_of_cases (s : float) :
  let quartiles :=
    [s <? 75; (75 <=? s) && (s <? 150); (150 <=? s) && (s <? 225);
     225 <=? s] in
  if is_nan s
  then quartiles = [false; false; false; false]
  else quartiles = [true; false; false; false]
       \/ quartiles = [false; true; false; false]
       \/ quartiles = [false; false; true; false]
       \/ quartiles = [false; false; false; true].
Proof.
  cbn zeta. destruct (is_nan s) eqn:Hn.
  - apply is_nan_true in Hn. subst s.
    now rewrite !nan_ltb_l, !nan_leb_r.
  - rewrite (@float_leb_negb_ltb s 75 Hn eq_refl),
      (@float_leb_negb_ltb s 150 Hn eq_refl),
      (@float_leb_negb_ltb s 225 Hn eq_refl).
    assert (H12 : (s <? 75) = true -> (s <? 150) = true).
    { intros H. now apply (@float_ltb_leb_trans s 75 150). }
    assert (H23 : (s <? 150) = true -> (s <? 225) = true).
    { intros H. now apply (@float_ltb_leb_trans s 150 225). }
    destruct (s <? 75); destruct (s <? 150); destruct (s <? 225); cbn;
      auto; try (specialize (H12 eq_refl); discriminate);
      try (specialize (H23 eq_refl); discriminate).
Qed.

Lemma quartile_counts (states : list float) :
  (length (filter (fun s => (s <? 75)%float) states)
   + length (filter (fun s => ((75 <=? s) && (s <? 150))%float) states)
   + length (filter (fun s => ((150 <=? s) && (s <? 225))%float) states)
   + length (filter (fun s => (225 <=? s)%float) states))%nat
  = length (filter (fun s => negb (is_nan s)) states).
Proof.
  induction states as [| s rest IH]; [reflexivity |].
  pose proof (quartile_of_cases s) as Hs. cbn zeta in Hs. cbn [filter].
  destruct (is_nan s); cbn [negb].
  - injection Hs as -> -> -> ->. exact IH.
  - destruct Hs as [Hs | [Hs | [Hs | Hs]]];
      injection Hs as -> -> -> ->; cbn [length]; lia.
Qed.

End Quartile.

(** X10.  The four quartile counts of [calculateQuartileDistribution] count
    every state that is not NaN exactly once and a NaN state not at all:
    they add up to the number of states that are not NaN, hence to the
    number of states when none is NaN; and the quartiles are those below
    75, from 75 and below 150, from 150 and below 225, and from 225. *)
Theorem quartile_counts_partition_the_states :
  forall states : list float,
    let d := Coverage.counts (Coverage.calculateQuartileDistribution states) in
    (Coverage.q1 d + Coverage.q2 d + Coverage.q3 d + Coverage.q4 d)%nat
    = length (filter (fun s => negb (is_nan s)) states)
    /\ (forallb (fun s => negb (is_nan s)) states = true ->
        (Coverage.q1 d + Coverage.q2 d + Coverage.q3 d + Coverage.q4 d)%nat
        = length states)
    /\ d = {| Coverage.q1 := length (filter (fun s => (s <? 75)%float) states);
              Coverage.q2 :=
                length (filter (fun s => ((75 <=? s) && (s <? 150))%float) states);
              Coverage.q3 :=
                length (filter (fun s => ((150 <=? s) && (s <? 225))%float) states);
              Coverage.q4 := length (filter (fun s => (225 <=? s)%float) states) |}.
Proof.
  intros states d.
  assert (Hd : d = {| Coverage.q1 := length (filter (fun s => (s <? 75)%float) states);
              Coverage.q2 :=
                length (filter (fun s => ((75 <=? s) && (s <? 150))%float) states);
              Coverage.q3 :=
                length (filter (fun s => ((150 <=? s) && (s <? 225))%float) states);
              Coverage.q4 := length (filter (fun s => (225 <=? s)%float) states) |})
    by reflexivity.
  rewrite Hd. cbn [Coverage.q1 Coverage.q2 Coverage.q3 Coverage.q4].
  split; [apply quartile_counts |]. split; [| reflexivity].
  intros Hall. rewrite quartile_counts. clear Hd d.
  induction states as [| s rest IH]; [reflexivity |].
  cbn [forallb] in Hall. apply andb_prop in Hall. destruct Hall as [Hs Hrest].
  cbn [filter]. rewrite Hs. cbn [length]. now rewrite IH.
Qed.


Section Extremes.

Local Open Scope float_scope.

Lemma is_zero_cases (a : float) :
  is_zero a = true -> a = zero \/ a = neg_zero.
Proof.
  unfold is_zero. rewrite FloatAxioms.eqb_spec. unfold SFeqb.
  change (Prim2SF zero) with (S754_zero false). intros H.
  rewrite <- (SF2Prim_Prim2SF a).
  destruct (Prim2SF a) as [s | s | | s m e]; cbn in H;
    try discriminate; destruct s; cbn in H; try discriminate; cbn; auto.
Qed.

(** Two numbers neither of which is below the other, the first a zero, are
    both zeros. *)
Lemma zero_pair (a b : float) :
  is_nan b = false -> is_zero a = true ->
  (a <? b) = false -> (b <? a) = false ->
  (a = zero \/ a = neg_zero) /\ (b = zero \/ b = neg_zero).
Proof.
  intros Hb Hz E1 E2. pose proof (is_zero_cases Hz) as Ha.
  split; [exact Ha |]. apply float_zero_cases; [exact Hb | |].
  - rewrite FloatAxioms.ltb_spec in *. destruct Ha as [-> | ->]; exact E1.
  - rewrite FloatAxioms.ltb_spec in *. destruct Ha as [-> | ->]; exact E2.
Qed.

Lemma min_cases (a b : float) :
  is_nan a = false -> is_nan b = false ->
  (F.min a b = a \/ F.min a b = b)
  /\ (F.min a b <=? a) = true /\ (F.min a b <=? b) = true.
Proof.
  intros Ha Hb. unfold F.min. rewrite Ha, Hb. cbn [orb].
  destruct (a <? b) eqn:E1.
  { split; [now left |]. split; [now apply float_leb_refl |].
    now apply float_ltb_leb. }
  destruct (b <? a) eqn:E2.
  { split; [now right |]. split; [now apply float_ltb_leb |].
    now apply float_leb_refl. }
  assert (Hab : (a <=? b) = true) by (rewrite float_leb_negb_ltb, E2; auto).
  assert (Hba : (b <=? a) = true) by (rewrite float_leb_negb_ltb, E1; auto).
  destruct (is_zero a) eqn:Hz.
  - destruct (zero_pair Hb Hz E1 E2) as [[-> | ->] [-> | ->]];
      vm_compute; auto.
  - split; [now left |]. split; [now apply float_leb_refl | exact Hab].
Qed.

Lemma max_cases (a b : float) :
  is_nan a = false -> is_nan b = false ->
  (F.max a b = a \/ F.max a b = b)
  /\ (a <=? F.max a b) = true /\ (b <=? F.max a b) = true.
Proof.
  intros Ha Hb. unfold F.max. rewrite Ha, Hb. cbn [orb].
  destruct (a <? b) eqn:E1.
  { split; [now right |]. split; [now apply float_ltb_leb |].
    now apply float_leb_refl. }
  destruct (b <? a) eqn:E2.
  { split; [now left |]. split; [now apply float_leb_refl |].
    now apply float_ltb_leb. }
  assert (Hab : (a <=? b) = true) by (rewrite float_leb_negb_ltb, E2; auto).
  assert (Hba : (b <=? a) = true) by (rewrite float_leb_negb_ltb, E1; auto).
  destruct (is_zero a) eqn:Hz.
  - destruct (zero_pair Hb Hz E1 E2) as [[-> | ->] [-> | ->]];
      vm_compute; auto.
  - split; [now left |]. split; [now apply float_leb_refl | exact Hba].
Qed.

Lemma fold_min (xs : list float) : forall acc : float,
  number acc -> Forall number xs ->
  let m := fold_left F.min xs acc in
  number m /\ (m = acc \/ In m xs) /\ (m <=? acc) = true
  /\ Forall (fun x => (m <=? x) = true) xs.
Proof.
  induction xs as [| x rest IH]; intros acc Hacc Hxs; cbn [fold_left].
  - cbn zeta. repeat split; auto. now apply float_leb_refl.
  - inversion Hxs as [| ? ? Hx Hrest]; subst.
    destruct (@min_cases acc x Hacc Hx) as (Hsel & Hle1 & Hle2).
    assert (Hm : number (F.min acc x)) by (destruct Hsel as [-> | ->]; assumption).
    destruct (IH (F.min acc x) Hm Hrest) as (Hn & Hin & Hle & Hall).
    cbn zeta. split; [exact Hn |]. split; [| split].
    + destruct Hin as [-> | Hin]; [| right; now right].
      destruct Hsel as [-> | ->]; [now left | right; now left].
    + exact (float_leb_trans Hle Hle1).
    + constructor; [exact (float_leb_trans Hle Hle2) | exact Hall].
Qed.

Lemma fold_max (xs : list float) : forall acc : float,
  number acc -> Forall number xs ->
  let m := fold_left F.max xs acc in
  number m /\ (m = acc \/ In m xs) /\ (acc <=? m) = true
  /\ Forall (fun x => (x <=? m) = true) xs.
Proof.
  induction xs as [| x rest IH]; intros acc Hacc Hxs; cbn [fold_left].
  - cbn zeta. repeat split; auto. now apply float_leb_refl.
  - inversion Hxs as [| ? ? Hx Hrest]; subst.
    destruct (@max_cases acc x Hacc Hx) as (Hsel & Hle1 & Hle2).
    assert (Hm : number (F.max acc x)) by (destruct Hsel as [-> | ->]; assumption).
    destruct (IH (F.max acc x) Hm Hrest) as (Hn & Hin & Hle & Hall).
    cbn zeta. split; [exact Hn |]. split; [| split].
    + destruct Hin as [-> | Hin]; [| right; now right].
      destruct Hsel as [-> | ->]; [now left | right; now left].
    + exact (float_leb_trans Hle1 Hle).
    + constructor; [exact (float_leb_trans Hle2 Hle) | exact Hall].
Qed.

Lemma infinity_leb (x : float) : (infinity <=? x) = true -> x = infinity.
Proof.
  rewrite FloatAxioms.leb_spec. change (Prim2SF infinity) with (S754_infinity false).
  unfold SFleb. intros H. rewrite <- (SF2Prim_Prim2SF x).
  destruct (Prim2SF x) as [s | s | | s m e]; cbn in H;
    try discriminate; destruct s; cbn in H; try discriminate; reflexivity.
Qed.

Lemma leb_neg_infinity (x : float) :
  (x <=? neg_infinity) = true -> x = neg_infinity.
Proof.
  rewrite FloatAxioms.leb_spec.
  change (Prim2SF neg_infinity) with (S754_infinity true).
  unfold SFleb. intros H. rewrite <- (SF2Prim_Prim2SF x).
  destruct (Prim2SF x) as [s | s | | s m e]; cbn in H;
    try discriminate; destruct s; cbn in H; try discriminate; reflexivity.
Qed.

End Extremes.

Section Spoiled.

Local Open Scope float_scope.

Lemma add_nan_l (y : float) : nan + y = nan.
Proof.
  rewrite <- (SF2Prim_Prim2SF (nan + y)), FloatAxioms.add_spec. reflexivity.
Qed.

Lemma add_nan_r (x : float) : x + nan = nan.
Proof.
  rewrite <- (SF2Prim_Prim2SF (x + nan)), FloatAxioms.add_spec.
  change (Prim2SF nan) with S754_nan. now destruct (Prim2SF x).
Qed.

Lemma div_nan_l (y : float) : nan / y = nan.
Proof.
  rewrite <- (SF2Prim_Prim2SF (nan / y)), FloatAxioms.div_spec. reflexivity.
Qed.

Lemma fold_nan (f : float -> float -> float) (xs : list float) :
  (forall y, f nan y = nan) -> fold_left f xs nan = nan.
Proof.
  intros Hf. induction xs as [| x rest IH]; cbn [fold_left];
    [reflexivity | now rewrite Hf].
Qed.

Lemma fold_spoiled (f : float -> float -> float) (xs : list float) :
  (forall y, f nan y = nan) -> (forall x, f x nan = nan) ->
  existsb is_nan xs = true -> forall acc, fold_left f xs acc = nan.
Proof.
  intros Hl Hr. induction xs as [| x rest IH]; cbn [existsb fold_left];
    [discriminate |].
  intros H acc. destruct (is_nan x) eqn:Hx.
  - apply is_nan_true in Hx. subst x. rewrite Hr. now apply fold_nan.
  - apply IH, H.
Qed.

Lemma min_nan_l y : F.min nan y = nan.
Proof. reflexivity. Qed.

Lemma min_nan_r x : F.min x nan = nan.
Proof. unfold F.min. now rewrite orb_true_r. Qed.

Lemma max_nan_l y : F.max nan y = nan.
Proof. reflexivity. Qed.

Lemma max_nan_r x : F.max x nan = nan.
Proof. unfold F.max. now rewrite orb_true_r. Qed.

End Spoiled.

(** X11.  For a main sequence that is not empty and whose values are not
    NaN, the [min] and the [max] of a range of [analyzeStateCoverage] are
    values of the sequence, and every value lies between them. *)
Theorem range_extremes_are_attained :
  forall xs : list float,
    xs <> [] -> Forall number xs ->
    let r := Coverage.rangeOf xs in
    In (Coverage.min r) xs /\ In (Coverage.max r) xs
    /\ Forall (fun x => (Coverage.min r <=? x)%float = true
                        /\ (x <=? Coverage.max r)%float = true) xs.
Proof.
  intros xs Hne Hxs r. subst r. cbn [Coverage.rangeOf Coverage.min Coverage.max].
  unfold Coverage.Math_min_of, Coverage.Math_max_of.
  destruct (@fold_min xs infinity eq_refl Hxs) as (_ & Hmin & _ & Hlow).
  destruct (@fold_max xs neg_infinity eq_refl Hxs) as (_ & Hmax & _ & Hhigh).
  cbn zeta in *. destruct xs as [| x rest]; [now elim Hne |].
  split; [| split].
  - destruct Hmin as [Hmin | Hmin]; [| exact Hmin].
    rewrite Hmin in *. inversion Hlow as [| ? ? Hx _]; subst.
    left. now apply infinity_leb.
  - destruct Hmax as [Hmax | Hmax]; [| exact Hmax].
    rewrite Hmax in *. inversion Hhigh as [| ? ? Hx _]; subst.
    left. now apply leb_neg_infinity.
  - apply Forall_and; assumption.
Qed.

(** X11 on three states. *)
Lemma range_extremes_are_attained_of_three :
  let xs := [120; 45.5; 280]%float in
  Coverage.min (Coverage.rangeOf xs) = 45.5%float
  /\ Coverage.max (Coverage.rangeOf xs) = 280%float
  /\ In (Coverage.min (Coverage.rangeOf xs)) xs
  /\ In (Coverage.max (Coverage.rangeOf xs)) xs.
Proof.
  intros xs.
  assert (Hne : xs <> []) by discriminate.
  assert (Hxs : Forall number xs) by (repeat constructor).
  destruct (range_extremes_are_attained Hne Hxs) as (Hmin & Hmax & _).
  split; [reflexivity |]. split; [reflexivity |].
  split; [exact Hmin | exact Hmax].
Defined.

(** X12.  A single NaN among the values spoils the range that
    [analyzeStateCoverage] reports for them: [min], [max], [mean] and
    [coverage] are all NaN. *)
Theorem nan_spoils_the_range :
  forall xs : list float,
    existsb PrimFloat.is_nan xs = true ->
    Coverage.rangeOf xs
    = {| Coverage.min := nan; Coverage.max := nan;
         Coverage.mean := nan; Coverage.coverage := nan |}.
Proof.
  intros xs H. unfold Coverage.rangeOf, Coverage.Math_min_of,
    Coverage.Math_max_of, Coverage.sum.
  rewrite (fold_spoiled F.min xs min_nan_l min_nan_r H).
  rewrite (fold_spoiled F.max xs max_nan_l max_nan_r H).
  rewrite (fold_spoiled PrimFloat.add xs add_nan_l add_nan_r H).
  rewrite div_nan_l. reflexivity.
Qed.

(** X12 on a sequence of two values. *)
Lemma nan_spoils_the_range_of_two :
  existsb PrimFloat.is_nan [120%float; nan] = true
  /\ Coverage.rangeOf [120%float; nan]
     = {| Coverage.min := nan; Coverage.max := nan;
          Coverage.mean := nan; Coverage.coverage := nan |}.
Proof.
  assert (H : existsb PrimFloat.is_nan [120%float; nan] = true) by reflexivity.
  split; [exact H | exact (nan_spoils_the_range _ H)].
Defined.

(** ** ExperimentUtils: positions and points *)

Section Utils.

Local Open Scope R_scope.

Lemma calculatePoints_real (clickX trueState : R) :
  ExperimentUtils.calculatePoints clickX trueState
  = IZR (Z.max 0 (100 - Zfloor (Rabs (clickX - trueState) * 2))).
Proof.
  unfold ExperimentUtils.calculatePoints.
  cbn [Math_max Math_abs Math_floor sub mul of_Z RealNumber RealFloor].
  rewrite <- minus_IZR. unfold Rmax.
  destruct (Rle_dec 0 _) as [H | H].
  - apply le_IZR in H. f_equal. lia.
  - assert (Hlt : (100 - Zfloor (Rabs (clickX - trueState) * 2) < 0)%Z).
    { apply Z.nle_gt. intros Hge. apply H. now apply IZR_le. }
    f_equal. lia.
Qed.

Lemma Zfloor_nonneg (x : R) : 0 <= x -> (0 <= Zfloor x)%Z.
Proof. intros H. apply Zfloor_lub. exact H. Qed.

End Utils.

(** X13.  In exact arithmetic, for a screen of width [w > 0]:
    [screenToState] undoes [stateToScreen] and the other way round; states of
    [[0, 300]] go to positions of [[0, w]] and positions of [[0, w]] to
    states of [[0, 300]]; both conversions preserve the order.  On binary64
    a screen of width 0 gives no state: [screenToState] is [Infinity] or
    NaN. *)
Theorem screen_and_state_round_trip :
  forall w : R,
    (0 < w)%R ->
    (forall s : R,
       ExperimentUtils.screenToState (ExperimentUtils.stateToScreen s w) w = s)
    /\ (forall x : R,
          ExperimentUtils.stateToScreen (ExperimentUtils.screenToState x w) w = x)
    /\ (forall s : R, (0 <= s <= 300)%R ->
          (0 <= ExperimentUtils.stateToScreen s w <= w)%R)
    /\ (forall x : R, (0 <= x <= w)%R ->
          (0 <= ExperimentUtils.screenToState x w <= 300)%R)
    /\ (forall s s' : R, (s < s')%R ->
          (ExperimentUtils.stateToScreen s w
           < ExperimentUtils.stateToScreen s' w)%R)
    /\ (forall x x' : R, (x < x')%R ->
          (ExperimentUtils.screenToState x w
           < ExperimentUtils.screenToState x' w)%R)
    /\ ExperimentUtils.screenToState 5%float 0%float = infinity
    /\ ExperimentUtils.screenToState 0%float 0%float = nan.
Proof.
  intros w Hw.
  unfold ExperimentUtils.screenToState, ExperimentUtils.stateToScreen.
  cbn [mul div of_Z RealNumber].
  assert (Hinv : (0 < / w)%R) by now apply Rinv_0_lt_compat.
  split; [| split; [| split; [| split; [| split; [| split; [| split]]]]]].
  - intros s. field. lra.
  - intros x. field. lra.
  - intros s Hs. split.
    + apply Rmult_le_pos; lra.
    + replace w with (300 / 300 * w)%R at 2 by field.
      apply Rmult_le_compat_r; lra.
  - intros x Hx. unfold Rdiv. split.
    + apply Rmult_le_pos; [apply Rmult_le_pos |]; lra.
    + assert (H1 : (x * / w <= 1)%R).
      { replace 1%R with (w * / w)%R by (field; lra).
        apply Rmult_le_compat_r; lra. }
      lra.
  - intros s s' Hs. apply Rmult_lt_compat_r; lra.
  - intros x x' Hx. unfold Rdiv.
    apply Rmult_lt_compat_r; [lra |]. apply Rmult_lt_compat_r; lra.
  - vm_compute. reflexivity.
  - vm_compute. reflexivity.
Qed.

(** X13 for the canvas of the experiment, 800 wide. *)
Lemma screen_and_state_round_trip_canvas :
  (0 < 800)%R
  /\ ExperimentUtils.screenToState
       (ExperimentUtils.stateToScreen 150%R 800%R) 800%R = 150%R.
Proof.
  assert (H : (0 < 800)%R) by lra.
  split; [exact H | exact (proj1 (screen_and_state_round_trip H) 150%R)].
Defined.

(** X14.  In exact arithmetic the score of a click at distance [d] from the
    true state is a whole number of [[0, 100]]: [100 - floor(2 d)] while
    [d < 50] and 0 from 50 on; it is 100 exactly when [d < 1/2], 0 exactly
    when [d >= 50]; it does not grow with the distance, and it is the same
    from either side.  On binary64 a click that is NaN scores NaN. *)
Theorem score_of_a_click :
  forall clickX trueState : R,
    let d := Rabs (clickX - trueState) in
    let points := ExperimentUtils.calculatePoints clickX trueState in
    (exists k : Z,
       points = IZR k /\ (0 <= k <= 100)%Z
       /\ (k = 100%Z <-> (d < 1 / 2)%R)
       /\ (k = 0%Z <-> (50 <= d)%R)
       /\ ((d < 50)%R -> k = (100 - Zfloor (d * 2))%Z))
    /\ (forall clickX' : R,
          (Rabs (clickX' - trueState) <= d)%R ->
          (points <= ExperimentUtils.calculatePoints clickX' trueState)%R)
    /\ ExperimentUtils.calculatePoints trueState clickX = points
    /\ ExperimentUtils.calculatePoints nan 100%float = nan.
Proof.
  intros clickX trueState d points. subst points.
  rewrite calculatePoints_real. fold d.
  assert (Hd : (0 <= d)%R) by apply Rabs_pos.
  pose proof (Zfloor_bound (d * 2)) as Hfl.
  assert (H0 : (0 <= Zfloor (d * 2))%Z) by (apply Zfloor_nonneg; lra).
  split; [| split; [| split]].
  - exists (Z.max 0 (100 - Zfloor (d * 2))). split; [reflexivity |].
    split; [lia |]. split; [| split].
    + split.
      * intros Hk. assert (Hz : Zfloor (d * 2) = 0%Z) by lia.
        rewrite Hz in Hfl. lra.
      * intros Hlt. assert (Hz : Zfloor (d * 2) = 0%Z)
          by (apply Zfloor_eq; lra).
        rewrite Hz. reflexivity.
    + split.
      * intros Hk. assert (Hz : (100 <= Zfloor (d * 2))%Z) by lia.
        apply IZR_le in Hz. lra.
      * intros Hge. assert (Hz : (100 <= Zfloor (d * 2))%Z)
          by (apply Zfloor_lub; lra).
        lia.
    + intros Hlt. assert (Hz : (Zfloor (d * 2) < 100)%Z).
      { apply lt_IZR. lra. }
      lia.
  - intros clickX' Hle. rewrite calculatePoints_real. apply IZR_le.
    assert (Hm : (Zfloor (Rabs (clickX' - trueState) * 2) <= Zfloor (d * 2))%Z)
      by (apply Zfloor_le; lra).
    lia.
  - rewrite calculatePoints_real. unfold d.
    now rewrite (Rabs_minus_sym trueState clickX).
  - vm_compute. reflexivity.
Qed.


(** ** NeuroStateExperiment: the flow of the trials *)

Section Flow.

Import NeuroStateExperiment.

Context {N : Type} {num : Number N} {fl : Floor N}.
Variables (seqs : Sequences N) (cond : Condition).
Hypothesis five : length (tutorials (sequences_of seqs cond)) = 5%nat.

Ltac fields :=
  cbn [participantID stimulusGenerator NeuroStateExperiment.condition
       blockIdx trialIdx totalScore currentTrial sequences tutorialPhase
       isTutorial showPastDotsFlag showTrueState currentTrials trials timers
       completed endExperiment].

Lemma blocksOf_length : length (blocksOf seqs cond) = 6%nat.
Proof. unfold blocksOf. rewrite length_app, five. reflexivity. Qed.

Lemma blocksOf_tutorial (b : nat) :
  (b < 5)%nat ->
  element (tutorials (sequences_of seqs cond)) (Z.of_nat b + 1 - 1)
  = Some (nth b (blocksOf seqs cond) []).
Proof.
  intros Hb. unfold element.
  destruct (Z.ltb_spec (Z.of_nat b + 1 - 1) 0) as [H | _]; [lia |].
  replace (Z.to_nat (Z.of_nat b + 1 - 1)) with b by lia.
  unfold blocksOf. rewrite app_nth1 by lia.
  apply nth_error_nth'. lia.
Qed.

Lemma blocksOf_main :
  nth 5 (blocksOf seqs cond) [] = main (sequences_of seqs cond).
Proof.
  unfold blocksOf. rewrite app_nth2 by lia. rewrite five. reflexivity.
Qed.

Lemma remaining_next_block (b : nat) :
  (b < 5)%nat ->
  remaining seqs cond b (length (nth b (blocksOf seqs cond) []))
  = remaining seqs cond (S b) 0.
Proof.
  intros Hb. unfold remaining. rewrite skipn_all. cbn [app].
  pose proof blocksOf_length as Hlen.
  assert (Hs : skipn (S b) (blocksOf seqs cond)
               = nth (S b) (blocksOf seqs cond) []
                 :: skipn (S (S b)) (blocksOf seqs cond)).
  { remember (blocksOf seqs cond) as l eqn:El. clear El.
    assert (Hlt : (S b < length l)%nat) by lia. clear Hlen Hb.
    revert l Hlt. generalize (S b) as k.
    induction k as [| k IH]; intros l Hlt; destruct l as [| x l];
      cbn in *; try lia; [reflexivity |].
    apply IH. lia. }
  rewrite Hs. reflexivity.
Qed.

Lemma remaining_end :
  remaining seqs cond 5 (length (nth 5 (blocksOf seqs cond) [])) = [].
Proof.
  unfold remaining. rewrite skipn_all. cbn [app].
  rewrite skipn_all2; [reflexivity |]. rewrite blocksOf_length. lia.
Qed.

Lemma remaining_step (b i : nat) tr rest :
  remaining seqs cond b i = tr :: rest ->
  (i < length (nth b (blocksOf seqs cond) []))%nat ->
  nth_error (nth b (blocksOf seqs cond) []) i = Some tr
  /\ remaining seqs cond b (S i) = rest.
Proof.
  unfold remaining. intros H Hi.
  remember (nth b (blocksOf seqs cond) []) as block eqn:Eb. clear Eb.
  revert i H Hi. induction block as [| x block IH]; intros i H Hi;
    [cbn in Hi; lia |].
  destruct i as [| i].
  - cbn in H. injection H as -> <-. split; reflexivity.
  - cbn [skipn nth_error] in *. apply IH; [exact H | cbn in Hi; lia].
Qed.

(** [startTrial] shows the next trial that remains, in this block or in
    the first of the following blocks that is not empty, and ends the
    experiment when none remains. *)
Lemma startTrial_positioned (fuel : nat) : forall (b i : nat) (e : State N),
  positioned seqs cond e b i ->
  (i <= length (nth b (blocksOf seqs cond) []))%nat ->
  (6 - b <= fuel)%nat ->
  exists e',
    startTrial fuel e = Done e' /\ same_data e e'
    /\ match remaining seqs cond b i with
       | [] => completed e' = true
       | tr :: _ =>
           exists b' i',
             positioned seqs cond e' b' i'
             /\ (i' < length (nth b' (blocksOf seqs cond) []))%nat
             /\ currentTrial e' = Some tr
             /\ remaining seqs cond b' i' = remaining seqs cond b i
       end.
Proof.
  induction fuel as [| fuel IH]; intros b i e Hpos Hi Hfuel.
  { destruct Hpos as (_ & _ & _ & _ & _ & _ & _ & _ & Hb & _). lia. }
  pose proof Hpos
    as (Hseq & Hcond & Htut & Hphase & Hblock & Hidx & Hbi & Hdone & Hb & Hgen).
  cbn [startTrial]. rewrite Hblock, Hidx.
  destruct (Z.leb_spec (Z.of_nat (length (nth b (blocksOf seqs cond) [])))
              (Z.of_nat i)) as [Hend | Hin].
  - assert (Hi' : i = length (nth b (blocksOf seqs cond) [])) by lia.
    subst i. unfold endBlock. rewrite Htut.
    destruct (Nat.ltb_spec b 5) as [Hb5 | Hb5].
    + rewrite Hphase.
      destruct (Z.ltb_spec (Z.of_nat b + 1) 5) as [Hp | Hp].
      * (* the next phase of the tutorial *)
        unfold startBlock. cbn [sequences isTutorial tutorialPhase
                                NeuroStateExperiment.condition].
        rewrite Hseq, Hcond.
        replace (Z.of_nat b + 1 + 1 - 1)%Z with (Z.of_nat (S b) + 1 - 1)%Z by lia.
        rewrite blocksOf_tutorial by lia.
        match goal with
        | |- exists e', startTrial fuel ?e1 = _ /\ _ =>
            destruct (IH (S b) 0%nat e1) as (e' & Hrun & Hsame & Hrem)
        end.
        { unfold positioned. fields.
          destruct (Nat.ltb_spec (S b) 5) as [_ | Hc]; [| lia].
          repeat split; auto; try lia. f_equal. lia. }
        { lia. }
        { lia. }
        exists e'. split; [exact Hrun |]. split; [exact Hsame |].
        rewrite remaining_next_block by lia. exact Hrem.
      * (* the main experiment *)
        assert (Hb4 : b = 4%nat) by lia. subst b.
        unfold startMainExperiment, startBlock.
        cbn [sequences isTutorial tutorialPhase
             NeuroStateExperiment.condition].
        rewrite Hseq, Hcond.
        match goal with
        | |- exists e', startTrial fuel ?e1 = _ /\ _ =>
            destruct (IH 5%nat 0%nat e1) as (e' & Hrun & Hsame & Hrem)
        end.
        { unfold positioned. fields. rewrite blocksOf_main.
          repeat split; auto. }
        { lia. }
        { lia. }
        exists e'. split; [exact Hrun |]. split; [exact Hsame |].
        rewrite remaining_next_block by lia. exact Hrem.
    + assert (Hb5' : b = 5%nat) by lia. subst b.
      exists (endExperiment e). split; [reflexivity |].
      split; [repeat split |]. rewrite remaining_end. reflexivity.
  - assert (Hlt : (i < length (nth b (blocksOf seqs cond) []))%nat) by lia.
    unfold element.
    destruct (Z.ltb_spec (Z.of_nat i) 0) as [Hneg | _]; [lia |].
    rewrite Nat2Z.id.
    destruct (nth_error (nth b (blocksOf seqs cond) []) i) as [tr |] eqn:Etr.
    2:{ apply nth_error_None in Etr. lia. }
    destruct (stimulusGenerator e) as [g |] eqn:Eg; [| congruence].
    eexists. split; [reflexivity |].
    split; [repeat split; try reflexivity; fields; congruence |].
    destruct (remaining seqs cond b i) as [| tr' rest] eqn:Erem.
    { unfold remaining in Erem. apply app_eq_nil in Erem.
      destruct Erem as [Hnil _].
      apply (f_equal (@length _)) in Hnil. rewrite length_skipn in Hnil.
      cbn in Hnil. lia. }
    pose proof (remaining_step b Erem Hlt) as Hstep.
    destruct Hstep as [Hnth _].
    exists b, i. split; [| split; [exact Hlt | split]].
    + unfold positioned. fields. repeat split; auto.
    + fields. congruence.
    + exact Erem.
Qed.

End Flow.

Section Clicks.

Import NeuroStateExperiment.

Context {N : Type} {num : Number N} {fl : Floor N}.
Variables (seqs : Sequences N) (cond : Condition).
Hypothesis five : length (tutorials (sequences_of seqs cond)) = 5%nat.

Ltac fields :=
  cbn [participantID stimulusGenerator NeuroStateExperiment.condition
       blockIdx trialIdx totalScore currentTrial sequences tutorialPhase
       isTutorial showPastDotsFlag showTrueState currentTrials trials timers
       completed endExperiment].

Ltac fields_everywhere :=
  cbn [participantID stimulusGenerator NeuroStateExperiment.condition
       blockIdx trialIdx totalScore currentTrial sequences tutorialPhase
       isTutorial showPastDotsFlag showTrueState currentTrials trials timers
       completed endExperiment] in *.

(** A click on the trial that is shown, and its timeout. *)
Lemma click_then_timeout (e : State N) (b i : nat) tr rest clickX clickTime now :
  positioned seqs cond e b i ->
  (i < length (nth b (blocksOf seqs cond) []))%nat ->
  currentTrial e = Some tr ->
  remaining seqs cond b i = tr :: rest ->
  timers e = 0%nat ->
  exists e' entry,
    run [Click clickX clickTime now; Timer] e = Done e'
    /\ trials e' = trials e ++ [entry]
    /\ shown entry = shown_of tr
    /\ stamped (participantID e) cond entry
    /\ participantID e' = participantID e
    /\ timers e' = 0%nat
    /\ match rest with
       | [] => completed e' = true
       | tr' :: _ =>
           exists b' i',
             positioned seqs cond e' b' i'
             /\ (i' < length (nth b' (blocksOf seqs cond) []))%nat
             /\ currentTrial e' = Some tr'
             /\ remaining seqs cond b' i' = rest
       end.
Proof.
  intros Hpos Hi Htr Hrem Htimers.
  pose proof Hpos
    as (Hseq & Hcond & Htut & Hphase & Hblock & Hidx & Hbi & Hdone & Hb & Hgen).
  destruct (stimulusGenerator e) as [g |] eqn:Eg; [| congruence].
  cbn [run handle]. rewrite Hdone. unfold handleClick. rewrite Eg, Htr.
  cbn [run handle]. fields. rewrite Htimers. unfold timeout. fields.
  match goal with
  | |- exists e' entry, match startTrial blocks ?e1 with _ => _ end = _ /\ _ =>
      destruct (@startTrial_positioned N seqs cond five blocks b (S i) e1)
        as (e' & Hrun & Hsame & Hnext)
  end.
  { unfold positioned. fields.
    repeat split; auto; try lia; try discriminate. }
  { lia. }
  { unfold blocks. lia. }
  destruct Hsame as (Hid & Hscore & Hlog & Htim & Hdots & _).
  fields_everywhere.
  pose proof (@remaining_step N seqs cond five b i tr rest Hrem Hi) as Hstep.
  destruct Hstep as [_ Hrest]. rewrite Hrest in Hnext.
  rewrite Hrun. eexists. eexists. split; [reflexivity |].
  split; [exact Hlog |]. split; [reflexivity |].
  split; [unfold stamped; cbn [Logged.pid Logged.condition Logged.block_idx];
          repeat split; assumption |].
  split; [exact Hid |].
  split; [exact Htim |].
  destruct rest as [| tr' rest']; [exact Hnext |].
  destruct Hnext as (b' & i' & Hpos' & Hi' & Hcur & Hrem').
  exists b', i'.
  split; [exact Hpos' | split; [exact Hi' | split; [exact Hcur | exact Hrem']]].
Qed.

(** A participant who clicks once on each trial sees the trials that remain
    one after the other, and each is logged. *)
Lemma run_clicks (clicks : list (N * N * N)) :
  forall (e : State N) (b i : nat) tr rest,
    positioned seqs cond e b i ->
    (i < length (nth b (blocksOf seqs cond) []))%nat ->
    currentTrial e = Some tr ->
    remaining seqs cond b i = tr :: rest ->
    timers e = 0%nat ->
    (length clicks <= length (tr :: rest))%nat ->
    exists e',
      run (oneClickPerTrial clicks) e = Done e'
      /\ (exists new,
            trials e' = trials e ++ new
            /\ map (@shown N) new
               = map (@shown_of N) (firstn (length clicks) (tr :: rest))
            /\ Forall (stamped (participantID e) cond) new)
      /\ completed e' = (length clicks =? length (tr :: rest))%nat.
Proof.
  induction clicks as [| [[clickX clickTime] now] clicks IH];
    intros e b i tr rest Hpos Hi Htr Hrem Htimers Hlen.
  - exists e. split; [reflexivity |]. split.
    + exists []. rewrite app_nil_r. repeat split. constructor.
    + destruct Hpos as (_ & _ & _ & _ & _ & _ & _ & Hdone & _). exact Hdone.
  - destruct (click_then_timeout clickX clickTime now Hpos Hi Htr Hrem Htimers)
      as (e1 & entry & Hrun & Hlog & Hshown & Hstamp & Hid & Htim & Hnext).
    change (oneClickPerTrial ((clickX, clickTime, now) :: clicks))
      with ([Click clickX clickTime now; Timer] ++ oneClickPerTrial clicks).
    assert (Hsplit : forall evs,
               run ([Click clickX clickTime now; Timer] ++ evs) e = run evs e1).
    { intros evs. cbn [run app] in *.
      destruct (handle (Click clickX clickTime now) e) as [ea | |];
        try discriminate.
      destruct (handle Timer ea) as [eb | |]; try discriminate.
      now injection Hrun as ->. }
    rewrite Hsplit. cbn [length] in Hlen.
    destruct rest as [| tr' rest'].
    + assert (Hnil : clicks = []) by (destruct clicks; [reflexivity | cbn in Hlen; lia]).
      subst clicks. exists e1. split; [reflexivity |]. split.
      * exists [entry]. split; [exact Hlog |]. split.
        -- cbn. now rewrite Hshown.
        -- constructor; [exact Hstamp | constructor].
      * exact Hnext.
    + destruct Hnext as (b' & i' & Hpos' & Hi' & Hcur & Hrem').
      destruct (IH e1 b' i' tr' rest' Hpos' Hi' Hcur Hrem' Htim) as
        (e' & Hrun' & (new & Hlog' & Hshown' & Hstamp') & Hdone');
        [cbn [length] in *; lia |].
      exists e'. split; [exact Hrun' |]. split.
      * exists (entry :: new). split.
        -- rewrite Hlog', Hlog, <- app_assoc. reflexivity.
        -- split.
           ++ cbn [length firstn map]. now rewrite Hshown, Hshown'.
           ++ constructor; [exact Hstamp |]. now rewrite <- Hid.
      * rewrite Hdone'. reflexivity.
Qed.

End Clicks.

Section Session.

Context {N : Type} {num : Number N} {fl : Floor N}.

Lemma remaining_session (seqs : Sequences N) (cond : Condition) :
  length (tutorials (sequences_of seqs cond)) = 5%nat ->
  remaining seqs cond 0 0 = session seqs cond.
Proof.
  intros five. unfold remaining, session, blocksOf.
  destruct (tutorials (sequences_of seqs cond)) as [| t1 rest];
    [discriminate |].
  cbn [app nth skipn concat]. rewrite concat_app. cbn [concat].
  now rewrite app_nil_r, app_assoc.
Qed.

(** The blocks that [generateAllSequences] makes for a condition: five
    tutorial blocks of 70 trials in all, and the main block. *)
Lemma generated_session (trialCount : Z) (cond : Condition) :
  let seqs :=
    fst (generateAllSequences (N:=N) (StimulusGenerator_new trialCount)) in
  length (tutorials (sequences_of seqs cond)) = 5%nat
  /\ length (session seqs cond) = (70 + Z.to_nat trialCount)%nat.
Proof.
  pose proof (generateAllSequences_calls (N:=N) (StimulusGenerator_new trialCount))
    as Hall.
  assert (Hlen : forall c n t p r l r',
             generateSequence (N:=N) c n t p r = (l, r') -> length l = Z.to_nat n).
  { intros c n t p r l r' E.
    pose proof (generateSequence_length c n t p r) as H. now rewrite E in H. }
  repeat match goal with
         | Hc : context [generateSequence ?c ?n ?t ?p ?r] |- _ =>
             let E := fresh "E" in
             destruct (generateSequence c n t p r) as [? ?] eqn:E;
             apply Hlen in E
         end.
  cbn zeta. rewrite Hall. unfold session.
  destruct cond; cbn [fst sequences_of sequences_HI sequences_HD tutorials main];
    (split; [reflexivity |]); cbn [concat]; rewrite !length_app;
    cbn [length]; cbn [MAIN_TRIALS StimulusGenerator_new] in *; lia.
Qed.

End Session.

(** The run of a session in which every trial is clicked once. *)
Lemma session_run :
  forall (N : Type) (num : Number N) (fl : Floor N) (selectedTrialCount : Z)
         (id : String.string) (cond : Condition) (clicks : list (N * N * N)),
    let seqs :=
      fst (generateAllSequences (N:=N)
             (StimulusGenerator_new selectedTrialCount)) in
    let all := session seqs cond in
    (length clicks <= length all)%nat ->
    length all = (70 + Z.to_nat selectedTrialCount)%nat
    /\ exists e0 e',
         NeuroStateExperiment.startExperiment selectedTrialCount
           (NeuroStateExperiment.constructor id cond) = Done e0
         /\ NeuroStateExperiment.run (oneClickPerTrial clicks) e0 = Done e'
         /\ map (@shown N) (NeuroStateExperiment.trials e')
            = map (@shown_of N) (firstn (length clicks) all)
         /\ Forall (stamped id cond) (NeuroStateExperiment.trials e')
         /\ NeuroStateExperiment.completed e'
            = (length clicks =? length all)%nat.
Proof.
  intros N num fl count id cond clicks seqs all Hclicks.
  destruct (generated_session (N:=N) count cond) as [five Hlen].
  fold seqs in five, Hlen. fold all in Hlen. split; [exact Hlen |].
  unfold NeuroStateExperiment.startExperiment.
  destruct (generateAllSequences (N:=N) (StimulusGenerator_new count))
    as [seqs' generator] eqn:Egen.
  cbn [fst] in seqs. subst seqs.
  unfold NeuroStateExperiment.startTutorial, NeuroStateExperiment.startBlock.
  cbn [NeuroStateExperiment.sequences NeuroStateExperiment.isTutorial
       NeuroStateExperiment.tutorialPhase NeuroStateExperiment.condition
       NeuroStateExperiment.constructor].
  change (1 - 1)%Z with (Z.of_nat 0 + 1 - 1)%Z.
  rewrite (@blocksOf_tutorial N seqs' cond five 0) by lia.
  match goal with
  | |- exists e0 e', NeuroStateExperiment.startTrial _ ?e1 = _ /\ _ =>
      destruct (@startTrial_positioned N seqs' cond five
                  NeuroStateExperiment.blocks 0%nat 0%nat e1)
        as (e0 & Hrun & Hsame & Hnext)
  end.
  { unfold positioned. cbn. repeat split; auto; try lia; try discriminate. }
  { lia. }
  { unfold NeuroStateExperiment.blocks. lia. }
  rewrite (@remaining_session N seqs' cond five) in Hnext. fold all in Hnext.
  destruct all as [| tr rest] eqn:Eall; [cbn in Hlen; lia |].
  destruct Hnext as (b & i & Hpos & Hi & Hcur & Hrem).
  destruct Hsame as (Hid & _ & Hlog & Htim & _).
  cbn [NeuroStateExperiment.participantID NeuroStateExperiment.trials
       NeuroStateExperiment.timers NeuroStateExperiment.constructor]
    in Hid, Hlog, Htim.
  pose proof Hrem as Hrem'.
  destruct (@run_clicks N num fl seqs' cond five clicks e0 b i tr rest
              Hpos Hi Hcur Hrem' Htim Hclicks)
    as (e' & Hrun' & (new & Hnew & Hshown & Hstamp) & Hdone).
  exists e0, e'. split; [exact Hrun |]. split; [exact Hrun' |].
  rewrite Hlog in Hnew. cbn [app] in Hnew. rewrite Hnew.
  split; [exact Hshown |]. split; [now rewrite <- Hid | exact Hdone].
Qed.

(** X15.  A participant who clicks once on each trial, and waits for the
    next trial before the next click, is shown the trials of the condition
    one after the other: the five tutorial blocks (70 trials), then the main
    block.  After [k] clicks the log holds the first [k] trials of that
    order, each with its state, its observation, its counter and its change
    flag and with the participant's ID, the condition and the block 0; and
    the experiment has ended exactly when every trial has been clicked. *)
Theorem every_trial_is_shown_once_in_order :
  forall (N : Type) (num : Number N) (fl : Floor N) (selectedTrialCount : Z)
         (id : String.string) (cond : Condition) (clicks : list (N * N * N)),
    let seqs :=
      fst (generateAllSequences (N:=N)
             (StimulusGenerator_new selectedTrialCount)) in
    let all := session seqs cond in
    (length clicks <= length all)%nat ->
    length all = (70 + Z.to_nat selectedTrialCount)%nat
    /\ exists e0 e',
         NeuroStateExperiment.startExperiment selectedTrialCount
           (NeuroStateExperiment.constructor id cond) = Done e0
         /\ NeuroStateExperiment.run (oneClickPerTrial clicks) e0 = Done e'
         /\ map (@shown N) (NeuroStateExperiment.trials e')
            = map (@shown_of N) (firstn (length clicks) all)
         /\ Forall (stamped id cond) (NeuroStateExperiment.trials e')
         /\ NeuroStateExperiment.completed e'
            = (length clicks =? length all)%nat.
Proof.
  intros N num fl count id cond clicks seqs all Hclicks.
  exact (session_run num fl count id cond clicks Hclicks).
Qed.

(** X15 on the session of five main trials, after two clicks. *)
Lemma every_trial_is_shown_once_in_order_two_clicks :
  let seqs := fst (generateAllSequences (N:=float) (StimulusGenerator_new 5)) in
  let clicks := [(400, 0, 1); (410, 2, 3)]%float in
  (length clicks <= length (session seqs HI))%nat
  /\ length (session seqs HI) = 75%nat
  /\ exists e0 e',
       NeuroStateExperiment.startExperiment 5
         (NeuroStateExperiment.constructor String.EmptyString HI) = Done e0
       /\ NeuroStateExperiment.run (oneClickPerTrial clicks) e0 = Done e'
       /\ map (@shown float) (NeuroStateExperiment.trials e')
          = map (@shown_of float) (firstn 2 (session seqs HI))
       /\ NeuroStateExperiment.completed e' = false.
Proof.
  intros seqs clicks.
  assert (H : (length clicks <= length (session seqs HI))%nat)
    by (vm_compute; repeat constructor).
  split; [exact H |].
  destruct (every_trial_is_shown_once_in_order _ FloatFloor 5
              String.EmptyString HI clicks H)
    as (Hlen & e0 & e' & Hstart & Hrun & Hshown & _ & Hdone).
  split; [exact Hlen |]. exists e0, e'.
  split; [exact Hstart |]. split; [exact Hrun |]. split; [exact Hshown |].
  rewrite Hdone. subst seqs. cbv zeta in Hlen. rewrite Hlen. reflexivity.
Defined.

(** ** NeuroStateExperiment: the score, the log and the summary *)

Section Log.

Import NeuroStateExperiment.

Context {N : Type} {num : Number N} {fl : Floor N}.

Ltac fields :=
  cbn [participantID stimulusGenerator NeuroStateExperiment.condition
       blockIdx trialIdx totalScore currentTrial sequences tutorialPhase
       isTutorial showPastDotsFlag showTrueState currentTrials trials timers
       completed endExperiment].

(** The flow of the trials leaves the score and the log alone. *)
Lemma startTrial_frame (fuel : nat) : forall e e' : State N,
  startTrial fuel e = Done e' ->
  totalScore e' = totalScore e /\ trials e' = trials e.
Proof.
  induction fuel as [| fuel IH]; intros e e'; cbn [startTrial];
    destruct (currentTrials e) as [block |]; try discriminate;
    destruct (Z.of_nat (length block) <=? trialIdx e)%Z; try discriminate;
    try (destruct (element block (trialIdx e)); [| discriminate];
         destruct (stimulusGenerator e); [| discriminate];
         intros H; injection H as <-; split; reflexivity).
  unfold endBlock. destruct (isTutorial e).
  - destruct (_ <? 5)%Z.
    + unfold startBlock. fields. destruct (sequences e); [| discriminate].
      intros H. apply IH in H. exact H.
    + unfold startMainExperiment, startBlock. fields.
      destruct (sequences e); [| discriminate].
      intros H. apply IH in H. exact H.
  - intros H. injection H as <-. split; reflexivity.
Qed.

(** What an event does to the score and the log: nothing, or the entry of
    a click. *)
Lemma handle_log (ev : Event N) (e e' : State N) :
  handle ev e = Done e' ->
  (totalScore e' = totalScore e /\ trials e' = trials e)
  \/ exists clickX clickTime now trial entry,
       ev = Click clickX clickTime now
       /\ trials e' = trials e ++ [entry]
       /\ Logged.points_awarded entry
          = ExperimentUtils.calculatePoints
              (ExperimentUtils.screenToState clickX canvasWidth) (s_t trial)
       /\ Logged.rt_ms entry = (clickTime - now)%num
       /\ totalScore e' = (totalScore e + Logged.points_awarded entry)%num
       /\ Logged.score_total_at_checkpoint entry = totalScore e'.
Proof.
  destruct ev as [clickX clickTime now |]; cbn [handle].
  - destruct (completed e).
    + intros H. injection H as <-. left. split; reflexivity.
    + unfold handleClick.
      destruct (stimulusGenerator e); [| discriminate].
      destruct (currentTrial e) as [trial |]; [| discriminate].
      intros H. injection H as <-. right.
      exists clickX, clickTime, now, trial. eexists.
      split; [reflexivity |]. fields. split; [reflexivity |].
      cbn [Logged.points_awarded Logged.rt_ms Logged.score_total_at_checkpoint].
      repeat split.
  - destruct (timers e).
    + intros H. injection H as <-. left. split; reflexivity.
    + unfold timeout. intros H. apply startTrial_frame in H. left. exact H.
Qed.

End Log.

Section Score.

Import NeuroStateExperiment.

Local Open Scope R_scope.

Lemma points_range (clickX trueState : R) :
  0 <= ExperimentUtils.calculatePoints clickX trueState <= 100.
Proof.
  rewrite calculatePoints_real.
  assert (H0 : (0 <= Zfloor (Rabs (clickX - trueState) * 2))%Z).
  { apply Zfloor_nonneg. pose proof (Rabs_pos (clickX - trueState)). lra. }
  split; [apply (IZR_le 0) | apply (IZR_le _ 100)]; lia.
Qed.

Lemma points_sum_bounds (log : list (Logged.Entry R)) : forall a : R,
  Forall (fun en => 0 <= Logged.points_awarded en <= 100) log ->
  a <= pointsFrom log a <= a + 100 * IZR (Z.of_nat (length log)).
Proof.
  induction log as [| en log IH]; intros a Hall.
  - cbn. lra.
  - inversion Hall as [| ? ? Hen Hrest]; subst.
    unfold pointsFrom in *. cbn [fold_left length].
    rewrite Nat2Z.inj_succ, succ_IZR.
    specialize (IH (a + Logged.points_awarded en)%num Hrest).
    cbn [add RealNumber] in *. lra.
Qed.

Lemma run_scored (events : list (Event R)) : forall e e' : State R,
  scored e -> run events e = Done e' -> scored e'.
Proof.
  induction events as [| ev events IH]; intros e e' Hs; cbn [run].
  - intros H. now injection H as <-.
  - destruct (handle ev e) as [e1 | |] eqn:Eh; try discriminate.
    apply IH. destruct Hs as (Hsum & Hall & Hlast).
    destruct (handle_log _ _ Eh)
      as [[Hscore Hlog]
         | (x & t1 & t2 & trial & entry & _ & Hlog & Hp & _ & Hscore & Hcheck)].
    + unfold scored. now rewrite Hscore, Hlog.
    + unfold scored. rewrite Hlog. split; [| split].
      * unfold pointsFrom in *. rewrite fold_left_app. cbn [fold_left].
        now rewrite <- Hsum.
      * apply Forall_app. split; [exact Hall |].
        constructor; [| constructor]. rewrite Hp. apply points_range.
      * rewrite map_app. cbn [map]. rewrite last_last. exact Hcheck.
Qed.

Lemma startExperiment_scored count id cond (e0 : State R) :
  startExperiment count (constructor id cond) = Done e0 -> scored e0.
Proof.
  unfold startExperiment.
  destruct (generateAllSequences (StimulusGenerator_new count)) as [seqs g].
  unfold startTutorial, startBlock.
  cbn [sequences isTutorial tutorialPhase NeuroStateExperiment.condition
       constructor].
  intros H. apply startTrial_frame in H. destruct H as [Hscore Hlog].
  cbn [totalScore trials] in Hscore, Hlog.
  unfold scored. rewrite Hscore, Hlog. cbn. repeat split. constructor.
Qed.

(** Reaction times, with a clock that does not run backwards. *)
Lemma run_reaction (events : list (Event R)) : forall e e' : State R,
  (forall clickX clickTime now,
     In (Click clickX clickTime now) events -> clickTime <= now) ->
  Forall (fun en => Logged.rt_ms en <= 0) (trials e) ->
  run events e = Done e' ->
  Forall (fun en => Logged.rt_ms en <= 0) (trials e').
Proof.
  induction events as [| ev events IH]; intros e e' Hclock Hall; cbn [run].
  - intros H. now injection H as <-.
  - destruct (handle ev e) as [e1 | |] eqn:Eh; try discriminate.
    apply IH; [intros x t1 t2 Hin; apply (Hclock x); now right |].
    destruct (handle_log _ _ Eh)
      as [[_ Hlog]
         | (x & t1 & t2 & trial & entry & -> & Hlog & _ & Hrt & _ & _)].
    + now rewrite Hlog.
    + rewrite Hlog. apply Forall_app. split; [exact Hall |].
      constructor; [| constructor]. rewrite Hrt.
      specialize (Hclock x t1 t2 (or_introl eq_refl)).
      cbn [sub RealNumber]. lra.
Qed.

End Score.

Section Summary.

Import NeuroStateExperiment.

Local Open Scope R_scope.

Lemma no_valid_reaction_time (log : list (Logged.Entry R)) :
  Forall (fun en => Logged.rt_ms en <= 0) log ->
  filter (fun trial => (Logged.rt_ms trial >? of_Z 0)%num) log = [].
Proof.
  induction 1 as [| en log Hen _ IH]; [reflexivity |].
  cbn [filter ltb of_Z RealNumber]. unfold Rltb.
  destruct (Rlt_dec 0 (Logged.rt_ms en)); [lra | exact IH].
Qed.

(** One click of a session in exact arithmetic. *)
Lemma one_click_session :
  exists e0 e' : State R,
    startExperiment 5 (constructor String.EmptyString HI) = Done e0
    /\ run (oneClickPerTrial [(400, 0, 1)]) e0 = Done e'
    /\ length (trials e') = 1%nat.
Proof.
  destruct (generated_session (N:=R) 5 HI) as [_ Hlen].
  assert (H : (length [(400, 0, 1)] <= length
                 (session (fst (generateAllSequences (N:=R)
                                  (StimulusGenerator_new 5))) HI))%nat).
  { cbv zeta in Hlen. rewrite Hlen. cbn. lia. }
  destruct (session_run RealNumber RealFloor 5 String.EmptyString HI
              [(400, 0, 1)] H)
    as (_ & e0 & e' & Hstart & Hrun & Hshown & _).
  exists e0, e'. split; [exact Hstart |]. split; [exact Hrun |].
  apply (f_equal (@length _)) in Hshown. rewrite !length_map in Hshown.
  rewrite Hshown, length_firstn. cbv zeta in Hlen. rewrite Hlen. reflexivity.
Qed.

End Summary.

(** X16.  In exact arithmetic, whatever the clicks and the timeouts of a
    session: the score is the sum of the points of the entries of the log,
    tutorial included; every entry has between 0 and 100 points, so the
    score is between 0 and 100 times the number of entries; and in the
    summary the total is that score and the accuracy is the average of the
    points, between 0 and 100. *)
Theorem total_score_is_the_sum_of_the_points :
  forall (selectedTrialCount : Z) (id : String.string) (cond : Condition)
         (events : list (NeuroStateExperiment.Event R))
         (e0 e' : NeuroStateExperiment.State R),
    NeuroStateExperiment.startExperiment selectedTrialCount
      (NeuroStateExperiment.constructor id cond) = Done e0 ->
    NeuroStateExperiment.run events e0 = Done e' ->
    let log := NeuroStateExperiment.trials e' in
    NeuroStateExperiment.totalScore e' = pointsFrom log 0%R
    /\ Forall (fun en => (0 <= Logged.points_awarded en <= 100)%R) log
    /\ (0 <= NeuroStateExperiment.totalScore e'
        <= 100 * IZR (Z.of_nat (length log)))%R
    /\ match NeuroStateExperiment.displayExperimentSummary e' with
       | None => log = []
       | Some s =>
           NeuroStateExperiment.totalPoints s
           = NeuroStateExperiment.totalScore e'
           /\ NeuroStateExperiment.accuracy s
              = NeuroStateExperiment.averagePoints s
           /\ (0 <= NeuroStateExperiment.averagePoints s <= 100)%R
       end.
Proof.
  intros count id cond events e0 e' Hstart Hrun log.
  pose proof (run_scored events (startExperiment_scored _ _ _ Hstart) Hrun)
    as (Hsum & Hall & _).
  fold log in Hsum, Hall.
  pose proof (points_sum_bounds 0%R Hall) as Hbounds.
  rewrite <- Hsum in Hbounds.
  split; [exact Hsum |]. split; [exact Hall |]. split; [lra |].
  unfold NeuroStateExperiment.displayExperimentSummary. fold log.
  destruct log as [| en rest] eqn:Elog; [reflexivity |].
  cbn [NeuroStateExperiment.totalPoints NeuroStateExperiment.accuracy
       NeuroStateExperiment.averagePoints].
  change (fold_left _ (en :: rest) (of_Z 0)) with (pointsFrom (en :: rest) 0%R).
  rewrite <- Hsum. cbn [of_Z mul div RealNumber].
  set (n := IZR (Z.of_nat (length (en :: rest)))) in *.
  assert (Hn : (1 <= n)%R).
  { unfold n. apply (IZR_le 1). cbn [length]. lia. }
  split; [reflexivity |]. split; [field; lra |].
  split.
  - apply Rmult_le_pos; [lra |]. apply Rlt_le, Rinv_0_lt_compat. lra.
  - apply (Rmult_le_reg_r n); [lra |].
    unfold Rdiv. rewrite Rmult_assoc, Rinv_l by lra. lra.
Qed.

(** X16 on a session of five main trials, after one click. *)
Lemma total_score_is_the_sum_of_the_points_one_click :
  exists e0 e' : NeuroStateExperiment.State R,
    NeuroStateExperiment.startExperiment 5
      (NeuroStateExperiment.constructor String.EmptyString HI) = Done e0
    /\ NeuroStateExperiment.run (oneClickPerTrial [(400, 0, 1)]%R) e0 = Done e'
    /\ NeuroStateExperiment.totalScore e'
       = pointsFrom (NeuroStateExperiment.trials e') 0%R.
Proof.
  destruct one_click_session as (e0 & e' & Hstart & Hrun & _).
  exists e0, e'. split; [exact Hstart |]. split; [exact Hrun |].
  exact (proj1 (total_score_is_the_sum_of_the_points _ _ _ _ Hstart Hrun)).
Defined.

(** X17.  In exact arithmetic, with a clock that does not run backwards:
    [handleClick] reads the clock a second time for [rt_ms], so no entry of
    the log has a positive reaction time, and the average reaction time of
    the summary, which is taken over the positive ones, is 0 whatever the
    participant did. *)
Theorem reaction_times_are_never_positive :
  forall (selectedTrialCount : Z) (id : String.string) (cond : Condition)
         (events : list (NeuroStateExperiment.Event R))
         (e0 e' : NeuroStateExperiment.State R),
    (forall clickX clickTime now : R,
       In (NeuroStateExperiment.Click clickX clickTime now) events ->
       (clickTime <= now)%R) ->
    NeuroStateExperiment.startExperiment selectedTrialCount
      (NeuroStateExperiment.constructor id cond) = Done e0 ->
    NeuroStateExperiment.run events e0 = Done e' ->
    Forall (fun en => (Logged.rt_ms en <= 0)%R) (NeuroStateExperiment.trials e')
    /\ match NeuroStateExperiment.displayExperimentSummary e' with
       | None => NeuroStateExperiment.trials e' = []
       | Some s => NeuroStateExperiment.avgReactionTime s = 0%R
       end.
Proof.
  intros count id cond events e0 e' Hclock Hstart Hrun.
  assert (Hall : Forall (fun en => (Logged.rt_ms en <= 0)%R)
                   (NeuroStateExperiment.trials e')).
  { eapply run_reaction; [exact Hclock | | exact Hrun].
    destruct (startExperiment_scored _ _ _ Hstart) as (_ & _ & Hlast).
    destruct (NeuroStateExperiment.trials e0) as [| en rest] eqn:E;
      [constructor |].
    exfalso. clear Hlast.
    revert Hstart. unfold NeuroStateExperiment.startExperiment.
    destruct (generateAllSequences (StimulusGenerator_new count)) as [seqs g].
    unfold NeuroStateExperiment.startTutorial, NeuroStateExperiment.startBlock.
    cbn [NeuroStateExperiment.sequences NeuroStateExperiment.isTutorial
         NeuroStateExperiment.tutorialPhase NeuroStateExperiment.condition
         NeuroStateExperiment.constructor].
    intros H. apply startTrial_frame in H. destruct H as [_ Hlog].
    cbn [NeuroStateExperiment.trials NeuroStateExperiment.constructor] in Hlog.
    congruence. }
  split; [exact Hall |].
  unfold NeuroStateExperiment.displayExperimentSummary.
  destruct (NeuroStateExperiment.trials e') as [| en rest] eqn:Elog;
    [reflexivity |].
  cbn [NeuroStateExperiment.avgReactionTime].
  now rewrite (no_valid_reaction_time Hall).
Qed.

(** X17 on a session of five main trials, after one click. *)
Lemma reaction_times_are_never_positive_one_click :
  exists e0 e' : NeuroStateExperiment.State R,
    NeuroStateExperiment.startExperiment 5
      (NeuroStateExperiment.constructor String.EmptyString HI) = Done e0
    /\ NeuroStateExperiment.run (oneClickPerTrial [(400, 0, 1)]%R) e0 = Done e'
    /\ Forall (fun en => (Logged.rt_ms en <= 0)%R)
         (NeuroStateExperiment.trials e').
Proof.
  destruct one_click_session as (e0 & e' & Hstart & Hrun & _).
  exists e0, e'. split; [exact Hstart |]. split; [exact Hrun |].
  refine (proj1 (@reaction_times_are_never_positive 5 String.EmptyString HI
                   (oneClickPerTrial [(400, 0, 1)]%R) e0 e' _ Hstart Hrun)).
  intros clickX clickTime now Hin. cbn in Hin.
  destruct Hin as [Hin | [Hin | []]]; [| discriminate].
  injection Hin as <- <- <-. lra.
Defined.

(** ** NeuroStateExperiment: the past dots, and a second click *)

Section Buffer.

Context {A : Type}.

Lemma rememberDot_skipn (buffer : list A) (dot : A) :
  (length buffer <= 10)%nat ->
  NeuroStateExperiment.rememberDot buffer dot
  = skipn (length (buffer ++ [dot]) - 10) (buffer ++ [dot]).
Proof.
  intros Hlen. unfold NeuroStateExperiment.rememberDot.
  rewrite length_app. cbn [length].
  destruct (Nat.ltb_spec 10 (length buffer + 1)) as [Hfull | Hroom].
  - replace (length buffer + 1 - 10)%nat with 1%nat by lia.
    destruct (buffer ++ [dot]); reflexivity.
  - replace (length buffer + 1 - 10)%nat with 0%nat by lia. reflexivity.
Qed.

Lemma fold_rememberDot (dots : list A) : forall buffer : list A,
  (length buffer <= 10)%nat ->
  fold_left NeuroStateExperiment.rememberDot dots buffer
  = skipn (length (buffer ++ dots) - 10) (buffer ++ dots).
Proof.
  induction dots as [| dot dots IH]; intros buffer Hlen.
  - cbn [fold_left]. rewrite app_nil_r.
    replace (length buffer - 10)%nat with 0%nat by lia. reflexivity.
  - cbn [fold_left]. rewrite rememberDot_skipn by exact Hlen.
    set (k := (length (buffer ++ [dot]) - 10)%nat).
    assert (Hk : (k <= length (buffer ++ [dot]))%nat) by (unfold k; lia).
    rewrite IH.
    + rewrite length_app, length_skipn.
      replace (skipn k (buffer ++ [dot]) ++ dots)
        with (skipn k ((buffer ++ [dot]) ++ dots))
        by (rewrite skipn_app; replace (k - length (buffer ++ [dot]))%nat
              with 0%nat by lia; reflexivity).
      rewrite skipn_skipn, <- app_assoc. cbn [app]. f_equal.
      rewrite !length_app in *. cbn [length] in *. unfold k.
      rewrite length_app. cbn [length]. lia.
    + rewrite length_skipn, length_app. cbn [length]. unfold k.
      rewrite length_app. cbn [length]. lia.
Qed.

End Buffer.

(** X18.  The buffer of past dots of [animateSnowball], filled from empty,
    holds the last ten of the dots pushed, in their order, and all of them
    while there are ten or fewer. *)
Theorem past_dots_are_the_last_ten :
  forall (A : Type) (dots : list A),
    let pastDots := fold_left NeuroStateExperiment.rememberDot dots [] in
    pastDots = skipn (length dots - 10) dots
    /\ length pastDots = Nat.min (length dots) 10.
Proof.
  intros A dots pastDots. subst pastDots.
  rewrite fold_rememberDot by (cbn; lia). cbn [app].
  split; [reflexivity |]. rewrite length_skipn. lia.
Qed.

Section Twice.

Import NeuroStateExperiment.

Context {N : Type} {num : Number N} {fl : Floor N}.

Lemma startTrial_within (fuel : nat) (e : State N) block (i : nat) tr :
  stimulusGenerator e <> None ->
  currentTrials e = Some block ->
  trialIdx e = Z.of_nat i ->
  nth_error block i = Some tr ->
  startTrial fuel e
  = Done {| participantID := participantID e;
            stimulusGenerator := stimulusGenerator e;
            NeuroStateExperiment.condition := NeuroStateExperiment.condition e;
            blockIdx := blockIdx e;
            trialIdx := trialIdx e;
            totalScore := totalScore e;
            currentTrial := Some tr;
            sequences := sequences e;
            tutorialPhase := tutorialPhase e;
            isTutorial := isTutorial e;
            showPastDotsFlag := showPastDotsFlag e;
            showTrueState := showTrueState e;
            currentTrials := currentTrials e;
            trials := trials e;
            timers := timers e;
            completed := completed e |}.
Proof.
  intros Hgen Hblock Hidx Hnth.
  assert (Hlt : (i < length block)%nat)
    by (apply nth_error_Some; congruence).
  destruct (stimulusGenerator e) as [g |] eqn:Eg; [| congruence].
  destruct fuel; cbn [startTrial]; rewrite Hblock, Hidx, Eg;
    (destruct (Z.leb_spec (Z.of_nat (length block)) (Z.of_nat i));
     [lia |]);
    unfold element;
    (destruct (Z.ltb_spec (Z.of_nat i) 0); [lia |]);
    rewrite Nat2Z.id, Hnth; reflexivity.
Qed.

(** What a click on the trial that is shown leaves. *)
Lemma click_step (e : State N) tr clickX clickTime now :
  stimulusGenerator e <> None ->
  completed e = false -> currentTrial e = Some tr ->
  exists e1 entry,
    handle (Click clickX clickTime now) e = Done e1
    /\ trials e1 = trials e ++ [entry]
    /\ shown entry = shown_of tr
    /\ Logged.trial_idx entry = trialIdx e
    /\ Logged.click_x entry = ExperimentUtils.screenToState clickX canvasWidth
    /\ Logged.repeated_click_flag entry
       = match last (map Some (trials e)) None with
         | Some previousTrial =>
             strictEquals (ExperimentUtils.screenToState clickX canvasWidth)
                          (Logged.click_x previousTrial)
         | None => false
         end
    /\ currentTrials e1 = currentTrials e
    /\ trialIdx e1 = trialIdx e
    /\ currentTrial e1 = Some tr
    /\ completed e1 = false
    /\ timers e1 = S (timers e)
    /\ stimulusGenerator e1 <> None.
Proof.
  intros Hgen Hdone Htr. cbn [handle]. rewrite Hdone. unfold handleClick.
  destruct (stimulusGenerator e) as [g |] eqn:Eg; [| congruence].
  rewrite Htr. eexists. eexists. split; [reflexivity |].
  cbn. repeat split; try assumption; discriminate.
Qed.

(** What a timeout leaves when the block has a next trial. *)
Lemma timer_step (e : State N) block (i k : nat) tr :
  stimulusGenerator e <> None ->
  timers e = S k -> currentTrials e = Some block ->
  trialIdx e = Z.of_nat i -> nth_error block (S i) = Some tr ->
  exists e1,
    handle Timer e = Done e1
    /\ trials e1 = trials e
    /\ currentTrials e1 = Some block
    /\ trialIdx e1 = Z.of_nat (S i)
    /\ currentTrial e1 = Some tr
    /\ completed e1 = completed e
    /\ timers e1 = k
    /\ stimulusGenerator e1 <> None.
Proof.
  intros Hgen Htimers Hblock Hidx Hnth. cbn [handle]. rewrite Htimers.
  unfold timeout.
  erewrite startTrial_within with (i := S i) (tr := tr);
    [| cbn; exact Hgen | cbn; exact Hblock | cbn; rewrite Hidx; lia
     | exact Hnth].
  eexists. split; [reflexivity |]. cbn. rewrite Htimers, Hidx.
  repeat split; auto. lia.
Qed.

End Twice.

(** X19.  In a session that has started (the generator exists, a trial is
    shown, two more follow in its block): a second click before the timeout
    of the first has fired is logged for the same trial, with the same
    index, and each click sets its own timeout; when both have fired the
    index has advanced by two, the trial after the next one is the current
    trial, and the trial in between has no entry in the log. *)
Theorem a_second_click_skips_a_trial :
  forall (N : Type) (num : Number N) (fl : Floor N)
         (e : NeuroStateExperiment.State N) (block : list (Trial N))
         (i : nat) (tr next : Trial N)
         (x1 t1 n1 x2 t2 n2 : N),
    NeuroStateExperiment.stimulusGenerator e <> None ->
    NeuroStateExperiment.currentTrials e = Some block ->
    NeuroStateExperiment.trialIdx e = Z.of_nat i ->
    NeuroStateExperiment.currentTrial e = Some tr ->
    nth_error block (i + 2) = Some next ->
    NeuroStateExperiment.completed e = false ->
    NeuroStateExperiment.timers e = 0%nat ->
    exists e' first second,
      NeuroStateExperiment.run
        [NeuroStateExperiment.Click x1 t1 n1;
         NeuroStateExperiment.Click x2 t2 n2;
         NeuroStateExperiment.Timer; NeuroStateExperiment.Timer] e
      = Done e'
      /\ NeuroStateExperiment.trials e'
         = NeuroStateExperiment.trials e ++ [first; second]
      /\ shown first = shown_of tr /\ shown second = shown_of tr
      /\ Logged.trial_idx first = Z.of_nat i
      /\ Logged.trial_idx second = Z.of_nat i
      /\ Logged.repeated_click_flag second
         = NeuroStateExperiment.strictEquals
             (ExperimentUtils.screenToState x2 NeuroStateExperiment.canvasWidth)
             (ExperimentUtils.screenToState x1 NeuroStateExperiment.canvasWidth)
      /\ NeuroStateExperiment.trialIdx e' = Z.of_nat (i + 2)
      /\ NeuroStateExperiment.currentTrial e' = Some next
      /\ NeuroStateExperiment.timers e' = 0%nat.
Proof.
  intros N num fl e block i tr next x1 t1 n1 x2 t2 n2
         Hgen Hblock Hidx Htr Hnext Hdone Htimers.
  assert (Hlen : (i + 2 < length block)%nat)
    by (apply nth_error_Some; congruence).
  destruct (nth_error block (i + 1)) as [skipped |] eqn:Eskip.
  2:{ apply nth_error_None in Eskip. lia. }
  destruct (@click_step N num fl e tr x1 t1 n1 Hgen Hdone Htr)
    as (e1 & first & H1 & Hlog1 & Hshown1 & Hidx1 & Hx1 & _ & Hblock1 & Hi1
        & Htr1 & Hdone1 & Htim1 & Hgen1).
  destruct (@click_step N num fl e1 tr x2 t2 n2 Hgen1 Hdone1 Htr1)
    as (e2 & second & H2 & Hlog2 & Hshown2 & Hidx2 & _ & Hrep & Hblock2 & Hi2
        & _ & _ & Htim2 & Hgen2).
  rewrite Htim1, Htimers in Htim2. rewrite Hblock1, Hblock in Hblock2.
  rewrite Hi1, Hidx in Hi2.
  assert (Hskip : nth_error block (S i) = Some skipped)
    by (now replace (S i) with (i + 1)%nat by lia).
  destruct (@timer_step N num fl e2 block i 1 skipped Hgen2 Htim2 Hblock2 Hi2
              Hskip)
    as (e3 & H3 & Hlog3 & Hblock3 & Hi3 & _ & _ & Htim3 & Hgen3).
  assert (Hnext' : nth_error block (S (S i)) = Some next)
    by (now replace (S (S i)) with (i + 2)%nat by lia).
  destruct (@timer_step N num fl e3 block (S i) 0 next Hgen3 Htim3 Hblock3 Hi3
              Hnext')
    as (e4 & H4 & Hlog4 & _ & Hi4 & Htr4 & _ & Htim4 & _).
  exists e4, first, second.
  cbn [NeuroStateExperiment.run]. rewrite H1, H2, H3, H4.
  split; [reflexivity |].
  split; [now rewrite Hlog4, Hlog3, Hlog2, Hlog1, <- app_assoc |].
  split; [exact Hshown1 |]. split; [exact Hshown2 |].
  split; [now rewrite Hidx1 |]. split; [now rewrite Hidx2, Hi1 |].
  split.
  - rewrite Hrep, Hlog1, map_app. cbn [map]. rewrite last_last.
    now rewrite Hx1.
  - split; [rewrite Hi4; f_equal; lia |]. split; [exact Htr4 | exact Htim4].
Qed.

(** X19 at the start of the tutorial of a session of five main trials: two
    clicks on the first trial, and the third trial is the next. *)
Lemma a_second_click_skips_a_trial_phase_1 :
  match NeuroStateExperiment.startExperiment (N:=float) 5
          (NeuroStateExperiment.constructor String.EmptyString HI) with
  | Done e =>
      exists e',
        NeuroStateExperiment.run
          [NeuroStateExperiment.Click 400%float 0%float 1%float;
           NeuroStateExperiment.Click 400%float 2%float 3%float;
           NeuroStateExperiment.Timer; NeuroStateExperiment.Timer] e
        = Done e'
        /\ NeuroStateExperiment.trialIdx e' = 2%Z
        /\ length (NeuroStateExperiment.trials e')
           = (length (NeuroStateExperiment.trials e) + 2)%nat
  | TypeError => False
  | OutOfFuel => False
  end.
Proof.
  destruct (NeuroStateExperiment.startExperiment (N:=float) 5
              (NeuroStateExperiment.constructor String.EmptyString HI))
    as [e | |] eqn:E; try (vm_compute in E; discriminate).
  assert (H : exists block tr next,
             NeuroStateExperiment.stimulusGenerator e <> None
             /\ NeuroStateExperiment.currentTrials e = Some block
             /\ NeuroStateExperiment.trialIdx e = Z.of_nat 0
             /\ NeuroStateExperiment.currentTrial e = Some tr
             /\ nth_error block (0 + 2) = Some next
             /\ NeuroStateExperiment.completed e = false
             /\ NeuroStateExperiment.timers e = 0%nat).
  { vm_compute in E. injection E as <-.
    eexists. eexists. eexists.
    split; [discriminate |].
    split; [reflexivity |]. split; [reflexivity |]. split; [reflexivity |].
    split; [reflexivity |]. split; reflexivity. }
  destruct H
    as (block & tr & next & Hgen & Hblock & Hidx & Htr & Hnext & Hdone & Htim).
  destruct (@a_second_click_skips_a_trial float FloatNumber FloatFloor e block
              0%nat tr next 400%float 0%float 1%float 400%float 2%float
              3%float Hgen Hblock Hidx Htr Hnext Hdone Htim)
    as (e' & first & second & Hrun & Hlog & _ & _ & _ & _ & _ & Hidx' & _).
  exists e'. split; [exact Hrun |]. split; [exact Hidx' |].
  rewrite Hlog, length_app. reflexivity.
Defined.
